(** * Authentication core of picoclaw: credential store, OAuth2 device flow,
      token refresh, SAML bridge and form extraction.

    Shallow embedding of [scripts/email_dashboard.py] (class [TokenManager])
    and [scripts/moodle_sso_refresh.py] ([FormParser], [refresh_token]).

    Conventions of the embedding:
    - A Python [str] is a sequence of characters with code points below 256
      ([string], one [ascii] per character); a text with a character beyond
      that range is outside the embedding. (What only compares and cuts
      texts, [contains], [startswith], [split] and the token pattern, reads
      such a text equally well from its UTF-8 bytes; the whitespace class,
      [lower] and lengths are about characters.) [bytes] values are [string]
      too. Dictionaries are [gmap string _]; JSON documents are values of
      [json], whose numbers are whole ([int], or a [float] with a whole
      value).
    - Wall-clock readings ([time.time()]) are whole numbers of seconds in
      [Z], of magnitude below [2^53] as every reading of a real clock is; a
      sum with a clock reading is a [float] sum, rounded as Python rounds it.
    - An uncaught Python exception is the [Raise] outcome; [sys.exit] is the
      exception [SystemExit], tagged with the call site that produced it.
    - Text printed on stdout/stderr and log records is not modelled.
    - File permissions ([os.chmod]) are not modelled; directory creation and
      writes succeed, reads can find the file missing or unparsable. *)

From Stdlib Require Import ZArith Ascii String List Lia Bool.
From stdpp Require Import base gmap strings list fin_maps pretty.

Open Scope Z_scope.
Open Scope string_scope.

(* ===================================================================== *)
(** * Python values and primitive operations                              *)
(* ===================================================================== *)

Module Py.

(** JSON documents as produced by [json.loads] / [Response.json()]. *)
#[local] Unset Elimination Schemes.
Inductive json : Type :=
| JNull
| JBool (b : bool)
| JNum (n : Z)
| JStr (s : string)
| JArr (l : list json)
| JObj (m : gmap string json).
#[local] Set Elimination Schemes.

(** Exceptions that can leave the modelled functions. *)
Inductive failure : Type :=
| ProtocolMismatch | ParseError | FederationNotSupported | AuthFailed
| SSOIncomplete | UnexpectedResponse | NoTokenInRedirect | MalformedToken
| ConsentRequired.

Inductive exn : Type :=
| KeyError (key : string)
| TypeError
| AttributeError
| ValueError
| JSONDecodeError
| RequestException
| RuntimeError
| TimeoutError
| OverflowError
| OSError
| AssertionError
| SystemExit (site : failure).

Inductive outcome (A : Type) : Type :=
| Ret (a : A)
| Raise (e : exn).
Arguments Ret {A} a.
Arguments Raise {A} e.

(** Truthiness of a value ([if v:], [bool(v)], [not v]). *)
Definition truthy (v : json) : bool :=
  match v with
  | JNull => false
  | JBool b => b
  | JNum n => negb (Z.eqb n 0)
  | JStr s => negb (String.eqb s "")
  | JArr l => match l with [] => false | _ => true end
  | JObj m => negb (bool_decide (m = ∅))
  end.

(** [d.get(k, default)]. *)
Definition dict_get {A} (d : gmap string A) (k : string) (default : A) : A :=
  match d !! k with Some v => v | None => default end.

(** [s.startswith(p)]. *)
Definition startswith (p s : string) : bool := String.prefix p s.

(** [needle in hay] for two strings. *)
Fixpoint contains (needle hay : string) : bool :=
  if String.prefix needle hay then true
  else match hay with
       | EmptyString => false
       | String _ rest => contains needle rest
       end.

(** [c.lower()] on one character: the letters [A] to [Z], and the capital
    letters of the Latin-1 range (U+00C0 to U+00DE without the sign U+00D7),
    move up by 32. *)
Definition lower_ascii (c : ascii) : ascii :=
  let n := nat_of_ascii c in
  if ((Nat.leb 65 n && Nat.leb n 90)
      || (Nat.leb 192 n && Nat.leb n 222 && negb (Nat.eqb n 215)))%bool
  then ascii_of_nat (n + 32) else c.

Fixpoint lower (s : string) : string :=
  match s with
  | EmptyString => EmptyString
  | String c rest => String (lower_ascii c) (lower rest)
  end.

(** [s * n] for a string and a count. *)
Fixpoint str_repeat (s : string) (n : nat) : string :=
  match n with
  | O => ""
  | S n' => String.append s (str_repeat s n')
  end.

(** Reverse of a string, used to accumulate the current part in [split]. *)
Fixpoint rev_onto (acc s : string) : string :=
  match s with
  | EmptyString => acc
  | String c rest => rev_onto (String c acc) rest
  end.

(** [s.split(sep)] for a non-empty separator: leftmost, non-overlapping
    occurrences. [skip] counts the bytes of a matched separator still to be
    dropped; [cur] is the current part, reversed. *)
Fixpoint split_aux (sep : string) (skip : nat) (cur : string) (s : string)
  : list string :=
  match s with
  | EmptyString => [rev_onto "" cur]
  | String c rest =>
      match skip with
      | S k => split_aux sep k cur rest
      | O =>
          if String.prefix sep s
          then rev_onto "" cur :: split_aux sep (Nat.pred (String.length sep)) "" rest
          else split_aux sep O (String c cur) rest
      end
  end.

Definition split (sep s : string) : list string := split_aux sep O "" s.

(** [range(n)]. *)
Definition range (n : nat) : list Z := map Z.of_nat (seq 0 n).

(** ** Floating-point numbers *)

(** The double nearest to the whole number [n], ties going to the even
    significand (IEEE 754 round-half-even on 53 bits). A double of magnitude
    [2^53] or more is a whole number, so the result is given in [Z]; below
    [2^53] every whole number is a double. *)
Definition round_double (n : Z) : Z :=
  let a := Z.abs n in
  let e := Z.log2 a - 52 in
  if Z.leb e 0 then n
  else
    let q := Z.shiftr a e in
    let r := a - Z.shiftl q e in
    let half := Z.shiftl 1 (e - 1) in
    let q' :=
      if Z.ltb half r then q + 1
      else if (Z.eqb r half && Z.odd q)%bool then q + 1
      else q in
    Z.sgn n * Z.shiftl q' e.

(** [float(n)] for an [int]: [None] is the [OverflowError] of a number no
    double can hold (from [2^1024 - 2^970] on). *)
Definition float_of_int (n : Z) : option Z :=
  let d := round_double n in
  if Z.ltb (Z.log2 (Z.abs d)) 1024 then Some d else None.

(** [t + n] for a [float] [t] with a whole value and a number [n]: [n] is
    converted, and the sum of the two doubles is rounded. [None] is the
    [OverflowError] of the conversion. (For [t] below [2^53] the sum stays
    within the doubles; it would be [inf] only beyond [2^970].) *)
Definition float_add (t n : Z) : option Z :=
  match float_of_int n with
  | Some d => Some (round_double (t + d))
  | None => None
  end.

End Py.
Import Py.

(* ===================================================================== *)
(** * [TokenManager]: credential store, refresh and device-code flow      *)
(* ===================================================================== *)

Module TokenManager.

Definition DEFAULT_CLIENT_ID : string := "9e5f94bc-e8a4-4e73-b8be-63364c29d753".
Definition TENANT : string := "organizations".
Definition SCOPES : string :=
  "https://outlook.office365.com/IMAP.AccessAsUser.All offline_access".
Definition TOKEN_EXPIRY_MARGIN : Z := 300.

Definition token_url : string :=
  "https://login.microsoftonline.com/organizations/oauth2/v2.0/token".
Definition devicecode_url : string :=
  "https://login.microsoftonline.com/organizations/oauth2/v2.0/devicecode".

(** What [cred_file] holds, as [json.loads(cred_file.read_text())] sees it:
    no file, a file whose read or parse raises [OSError]/[JSONDecodeError],
    or an object keyed by account whose values are credential objects. *)
Inductive cred_file : Type :=
| Missing
| Unparsable
| AllCreds (all_creds : gmap string (gmap string json)).

(** The instance attributes of a [TokenManager]. *)
Record token_manager : Type := {
  email_address : string;
  client_id : string;
  _creds : gmap string json
}.

Definition with_creds (self : token_manager) (c : gmap string json)
  : token_manager :=
  {| email_address := email_address self;
     client_id := client_id self;
     _creds := c |}.

(** Observable actions of the flows, in program order. *)
Inductive event : Type :=
| Sleep (seconds : Z)
| Post (url : string) (data : gmap string json).

(** The environment a method runs in: wall clock, credential file, and the
    actions performed so far. *)
Record world : Type := {
  clock : Z;
  file : cred_file;
  trace : list event
}.

Definition with_file (w : world) (f : cred_file) : world :=
  {| clock := clock w; file := f; trace := trace w |}.

(** What one [requests.post] call yields: a transport failure, or a response
    with its status code and the result of [Response.json()] ([None] when the
    body is not JSON). [latency] is the wall-clock time the call took. *)
Inductive http_result : Type :=
| ConnectionFailed
| Response (status : Z) (body : option json).

Record reply : Type := {
  latency : Z;
  result : http_result
}.

(** [time.sleep(seconds)]. *)
Definition sleep (seconds : Z) (w : world) : world :=
  {| clock := clock w + seconds; file := file w;
     trace := trace w ++ [Sleep seconds] |}.

(** The world after [requests.post(url, data=data)] was answered by [r]. *)
Definition post (url : string) (data : gmap string json) (r : reply)
  (w : world) : world :=
  {| clock := clock w + latency r; file := file w;
     trace := trace w ++ [Post url data] |}.

(** A request that no scripted reply answers never reaches the server. *)
Definition post_unanswered (url : string) (data : gmap string json)
  (w : world) : world :=
  {| clock := clock w; file := file w; trace := trace w ++ [Post url data] |}.

(** A value used as a number ([bool] is a subclass of [int]). *)
Definition as_num (v : json) : option Z :=
  match v with
  | JNum n => Some n
  | JBool b => Some (if b then 1 else 0)
  | _ => None
  end.

(** [v == s] for a string literal [s]. *)
Definition eq_str (v : json) (s : string) : bool :=
  match v with
  | JStr x => String.eqb x s
  | _ => false
  end.

(** [needle in v] for a string literal [needle]; [None] is [TypeError]. *)
Definition py_in (needle : string) (v : json) : option bool :=
  match v with
  | JStr s => Some (contains needle s)
  | JArr l => Some (existsb (fun x => eq_str x needle) l)
  | JObj m => Some (bool_decide (is_Some (m !! needle)))
  | _ => None
  end.

(** [raise_for_status()] raises for 4xx and 5xx. *)
Definition is_http_error (status : Z) : bool :=
  (Z.leb 400 status && Z.ltb status 600)%bool.

(** ** Persistence *)

Definition _load (email : string) (f : cred_file) : gmap string json :=
  match f with
  | AllCreds data => dict_get data email ∅
  | Unparsable => ∅
  | Missing => ∅
  end.

Definition init (email : string) (env_client_id : option string)
  (f : cred_file) : token_manager :=
  {| email_address := email;
     client_id := default DEFAULT_CLIENT_ID env_client_id;
     _creds := _load email f |}.

Definition _save (self : token_manager) (f : cred_file) : cred_file :=
  let all_creds :=
    match f with
    | AllCreds data => data
    | Unparsable => ∅
    | Missing => ∅
    end in
  AllCreds (<[email_address self := _creds self]> all_creds).

Definition clear (self : token_manager) (f : cred_file)
  : token_manager * cred_file :=
  let self' := with_creds self ∅ in
  match f with
  | Missing => (self', Missing)
  | Unparsable => (self', Missing)
  | AllCreds data =>
      let all_creds := delete (email_address self) data in
      if bool_decide (all_creds = ∅) then (self', Missing)
      else (self', AllCreds all_creds)
  end.

(** ** Auth type detection and basic auth *)

Definition auth_type (self : token_manager) : json :=
  dict_get (_creds self) "auth_type" JNull.

Definition has_saved_creds (self : token_manager) : bool :=
  truthy (dict_get (_creds self) "auth_type" JNull).

Definition get_basic_password (self : token_manager) : json :=
  if eq_str (auth_type self) "basic"
  then dict_get (_creds self) "password" JNull
  else JNull.

Definition save_basic (self : token_manager) (password : string)
  (f : cred_file) : token_manager * cred_file :=
  let self' :=
    with_creds self
      (<["auth_type" := JStr "basic"]> (<["password" := JStr password]> ∅)) in
  (self', _save self' f).

(** ** OAuth2 *)

(** The outcome of a method that talks to the network: its return value or
    exception, the instance and the world afterwards, and the replies not yet
    consumed. *)
Record run (A : Type) : Type := Run {
  value : outcome A;
  self_after : token_manager;
  world_after : world;
  script_after : list reply
}.
Arguments Run {A} _ _ _ _.
Arguments value {A} _.
Arguments self_after {A} _.
Arguments world_after {A} _.
Arguments script_after {A} _.

Definition refresh_data (self : token_manager) (refresh : json)
  : gmap string json :=
  <["client_id" := JStr (client_id self)]>
    (<["grant_type" := JStr "refresh_token"]>
       (<["refresh_token" := refresh]>
          (<["scope" := JStr SCOPES]> ∅))).

(** [_refresh_token]. The [try] block catches [requests.RequestException]:
    transport failures, the [HTTPError] of [raise_for_status()], and the
    [JSONDecodeError] of [resp.json()] (a [RequestException] in requests
    2.27 and later). [KeyError], [TypeError] and [OverflowError] are not
    caught. [expires_at] is the [float] sum [time.time() + expires_in]. *)
Definition _refresh_token (self : token_manager) (script : list reply)
  (w : world) : run json :=
  let refresh := dict_get (_creds self) "refresh_token" JNull in
  if negb (truthy refresh) then Run (Ret JNull) self w script
  else
    let data := refresh_data self refresh in
    match script with
    | [] => Run (Ret JNull) self (post_unanswered token_url data w) []
    | r :: script' =>
        let w1 := post token_url data r w in
        match result r with
        | ConnectionFailed => Run (Ret JNull) self w1 script'
        | Response status body =>
            if is_http_error status then Run (Ret JNull) self w1 script'
            else
              match body with
              | None => Run (Ret JNull) self w1 script'
              | Some (JObj token_data) =>
                  match token_data !! "access_token" with
                  | None => Run (Raise (KeyError "access_token")) self w1 script'
                  | Some access =>
                      let refresh' := dict_get token_data "refresh_token" refresh in
                      match as_num (dict_get token_data "expires_in" (JNum 3600)) with
                      | None => Run (Raise TypeError) self w1 script'
                      | Some expires_in =>
                          match float_add (clock w1) expires_in with
                          | None => Run (Raise OverflowError) self w1 script'
                          | Some expires_at =>
                              let self' :=
                                with_creds self
                                  (<["expires_at" := JNum expires_at]>
                                     (<["refresh_token" := refresh']>
                                        (<["access_token" := access]>
                                           (_creds self)))) in
                              Run (Ret access) self'
                                  (with_file w1 (_save self' (file w1))) script'
                          end
                      end
                  end
              | Some _ => Run (Raise TypeError) self w1 script'
              end
        end
    end.

(** [get_access_token]; Python's [None] is [JNull]. *)
Definition get_access_token (self : token_manager) (script : list reply)
  (w : world) : run json :=
  if negb (eq_str (auth_type self) "oauth2") then Run (Ret JNull) self w script
  else
    match as_num (dict_get (_creds self) "expires_at" (JNum 0)) with
    | None => Run (Raise TypeError) self w script
    | Some expires_at =>
        if Z.ltb (clock w) (expires_at - TOKEN_EXPIRY_MARGIN)
        then Run (Ret (dict_get (_creds self) "access_token" JNull)) self w script
        else _refresh_token self script w
    end.

Definition is_token_expired (self : token_manager) (w : world)
  : outcome bool :=
  if negb (eq_str (auth_type self) "oauth2") then Ret true
  else
    match as_num (dict_get (_creds self) "expires_at" (JNum 0)) with
    | None => Raise TypeError
    | Some expires_at =>
        Ret (Z.leb (expires_at - TOKEN_EXPIRY_MARGIN) (clock w))
    end.

Definition device_token_data (self : token_manager) (device_code : json)
  : gmap string json :=
  <["client_id" := JStr (client_id self)]>
    (<["grant_type" := JStr "urn:ietf:params:oauth:grant-type:device_code"]>
       (<["device_code" := device_code]> ∅)).

(** One classification of the token endpoint's answer inside the loop. *)
Inductive poll_step : Type :=
| Granted (access : json) (creds : gmap string json)
| Pending
| SlowDown
| Stop (e : exn).

(** The body of the [while] loop after [body = tr.json()]; [now] is the
    clock reading used for [expires_at], the [float] sum
    [time.time() + expires_in]. *)
Definition classify (now : Z) (body : json) : poll_step :=
  match body with
  | JObj b =>
      match b !! "access_token" with
      | Some access =>
          match as_num (dict_get b "expires_in" (JNum 3600)) with
          | None => Stop TypeError
          | Some expires_in =>
              match float_add now expires_in with
              | None => Stop OverflowError
              | Some expires_at =>
                  Granted access
                    (<["auth_type" := JStr "oauth2"]>
                       (<["access_token" := access]>
                          (<["refresh_token" := dict_get b "refresh_token" JNull]>
                             (<["expires_at" := JNum expires_at]> ∅))))
              end
          end
      | None =>
          let err := dict_get b "error" (JStr "") in
          if eq_str err "authorization_pending" then Pending
          else if eq_str err "slow_down" then SlowDown
          else
            match py_in "AADSTS65001" (dict_get b "error_description" (JStr "")) with
            | None => Stop TypeError
            | Some true => Stop (SystemExit ConsentRequired)
            | Some false => Stop RuntimeError
            end
      end
  | JStr s => if contains "access_token" s then Stop TypeError
              else Stop AttributeError
  | JArr l => if existsb (fun x => eq_str x "access_token") l
              then Stop TypeError else Stop AttributeError
  | _ => Stop TypeError
  end.

(** The polling loop of [run_device_code_flow] (the [while] statement and the
    [raise TimeoutError] after it). Every iteration consumes one scripted
    reply, so the recursion is on the script; a request that no reply answers
    fails like a transport error. *)
Fixpoint poll_loop (dc : gmap string json) (expires_at_poll : Z)
  (script : list reply) (interval : json) (self : token_manager) (w : world)
  {struct script} : run json :=
  if Z.ltb (clock w) expires_at_poll then
    match as_num interval with
    | None => Run (Raise TypeError) self w script
    | Some secs =>
        if Z.ltb secs 0 then Run (Raise ValueError) self w script
        else
          let w1 := sleep secs w in
          match dc !! "device_code" with
          | None => Run (Raise (KeyError "device_code")) self w1 script
          | Some device_code =>
              let data := device_token_data self device_code in
              match script with
              | [] => Run (Raise RequestException) self
                          (post_unanswered token_url data w1) []
              | r :: script' =>
                  let w2 := post token_url data r w1 in
                  match result r with
                  | ConnectionFailed => Run (Raise RequestException) self w2 script'
                  | Response _ None => Run (Raise JSONDecodeError) self w2 script'
                  | Response _ (Some body) =>
                      match classify (clock w2) body with
                      | Granted access creds =>
                          let self' := with_creds self creds in
                          Run (Ret access) self'
                              (with_file w2 (_save self' (file w2))) script'
                      | Pending =>
                          poll_loop dc expires_at_poll script' interval self w2
                      | SlowDown =>
                          poll_loop dc expires_at_poll script' (JNum (secs + 5))
                                    self w2
                      | Stop e => Run (Raise e) self w2 script'
                      end
                  end
              end
          end
    end
  else Run (Raise TimeoutError) self w script.

Definition devicecode_data (self : token_manager) : gmap string json :=
  <["client_id" := JStr (client_id self)]> (<["scope" := JStr SCOPES]> ∅).

(** [run_device_code_flow]: the device-code request, then the poll loop,
    which runs until the [float] sum [time.time() + expires_in]. *)
Definition run_device_code_flow (self : token_manager) (script : list reply)
  (w : world) : run json :=
  let data := devicecode_data self in
  match script with
  | [] => Run (Raise RequestException) self
              (post_unanswered devicecode_url data w) []
  | r :: script' =>
      let w1 := post devicecode_url data r w in
      match result r with
      | ConnectionFailed => Run (Raise RequestException) self w1 script'
      | Response status body =>
          if is_http_error status then Run (Raise RequestException) self w1 script'
          else
            match body with
            | None => Run (Raise JSONDecodeError) self w1 script'
            | Some (JObj dc) =>
                match dc !! "verification_uri", dc !! "user_code" with
                | None, _ => Run (Raise (KeyError "verification_uri")) self w1 script'
                | Some _, None => Run (Raise (KeyError "user_code")) self w1 script'
                | Some _, Some _ =>
                    let interval := dict_get dc "interval" (JNum 5) in
                    match as_num (dict_get dc "expires_in" (JNum 900)) with
                    | None => Run (Raise TypeError) self w1 script'
                    | Some expires_in =>
                        match float_add (clock w1) expires_in with
                        | None => Run (Raise OverflowError) self w1 script'
                        | Some expires_at_poll =>
                            poll_loop dc expires_at_poll script' interval
                                      self w1
                        end
                    end
                end
            | Some _ => Run (Raise TypeError) self w1 script'
            end
      end
  end.

(** ** Views used to state properties *)

(** The store as the program reads it: account to stored entry. A missing or
    unparsable file reads as the empty store. *)
Definition entries (f : cred_file) : gmap string (gmap string json) :=
  match f with
  | AllCreds data => data
  | Unparsable => ∅
  | Missing => ∅
  end.

(** A token request that failed: no answer, a transport failure, or an
    answer with a 4xx/5xx status (how an OAuth2 token endpoint reports an
    error). *)
Definition request_failed (script : list reply) : bool :=
  match script with
  | [] => true
  | r :: _ =>
      match result r with
      | ConnectionFailed => true
      | Response status _ => is_http_error status
      end
  end.

(** The number of sleep-then-poll cycles in a trace: a [Sleep] immediately
    followed by a [Post]. *)
Fixpoint cycles (tr : list event) : nat :=
  match tr with
  | [] => O
  | Sleep _ :: rest =>
      match rest with
      | Post _ _ :: _ => S (cycles rest)
      | _ => cycles rest
      end
  | Post _ _ :: rest => cycles rest
  end.


Definition slow_down_body : json :=
  JObj (<["error" := JStr "slow_down"]> ∅).

Definition success_body (access : json) : json :=
  JObj (<["access_token" := access]> ∅).

Definition answered (lat : Z) (body : json) : reply :=
  {| latency := lat; result := Response 200 (Some body) |}.


Definition is_slow_down (r : reply) : Prop :=
  ∃ status b,
    result r = Response status (Some (JObj b))
    ∧ b !! "access_token" = None
    ∧ b !! "error" = Some (JStr "slow_down").

Definition is_success (r : reply) (access : json) : Prop :=
  ∃ status b,
    result r = Response status (Some (JObj b))
    ∧ b !! "access_token" = Some access
    ∧ ∃ expires_in,
        as_num (dict_get b "expires_in" (JNum 3600)) = Some expires_in
        ∧ is_Some (float_of_int expires_in).

End TokenManager.

(* ===================================================================== *)
(** * Base64 (library model)                                              *)
(* ===================================================================== *)

(** [base64.b64decode] belongs to the Python standard library, not to this
    repository. It is modelled on [binascii.a2b_base64] in its default,
    non-strict mode; [b64encode] is the RFC 4648 encoder with the standard
    alphabet and [=] padding, and defines what a valid encoding is. *)
Module Base64.

Definition code (c : ascii) : Z := Z.of_N (N_of_ascii c).
Definition chr (n : Z) : ascii := ascii_of_N (Z.to_N n).

(** The standard alphabet: value [0..63] to character code. *)
Definition table_b2a (v : Z) : Z :=
  if Z.ltb v 26 then v + 65
  else if Z.ltb v 52 then v + 71
  else if Z.ltb v 62 then v - 4
  else if Z.eqb v 62 then 43
  else 47.

(** Character code to value; [None] for a code outside the alphabet. *)
Definition table_a2b (n : Z) : option Z :=
  if (Z.leb 65 n && Z.leb n 90)%bool then Some (n - 65)
  else if (Z.leb 97 n && Z.leb n 122)%bool then Some (n - 71)
  else if (Z.leb 48 n && Z.leb n 57)%bool then Some (n + 4)
  else if Z.eqb n 43 then Some 62
  else if Z.eqb n 47 then Some 63
  else None.

Definition BASE64_PAD : Z := 61.

(** The four characters encoding three bytes. *)
Definition enc3 (a b c : Z) (rest : string) : string :=
  String (chr (table_b2a (Z.shiftr a 2)))
    (String (chr (table_b2a (Z.lor (Z.shiftl (Z.land a 3) 4) (Z.shiftr b 4))))
       (String (chr (table_b2a (Z.lor (Z.shiftl (Z.land b 15) 2) (Z.shiftr c 6))))
          (String (chr (table_b2a (Z.land c 63))) rest))).

Definition enc2 (a b : Z) : string :=
  String (chr (table_b2a (Z.shiftr a 2)))
    (String (chr (table_b2a (Z.lor (Z.shiftl (Z.land a 3) 4) (Z.shiftr b 4))))
       (String (chr (table_b2a (Z.shiftl (Z.land b 15) 2)))
          (String (chr BASE64_PAD) EmptyString))).

Definition enc1 (a : Z) : string :=
  String (chr (table_b2a (Z.shiftr a 2)))
    (String (chr (table_b2a (Z.shiftl (Z.land a 3) 4)))
       (String (chr BASE64_PAD) (String (chr BASE64_PAD) EmptyString))).

Fixpoint b64encode (payload : string) : string :=
  match payload with
  | EmptyString => EmptyString
  | String a EmptyString => enc1 (code a)
  | String a (String b EmptyString) => enc2 (code a) (code b)
  | String a (String b (String c rest)) =>
      enc3 (code a) (code b) (code c) (b64encode rest)
  end.

(** Decoder state: position in the current quad, the bits left over from the
    previous character, the pad characters seen since the last data
    character, and the bytes produced so far (latest first). *)
Record a2b_state : Type := {
  quad_pos : Z;
  leftchar : Z;
  pads : Z;
  bin_data : string
}.

Definition a2b_init : a2b_state :=
  {| quad_pos := 0; leftchar := 0; pads := 0; bin_data := EmptyString |}.

(** One data character of value [this_ch]. *)
Definition a2b_data (this_ch : Z) (st : a2b_state) : a2b_state :=
  if Z.eqb (quad_pos st) 0 then
    {| quad_pos := 1; leftchar := this_ch; pads := 0; bin_data := bin_data st |}
  else if Z.eqb (quad_pos st) 1 then
    {| quad_pos := 2; leftchar := Z.land this_ch 15; pads := 0;
       bin_data :=
         String (chr (Z.lor (Z.shiftl (leftchar st) 2) (Z.shiftr this_ch 4)))
                (bin_data st) |}
  else if Z.eqb (quad_pos st) 2 then
    {| quad_pos := 3; leftchar := Z.land this_ch 3; pads := 0;
       bin_data :=
         String (chr (Z.lor (Z.shiftl (leftchar st) 4) (Z.shiftr this_ch 2)))
                (bin_data st) |}
  else
    {| quad_pos := 0; leftchar := 0; pads := 0;
       bin_data :=
         String (chr (Z.lor (Z.shiftl (leftchar st) 6) this_ch)) (bin_data st) |}.

(** The scan: a pad sequence that completes the quad ends the input, other
    pads and characters outside the alphabet are skipped, and input that ends
    inside a quad is an error ([None], [binascii.Error]). *)
Fixpoint a2b_loop (ascii_data : string) (st : a2b_state) : option string :=
  match ascii_data with
  | EmptyString =>
      if Z.eqb (quad_pos st) 0 then Some (rev_onto "" (bin_data st)) else None
  | String c rest =>
      if Z.eqb (code c) BASE64_PAD then
        if Z.leb 2 (quad_pos st) then
          if Z.leb 4 (quad_pos st + (pads st + 1))
          then Some (rev_onto "" (bin_data st))
          else a2b_loop rest
                 {| quad_pos := quad_pos st; leftchar := leftchar st;
                    pads := pads st + 1; bin_data := bin_data st |}
        else a2b_loop rest st
      else
        match table_a2b (code c) with
        | None => a2b_loop rest st
        | Some this_ch => a2b_loop rest (a2b_data this_ch st)
        end
  end.

Definition b64decode (s : string) : option string := a2b_loop s a2b_init.

(** ** Checks over all byte values, used to state properties *)

(** The sextets cut from three bytes. *)
Definition sextet1 (a : Z) : Z := Z.shiftr a 2.
Definition sextet2 (a b : Z) : Z := Z.lor (Z.shiftl (Z.land a 3) 4) (Z.shiftr b 4).
Definition sextet3 (b c : Z) : Z := Z.lor (Z.shiftl (Z.land b 15) 2) (Z.shiftr c 6).
Definition sextet4 (c : Z) : Z := Z.land c 63.

Definition is_sextet (v : Z) : bool := (Z.leb 0 v && Z.ltb v 64)%bool.

(** The alphabet character of [v] is not the pad and decodes to [v]. *)
Definition check_table (v : Z) : bool :=
  (negb (Z.eqb (code (chr (table_b2a v))) BASE64_PAD)
   && match table_a2b (code (chr (table_b2a v))) with
      | Some x => Z.eqb x v
      | None => false
      end)%bool.

(** The first two sextets give back the first byte and leave the high half
    of the second. *)
Definition check_first (a b : Z) : bool :=
  (is_sextet (sextet1 a) && is_sextet (sextet2 a b)
   && Z.eqb (Z.lor (Z.shiftl (sextet1 a) 2) (Z.shiftr (sextet2 a b) 4)) a
   && Z.eqb (Z.land (sextet2 a b) 15) (Z.shiftr b 4)
   && Z.eqb (sextet2 a 0) (Z.shiftl (Z.land a 3) 4))%bool.

(** The last two sextets give back the second and third bytes. *)
Definition check_last (b c : Z) : bool :=
  (is_sextet (sextet3 b c) && is_sextet (sextet4 c)
   && Z.eqb (Z.lor (Z.shiftl (Z.shiftr b 4) 4) (Z.shiftr (sextet3 b c) 2)) b
   && Z.eqb (Z.lor (Z.shiftl (Z.land (sextet3 b c) 3) 6) (sextet4 c)) c
   && Z.eqb (sextet3 b 0) (Z.shiftl (Z.land b 15) 2))%bool.

End Base64.

(* ===================================================================== *)
(** * [FormParser]                                                        *)
(* ===================================================================== *)

Module FormParser.

(** The attribute list [HTMLParser] hands to [handle_starttag]: names are
    lower-cased, a value is [None] for an attribute written without one. *)
Definition attrs : Type := list (string * option string).

(** A start tag (or an empty-element tag, which [HTMLParser] reports through
    [handle_starttag] as well). *)
Definition starttag : Type := (string * attrs)%type.

Record form_parser : Type := {
  action : option string;
  fields : gmap string (option string)
}.

(** [__init__]. *)
Definition init : form_parser := {| action := None; fields := ∅ |}.

(** [dict(attrs)]: a repeated name keeps its last value. *)
Definition dict_of_attrs (a : attrs) : gmap string (option string) :=
  fold_left (fun d kv => <[fst kv := snd kv]> d) a ∅.

(** The first [if] of [handle_starttag]. [d.get("method", "").lower()] raises
    [AttributeError] when [method] was written without a value. *)
Definition handle_form (self : form_parser) (tag : string)
  (d : gmap string (option string)) : outcome form_parser :=
  if String.eqb tag "form" then
    match dict_get d "method" (Some "") with
    | None => Raise AttributeError
    | Some m =>
        if String.eqb (lower m) "post"
        then Ret {| action := dict_get d "action" (Some "");
                    fields := fields self |}
        else Ret self
    end
  else Ret self.

(** The second [if] of [handle_starttag]. *)
Definition handle_input (self : form_parser) (tag : string)
  (d : gmap string (option string)) : form_parser :=
  if (String.eqb tag "input"
      && bool_decide (d !! "type" = Some (Some "hidden")))%bool then
    let name := dict_get d "name" (Some "") in
    let val := dict_get d "value" (Some "") in
    match name with
    | Some n =>
        if String.eqb n "" then self
        else {| action := action self; fields := <[n := val]> (fields self) |}
    | None => self
    end
  else self.

Definition handle_starttag (self : form_parser) (tag : string) (a : attrs)
  : outcome form_parser :=
  let d := dict_of_attrs a in
  match handle_form self tag d with
  | Raise e => Raise e
  | Ret self1 => Ret (handle_input self1 tag d)
  end.

(** The calls [feed] makes on this class: [handle_starttag] on every start
    tag the parser reports, in document order; the other [HTMLParser]
    callbacks are not overridden. *)
Fixpoint feed (self : form_parser) (tags : list starttag)
  : outcome form_parser :=
  match tags with
  | [] => Ret self
  | (tag, a) :: rest =>
      match handle_starttag self tag a with
      | Raise e => Raise e
      | Ret self1 => feed self1 rest
      end
  end.

(** What [HTMLParser] does with a page: the start tags it reports, in
    document order, and the exception it raises itself, if any, once these
    are handled ([AssertionError] at a marked section it does not know, such
    as [<![foo bar]>]; the tags after that point are not reported). *)
Record parsing : Type := {
  reported : list starttag;
  parser_error : option exn
}.

(** [feed] on a page: the reported start tags are handled, then the parser's
    own failure, if any, is raised. *)
Definition feed_page (self : form_parser) (p : parsing)
  : outcome form_parser :=
  match feed self (reported p) with
  | Raise e => Raise e
  | Ret self1 =>
      match parser_error p with
      | Some e => Raise e
      | None => Ret self1
      end
  end.

(** ** Views used to state properties *)

(** A start tag that opens a POST form, and the action it carries. *)
Definition is_post_form (t : starttag) : bool :=
  (String.eqb (fst t) "form"
   && match dict_get (dict_of_attrs (snd t)) "method" (Some "") with
      | Some m => String.eqb (lower m) "post"
      | None => false
      end)%bool.

Definition form_action (t : starttag) : option string :=
  dict_get (dict_of_attrs (snd t)) "action" (Some "").

(** Start tags none of which opens a form: the content of one form. *)
Definition no_form (tags : list starttag) : Prop :=
  Forall (fun t => fst t ≠ "form") tags.

(** A hidden input element. *)
Definition hidden_input (name value : string) : starttag :=
  ("input", [("type", Some "hidden"); ("name", Some name);
             ("value", Some value)]).

Definition post_form (act : string) : starttag :=
  ("form", [("method", Some "post"); ("action", Some act)]).

End FormParser.

(* ===================================================================== *)
(** * [refresh_token]: the scripted SAML2 single sign-on flow             *)
(* ===================================================================== *)

Module SSO.

Definition MOODLE_URL : string := "https://qmplus.qmul.ac.uk".
Definition SAML_IDP : string := "4eb950c6f0e1110dc8e14b5cf41532d7".
Definition MS_BASE : string := "https://login.microsoftonline.com".

(** ** The HTTP session *)

Inductive body : Type :=
| NoData
| FormData (data : gmap string json)
| JsonData (data : gmap string json).

Record request : Type := {
  verb : string;
  target : string;
  payload : body;
  allow_redirects : bool
}.

(** What the flow reads of a [requests.Response]: the final URL, the body
    text, the status code, the [Location] header and the result of
    [Response.json()] ([None] when the body is not JSON). *)
Record response : Type := {
  url : string;
  text : string;
  status_code : Z;
  location : option string;
  json_body : option json
}.

(** The [requests.Session] together with the servers behind it: the answers
    the next requests will get, in order ([None] is a transport failure), and
    the requests issued so far. Cookies live inside the scripted answers. *)
Record session : Type := {
  script : list (option response);
  sent : list request
}.

(** Computations over the session that may raise. *)
Definition M (A : Type) : Type := session -> outcome A * session.

Definition ret {A} (a : A) : M A := fun s => (Ret a, s).
Definition raise {A} (e : exn) : M A := fun s => (Raise e, s).
Definition bind {A B} (c : M A) (k : A -> M B) : M B :=
  fun s => match c s with
           | (Ret a, s') => k a s'
           | (Raise e, s') => (Raise e, s')
           end.

Notation "x <- c ;; k" := (bind c (fun x => k))
  (at level 100, c at next level, right associativity).

(** [err(msg)]: print to stderr and [sys.exit(1)]. *)
Definition err {A} (site : failure) : M A := raise (SystemExit site).

(** [s.get] / [s.post]: the request is recorded and the next scripted answer
    comes back; no answer, or a [None] answer, is a transport failure. *)
Definition send (req : request) : M response :=
  fun s =>
    let sent' := (sent s ++ [req])%list in
    match script s with
    | [] => (Raise RequestException, {| script := []; sent := sent' |})
    | None :: rest =>
        (Raise RequestException, {| script := rest; sent := sent' |})
    | Some r :: rest => (Ret r, {| script := rest; sent := sent' |})
    end.

Definition lift {A} (o : outcome A) : M A := fun s => (o, s).

(** ** Operations on loosely typed values *)

(** [v[k]]. *)
Definition getitem (v : json) (k : string) : outcome json :=
  match v with
  | JObj m => match m !! k with
              | Some x => Ret x
              | None => Raise (KeyError k)
              end
  | _ => Raise TypeError
  end.

(** [v.get(k, default)]. *)
Definition get (v : json) (k : string) (default : json) : outcome json :=
  match v with
  | JObj m => Ret (dict_get m k default)
  | _ => Raise AttributeError
  end.

(** ** Page-fact extraction *)

(** [\s] of a [str] pattern: the characters [str.isspace] accepts. Below
    256 these are U+0009 to U+000D, U+001C to U+0020, U+0085 and U+00A0. *)
Definition is_space (c : ascii) : bool :=
  let n := nat_of_ascii c in
  ((Nat.leb 9 n && Nat.leb n 13) || (Nat.leb 28 n && Nat.leb n 32)
   || Nat.eqb n 133 || Nat.eqb n 160)%bool.

Fixpoint skip_space (s : string) : string :=
  match s with
  | String c rest => if is_space c then skip_space rest else s
  | EmptyString => EmptyString
  end.

Fixpoint drop (n : nat) (s : string) : string :=
  match n, s with
  | S k, String _ rest => drop k rest
  | _, _ => s
  end.

(** The text before the first ["};"], if there is one. *)
Fixpoint until_close (s : string) : option string :=
  match s with
  | EmptyString => None
  | String c rest =>
      if String.prefix "};" s then Some EmptyString
      else option_map (String c) (until_close rest)
  end.

(** A match of [\$Config\s*=\s*({.*?});] at the start of [s]: group 1. *)
Definition match_config (s : string) : option string :=
  if String.prefix "$Config" s then
    match skip_space (drop 7 s) with
    | String "=" s1 =>
        match skip_space s1 with
        | String "{" s2 =>
            option_map (fun inner => String "{" (String.append inner "}"))
                       (until_close s2)
        | _ => None
        end
    | _ => None
    end
  else None.

(** [re.search(r"\$Config\s*=\s*({.*?});", s, re.DOTALL)]: group 1 of the
    leftmost match. *)
Fixpoint search_config (s : string) : option string :=
  match match_config s with
  | Some g => Some g
  | None => match s with
            | EmptyString => None
            | String _ rest => search_config rest
            end
  end.

(** The class [[A-Za-z0-9+/=_-]]. *)
Definition is_token_char (c : ascii) : bool :=
  let n := nat_of_ascii c in
  ((Nat.leb 65 n && Nat.leb n 90) || (Nat.leb 97 n && Nat.leb n 122)
   || (Nat.leb 48 n && Nat.leb n 57)
   || Nat.eqb n 43 || Nat.eqb n 47 || Nat.eqb n 61 || Nat.eqb n 95
   || Nat.eqb n 45)%bool.

Fixpoint take_while (p : ascii -> bool) (s : string) : string :=
  match s with
  | String c rest => if p c then String c (take_while p rest) else EmptyString
  | EmptyString => EmptyString
  end.

(** [re.search(r"token=([A-Za-z0-9+/=_-]+)", s)]: group 1 of the leftmost
    match. *)
Fixpoint search_token (s : string) : option string :=
  let here :=
    if String.prefix "token=" s then
      match take_while is_token_char (drop 6 s) with
      | EmptyString => None
      | g => Some g
      end
    else None in
  match here with
  | Some g => Some g
  | None => match s with
            | EmptyString => None
            | String _ rest => search_token rest
            end
  end.

(** ** Token recovery *)

(** "Fix base64 padding". *)
Definition restore_padding (raw : string) : string :=
  let padding := 4 - Z.of_nat (String.length raw) mod 4 in
  if Z.eqb padding 4 then raw
  else String.append raw (str_repeat "=" (Z.to_nat padding)).

(** The split of the decoded text and the choice of its second part. *)
Definition token_of_decoded (decoded : string) : M string :=
  let parts := split ":::" decoded in
  if Nat.ltb (List.length parts) 2 then err MalformedToken
  else ret (nth 1 parts EmptyString).

(** ** The flow *)

Definition login_url : string :=
  "https://qmplus.qmul.ac.uk/auth/saml2/login.php?wants&idp=4eb950c6f0e1110dc8e14b5cf41532d7&passive=off".
Definition credential_type_url : string :=
  "https://login.microsoftonline.com/common/GetCredentialType?mkt=en-US".
Definition launch_url : string :=
  "https://qmplus.qmul.ac.uk/admin/tool/mobile/launch.php".

Definition http_get (u : string) : request :=
  {| verb := "GET"; target := u; payload := NoData; allow_redirects := true |}.

Definition http_post (u : string) (b : body) (redirects : bool) : request :=
  {| verb := "POST"; target := u; payload := b; allow_redirects := redirects |}.

Definition credential_type_json (username : string) (flow_token : json)
  : gmap string json :=
  <["username" := JStr username]>
    (<["flowToken" := flow_token]>
       (<["isOtherIdpSupported" := JBool true]>
          (<["checkPhones" := JBool false]> ∅))).

Definition password_form (username password : string)
  (canary ctx flow_token : json) : gmap string json :=
  <["login" := JStr username]>
    (<["loginfmt" := JStr username]>
       (<["passwd" := JStr password]>
          (<["type" := JStr "11"]>
             (<["LoginOptions" := JStr "3"]>
                (<["canary" := canary]>
                   (<["ctx" := ctx]>
                      (<["flowToken" := flow_token]>
                         (<["NewUser" := JStr "1"]>
                            (<["fspost" := JStr "0"]>
                               (<["i13" := JStr "0"]>
                                  (<["ps" := JStr "2"]>
                                     (<["i19" := JStr "16369"]> ∅)))))))))))).

Definition kmsi_form (ctx flow_token canary : json) : gmap string json :=
  <["LoginOptions" := JStr "1"]>
    (<["type" := JStr "28"]>
       (<["ctx" := ctx]>
          (<["flowToken" := flow_token]>
             (<["canary" := canary]>
                (<["i19" := JStr "2048"]> ∅))))).

Definition launch_form : gmap string json :=
  <["service" := JStr "moodle_mobile_app"]>
    (<["passport" := JStr "12345"]>
       (<["urlscheme" := JStr "moodlemobile"]> ∅)).

(** The hidden fields as form data; a value-less [value] attribute is
    [None]. *)
Definition fields_data (fields : gmap string (option string))
  : gmap string json :=
  (fun v => match v with Some s => JStr s | None => JNull end) <$> fields.

Section Flow.

(** Library functions the flow calls, outside this repository:
    [json.loads] ([None] when it raises), [urllib.parse.urljoin], what
    [html.parser.HTMLParser] does while fed a page (the start tags it
    reports and its own failure), and [bytes.decode(errors="replace")]. *)
Variable json_loads : string -> option json.
Variable urljoin : string -> string -> string.
Variable html_starttags : string -> FormParser.parsing.
Variable decode_replace : string -> string.

Definition loads (blob : string) : M json :=
  match json_loads blob with
  | Some v => ret v
  | None => raise JSONDecodeError
  end.

(** [u if u.startswith("http") else urljoin(base, u)]. *)
Definition resolve (base : string) (u : json) : M string :=
  match u with
  | JStr s => if startswith "http" s then ret s else ret (urljoin base s)
  | _ => raise AttributeError
  end.

(** Step 5: the "Stay signed in?" interrupt. Returns the current page and
    URL. *)
Definition stay_signed_in (r3 : response) : M (string * string) :=
  let page := text r3 in
  if (contains "KmsiInterrupt" page || contains "StaySignedIn" page)%bool then
    match search_config page with
    | Some blob =>
        c2 <- loads blob ;;
        url_post <- lift (get c2 "urlPost" (JStr "")) ;;
        post_url2 <- resolve (String.append MS_BASE "/") url_post ;;
        ctx <- lift (get c2 "sCtx" (JStr "")) ;;
        flow_token <- lift (get c2 "sFT" (JStr "")) ;;
        canary <- lift (get c2 "canary" (JStr "")) ;;
        r4 <- send (http_post post_url2
                      (FormData (kmsi_form ctx flow_token canary)) true) ;;
        ret (text r4, url r4)
    | None => ret (page, url r3)
    end
  else ret (page, url r3).

(** Step 6: the SAML response form. Returns the current page and URL. *)
Definition saml_post (page current_url : string) : M (string * string) :=
  if contains "SAMLResponse" page then
    fp <- lift (FormParser.feed_page FormParser.init (html_starttags page)) ;;
    match FormParser.action fp with
    | Some act =>
        if (negb (String.eqb act "")
            && bool_decide (is_Some (FormParser.fields fp !! "SAMLResponse")))%bool
        then
          let target :=
            if startswith "http" act then act else urljoin current_url act in
          r5 <- send (http_post target
                        (FormData (fields_data (FormParser.fields fp))) true) ;;
          ret (text r5, url r5)
        else ret (page, current_url)
    | None => ret (page, current_url)
    end
  else ret (page, current_url).

(** Step 7: the mobile-launch exchange and the recovery of the token. *)
Definition launch : M string :=
  r6 <- send (http_post launch_url (FormData launch_form) false) ;;
  if negb (Z.eqb (status_code r6) 301 || Z.eqb (status_code r6) 302
           || Z.eqb (status_code r6) 303)%bool
  then err UnexpectedResponse
  else
    let loc := default EmptyString (location r6) in
    match search_token loc with
    | None => err NoTokenInRedirect
    | Some raw =>
        match Base64.b64decode (restore_padding raw) with
        | None => raise ValueError
        | Some bytes => token_of_decoded (decode_replace bytes)
        end
    end.

(** The check on the current URL after step 6, and what follows it. *)
Definition reentry_checkpoint (current_url : string) : M string :=
  if negb (contains "qmplus.qmul.ac.uk" current_url) then err SSOIncomplete
  else launch.

Definition refresh_token (username password : string) : M string :=
  r <- send (http_get login_url) ;;
  if negb (contains "login.microsoftonline.com" (url r))
  then err ProtocolMismatch
  else
    match search_config (text r) with
    | None => err ParseError
    | Some blob =>
        config <- loads blob ;;
        sFT <- lift (getitem config "sFT") ;;
        r2 <- send (http_post credential_type_url
                      (JsonData (credential_type_json username sFT)) true) ;;
        match json_body r2 with
        | None => raise JSONDecodeError
        | Some cred =>
            credentials <- lift (get cred "Credentials" (JObj ∅)) ;;
            fed_url <- lift (get credentials "FederationRedirectUrl" (JStr "")) ;;
            if truthy fed_url then err FederationNotSupported
            else
              flow_token <- lift (get cred "FlowToken" sFT) ;;
              url_post <- lift (get config "urlPost" (JStr "")) ;;
              post_url <- resolve (String.append MS_BASE "/") url_post ;;
              canary <- lift (get config "canary" (JStr "")) ;;
              ctx <- lift (get config "sCtx" (JStr "")) ;;
              r3 <- send (http_post post_url
                            (FormData (password_form username password
                                         canary ctx flow_token)) true) ;;
              if contains "AADSTS" (text r3) then err AuthFailed
              else
                pu <- stay_signed_in r3 ;;
                pu' <- saml_post (fst pu) (snd pu) ;;
                reentry_checkpoint (snd pu')
        end
    end.

(** ** Views used to state properties *)

(** The login page let the flow reach the credential-type request: the URL
    passed the first check and the page configuration with its flow token
    was read. *)
Definition login_page_ok (r : response) : Prop :=
  contains "login.microsoftonline.com" (url r) = true
  ∧ ∃ blob config,
      search_config (text r) = Some blob
      ∧ json_loads blob = Some (JObj config)
      ∧ is_Some (config !! "sFT").

(** The credential-type answer carries the field [FederationRedirectUrl]
    inside [Credentials], with value [fed_url]. *)
Definition federation_redirect (r2 : response) (fed_url : json) : Prop :=
  ∃ cred credentials,
    json_body r2 = Some (JObj cred)
    ∧ cred !! "Credentials" = Some (JObj credentials)
    ∧ credentials !! "FederationRedirectUrl" = Some fed_url.

End Flow.

(** A request that carries a password field. *)
Definition carries_password (req : request) : bool :=
  match payload req with
  | FormData data => bool_decide (is_Some (data !! "passwd"))
  | JsonData data => bool_decide (is_Some (data !! "passwd"))
  | NoData => false
  end.

(** A text without the character [:], such as a passport or a token. *)
Fixpoint no_colon (s : string) : bool :=
  match s with
  | EmptyString => true
  | String c rest => (negb (Ascii.eqb c ":") && no_colon rest)%bool
  end.

(** The host of an absolute URL: what follows ["://"] up to the first of
    [/], [?], [#] and [:]. The flow itself never computes it; it is the
    notion of host the checkpoints are compared with. *)
Definition is_host_end (c : ascii) : bool :=
  let n := nat_of_ascii c in
  (Nat.eqb n 47 || Nat.eqb n 63 || Nat.eqb n 35 || Nat.eqb n 58)%bool.

Fixpoint after_scheme (u : string) : string :=
  match u with
  | EmptyString => EmptyString
  | String _ rest =>
      if String.prefix "://" u then drop 3 u else after_scheme rest
  end.

Definition url_host (u : string) : string :=
  take_while (fun c => negb (is_host_end c)) (after_scheme u).

End SSO.

(* ===================================================================== *)
(** * Shapes of traces, used to state properties of the poll loop         *)
(* ===================================================================== *)

Module PollViews.
Import TokenManager.

(** The trace of complete sleep-then-poll cycles: for every sleep of the
    list, in order, that sleep and then the request [poll]. *)
Fixpoint cycles_of (poll : event) (sleeps : list Z) : list event :=
  match sleeps with
  | [] => []
  | secs :: rest => Sleep secs :: poll :: cycles_of poll rest
  end.


End PollViews.

(* ===================================================================== *)
(** * Views of a tag sequence, used to state properties of [FormParser]   *)
(* ===================================================================== *)

Module FormViews.
Import FormParser.

(** A form tag whose [method] attribute is written without a value. *)
Definition method_without_value (t : starttag) : bool :=
  (String.eqb (fst t) "form"
   && bool_decide (dict_of_attrs (snd t) !! "method" = Some None))%bool.

(** The name and value a tag contributes to the hidden fields: those of an
    [input] with [type="hidden"] and a non-empty name. *)
Definition hidden_field (t : starttag) : option (string * option string) :=
  let d := dict_of_attrs (snd t) in
  if (String.eqb (fst t) "input"
      && bool_decide (d !! "type" = Some (Some "hidden")))%bool then
    match dict_get d "name" (Some "") with
    | Some n => if String.eqb n "" then None
                else Some (n, dict_get d "value" (Some ""))
    | None => None
    end
  else None.

(** The action of the last POST form of a tag sequence; [current] when there
    is none. *)
Fixpoint last_post_action (tags : list starttag) (current : option string)
  : option string :=
  match tags with
  | [] => current
  | t :: rest =>
      last_post_action rest (if is_post_form t then form_action t else current)
  end.

End FormViews.

(* ===================================================================== *)
(** * Views of a run of the flow, used to state its properties            *)
(* ===================================================================== *)

Module FlowViews.
Import SSO.

(** Every character of [s] satisfies [p]. *)
Fixpoint all_chars (p : ascii → bool) (s : string) : bool :=
  match s with
  | EmptyString => true
  | String c rest => (p c && all_chars p rest)%bool
  end.

(** [s] starts with a character of the token class. *)
Definition starts_with_token_char (s : string) : bool :=
  match s with
  | EmptyString => false
  | String c _ => is_token_char c
  end.

(** The login page and the credential-type answer let the flow reach the
    password submission: the first URL check passes, the page configuration
    is read and has a flow token and (if any) a textual [urlPost], and the
    credential-type answer is an object without truthy federation
    redirect. *)
Definition ready_for_password (json_loads : string → option json)
  (r r2 : response) (config cred : gmap string json) (post_path : string)
  : Prop :=
  contains "login.microsoftonline.com" (url r) = true
  ∧ (∃ blob, search_config (text r) = Some blob
             ∧ json_loads blob = Some (JObj config))
  ∧ is_Some (config !! "sFT")
  ∧ dict_get config "urlPost" (JStr "") = JStr post_path
  ∧ json_body r2 = Some (JObj cred)
  ∧ (∃ credentials,
       dict_get cred "Credentials" (JObj ∅) = JObj credentials
       ∧ truthy (dict_get credentials "FederationRedirectUrl" (JStr ""))
         = false).

(** The three requests issued up to the password submission. *)
Definition sign_in_requests (urljoin : string → string → string)
  (username password : string) (config cred : gmap string json)
  (post_path : string) : list request :=
  [http_get login_url;
   http_post credential_type_url
     (JsonData (credential_type_json username
                  (dict_get config "sFT" JNull))) true;
   http_post
     (if startswith "http" post_path then post_path
      else urljoin (String.append MS_BASE "/") post_path)
     (FormData
        (password_form username password
           (dict_get config "canary" (JStr ""))
           (dict_get config "sCtx" (JStr ""))
           (dict_get cred "FlowToken" (dict_get config "sFT" JNull)))) true].

(** What the flow does with the answer to the password submission. *)
Definition after_password (json_loads : string → option json)
  (urljoin : string → string → string)
  (html_starttags : string → FormParser.parsing)
  (decode_replace : string → string) (r3 : response) : M string :=
  if contains "AADSTS" (text r3) then err AuthFailed
  else
    bind (stay_signed_in json_loads urljoin r3) (fun pu =>
    bind (saml_post urljoin html_starttags (fst pu) (snd pu)) (fun pu' =>
    reentry_checkpoint decode_replace (snd pu'))).

End FlowViews.

(* ===================================================================== *)
(** * [moodle_client.py]: the web-service client and its token cache      *)
(* ===================================================================== *)

Module MoodleClient.

Definition MOODLE_URL : string := "https://qmplus.qmul.ac.uk".
Definition SERVICE : string := "moodle_mobile_app".
Definition rest_url : string :=
  "https://qmplus.qmul.ac.uk/webservice/rest/server.php".
Definition token_url : string := "https://qmplus.qmul.ac.uk/login/token.php".

(** The [data] argument of [requests.post]: a dictionary, or a list of
    pairs (PHP-style array parameters). *)
Inductive form : Type :=
| DictForm (data : gmap string json)
| ListForm (data : list (string * json)).

Record posted : Type := {
  to : string;
  form_data : form
}.

(** What leaves the functions of this file: [MoodleError] with the error
    code and message it was built from, [sys.exit(1)], or another Python
    exception. *)
Inductive error : Type :=
| MoodleError (errorcode message : json)
| Exit
| PyError (e : exn).

Inductive result (A : Type) : Type :=
| Ok (a : A)
| Err (e : error).
Arguments Ok {A} a.
Arguments Err {A} e.

(** What [TOKEN_PATH] holds: no file, a file that does not parse, or a JSON
    document. *)
Inductive token_file : Type :=
| NoFile
| NotJson
| Saved (data : json).

(** The environment: wall clock, token file, the answers the next requests
    will get, and the requests made so far. *)
Record world : Type := {
  now : Z;
  file : token_file;
  answers : list TokenManager.reply;
  requests : list posted
}.

(** [requests.post(url, data=f)], then [raise_for_status()] and [json()]:
    the parsed answer, or the exception of the first step that fails. *)
Definition post_json (url : string) (f : form) (w : world)
  : result json * world :=
  let logged := (requests w ++ [{| to := url; form_data := f |}])%list in
  match answers w with
  | [] =>
      (Err (PyError RequestException),
       {| now := now w; file := file w; answers := []; requests := logged |})
  | r :: rest =>
      let w' := {| now := now w + TokenManager.latency r; file := file w;
                   answers := rest; requests := logged |} in
      match TokenManager.result r with
      | TokenManager.ConnectionFailed => (Err (PyError RequestException), w')
      | TokenManager.Response status body =>
          if TokenManager.is_http_error status
          then (Err (PyError RequestException), w')
          else match body with
               | None => (Err (PyError JSONDecodeError), w')
               | Some data => (Ok data, w')
               end
      end
  end.

(** The check both call helpers make on the parsed answer. *)
Definition check_exception (data : json) : result json :=
  match data with
  | JObj d =>
      if bool_decide (is_Some (d !! "exception"))
      then Err (MoodleError (dict_get d "errorcode" (JStr "?"))
                            (dict_get d "message" (JStr "Unknown error")))
      else Ok data
  | _ => Ok data
  end.

(** The instance attributes of a [MoodleClient]; [None] is [JNull]. *)
Record moodle_client : Type := {
  token : json;
  _user_id : json;
  _fullname : json
}.

Definition init (token : json) : moodle_client :=
  {| token := token; _user_id := JNull; _fullname := JNull |}.

(** [_call(self, wsfunction, **params)]. A keyword argument named like a
    positional parameter is a [TypeError] of the call itself ("got multiple
    values for argument"), raised before the body runs. *)
Definition _call (self : moodle_client) (wsfunction : string)
  (params : gmap string json) (w : world) : result json * world :=
  if bool_decide (is_Some (params !! "self") ∨ is_Some (params !! "wsfunction"))
  then (Err (PyError TypeError), w)
  else
    let data :=
      <["moodlewsrestformat" := JStr "json"]>
        (<["wsfunction" := JStr wsfunction]>
           (<["wstoken" := token self]> params)) in
    match post_json rest_url (DictForm data) w with
    | (Ok answer, w') => (check_exception answer, w')
    | (Err e, w') => (Err e, w')
    end.

(** [_call_array(self, wsfunction, array_params, **params)]; the keyword
    arguments are given in their order. *)
Definition _call_array (self : moodle_client) (wsfunction : string)
  (array_params : list (string * json)) (params : list (string * json))
  (w : world) : result json * world :=
  if existsb (fun kv => (String.eqb (fst kv) "self"
                         || String.eqb (fst kv) "wsfunction"
                         || String.eqb (fst kv) "array_params")%bool) params
  then (Err (PyError TypeError), w)
  else
    let payload :=
      (array_params
       ++ [("wstoken", token self); ("wsfunction", JStr wsfunction);
           ("moodlewsrestformat", JStr "json")]
       ++ params)%list in
    match post_json rest_url (ListForm payload) w with
    | (Ok answer, w') => (check_exception answer, w')
    | (Err e, w') => (Err e, w')
    end.

Definition get_site_info (self : moodle_client) (w : world)
  : result json * world :=
  _call self "core_webservice_get_site_info" ∅ w.

(** [get_user_id]: the identifier is fetched once and kept. *)
Definition get_user_id (self : moodle_client) (w : world)
  : result json * moodle_client * world :=
  match _user_id self with
  | JNull =>
      match get_site_info self w with
      | (Ok (JObj info), w') =>
          match info !! "userid" with
          | None => (Err (PyError (KeyError "userid")), self, w')
          | Some uid =>
              let self' :=
                {| token := token self; _user_id := uid;
                   _fullname := dict_get info "fullname" (JStr "") |} in
              (Ok uid, self', w')
          end
      | (Ok _, w') => (Err (PyError TypeError), self, w')
      | (Err e, w') => (Err e, self, w')
      end
  | uid => (Ok uid, self, w)
  end.

Definition get_courses (self : moodle_client) (w : world)
  : result json * moodle_client * world :=
  match get_user_id self w with
  | (Ok uid, self', w') =>
      let (answer, w'') :=
        _call self' "core_enrol_get_users_courses" (<["userid" := uid]> ∅) w' in
      (answer, self', w'')
  | (Err e, self', w') => (Err e, self', w')
  end.

(** [f"{name}[{i}]"] for the [i]-th element. *)
Definition indexed (name : string) (i : nat) : string :=
  String.append name (String.append "[" (String.append (pretty i) "]")).

Definition get_assignments (self : moodle_client) (course_ids : list json)
  (w : world) : result json * world :=
  _call_array self "mod_assign_get_assignments"
    (imap (fun i cid => (indexed "courseids" i, cid)) course_ids) [] w.

Definition get_course_contents (self : moodle_client) (course_id : json)
  (w : world) : result json * world :=
  _call self "core_course_get_contents" (<["courseid" := course_id]> ∅) w.

(** [get_calendar_events]; an argument left out is [None]. *)
Definition get_calendar_events (self : moodle_client)
  (course_ids : option (list json)) (time_start time_end : option json)
  (w : world) : result json * world :=
  let arr :=
    match course_ids with
    | Some ids => imap (fun i cid => (indexed "events[courseids]" i, cid)) ids
    | None => []
    end in
  let opts :=
    (match time_start with
     | Some t => [("options[timestart]", t)]
     | None => []
     end
     ++ match time_end with
        | Some t => [("options[timeend]", t)]
        | None => []
        end)%list in
  _call_array self "core_calendar_get_calendar_events" arr opts w.

Section Login.

(** [os.environ.get(name) or input(prompt)]: the environment value unless
    it is unset or empty, else what the user types. *)
Definition env_or_input (env : option string) (typed : string) : string :=
  match env with
  | Some v => if String.eqb v "" then typed else v
  | None => typed
  end.

(** Whether [datetime.fromtimestamp] accepts a timestamp (its range depends
    on the platform), and the exception it raises for one it rejects:
    [OverflowError], [OSError] or [ValueError], depending on the timestamp
    and the platform. *)
Variable fromtimestamp_ok : Z → bool.
Variable fromtimestamp_error : Z → exn.

Definition login_form (username password : string) : gmap string json :=
  <["username" := JStr username]>
    (<["password" := JStr password]>
       (<["service" := JStr SERVICE]> ∅)).

(** The second half of [get_token]: authenticate and save. *)
Definition authenticate (env_username env_password : option string)
  (typed_username typed_password : string) (w : world)
  : result json * world :=
  let username := env_or_input env_username typed_username in
  let password := env_or_input env_password typed_password in
  match post_json token_url (DictForm (login_form username password)) w with
  | (Err e, w') => (Err e, w')
  | (Ok data, w') =>
      match TokenManager.py_in "token" data with
      | None => (Err (PyError TypeError), w')
      | Some false =>
          match data with
          | JObj _ => (Err Exit, w')
          | _ => (Err (PyError AttributeError), w')
          end
      | Some true =>
          match data with
          | JObj d =>
              let token := dict_get d "token" JNull in
              (Ok token,
               {| now := now w';
                  file := Saved (JObj (<["token" := token]>
                                         (<["timestamp" := JNum (now w')]> ∅)));
                  answers := answers w'; requests := requests w' |})
          | _ => (Err (PyError TypeError), w')
          end
      end
  end.

(** [get_token]: the saved token when there is one, else [authenticate]. *)
Definition get_token (env_username env_password : option string)
  (typed_username typed_password : string) (w : world)
  : result json * world :=
  match file w with
  | NotJson => (Err (PyError JSONDecodeError), w)
  | Saved (JObj data) =>
      let token := dict_get data "token" JNull in
      if truthy token then
        match TokenManager.as_num (dict_get data "timestamp" (JNum 0)) with
        | None => (Err (PyError TypeError), w)
        | Some ts =>
            if fromtimestamp_ok ts then (Ok token, w)
            else (Err (PyError (fromtimestamp_error ts)), w)
        end
      else authenticate env_username env_password
             typed_username typed_password w
  | Saved _ => (Err (PyError AttributeError), w)
  | NoFile =>
      authenticate env_username env_password typed_username typed_password w
  end.

End Login.

Definition logout (w : world) : world :=
  {| now := now w; file := NoFile; answers := answers w;
     requests := requests w |}.

End MoodleClient.

(* ===================================================================== *)
(** * [EmailDashboard]: connection handling and mailbox operations        *)
(* ===================================================================== *)

(** The IMAP server is scripted like the HTTP servers: every call on the
    connection consumes the next scripted reply, which is either a returned
    [(status, data)] pair or a raised exception; a call that finds no reply
    fails like a dropped connection ([IMAP4.abort]). Data items are texts
    (what [bytes.decode(errors="replace")] gives), and texts are ASCII. *)
Module EmailDashboard.

Definition IMAP_HOST : string := "outlook.office365.com".
Definition IMAP_PORT : Z := 993.

(** What can leave a method: [imaplib.IMAP4.error], its subclass
    [imaplib.IMAP4.abort], both with the text [str(e)] gives, [OSError], or
    another Python exception. *)
Inductive error : Type :=
| IMAP4_error (message : string)
| IMAP4_abort (message : string)
| OS_error
| Python (e : exn).

(** [str(e)] when [isinstance(e, imaplib.IMAP4.error)]: [abort] is a
    subclass. *)
Definition imap_message (e : error) : option string :=
  match e with
  | IMAP4_error message => Some message
  | IMAP4_abort message => Some message
  | _ => None
  end.

Definition is_imap_error (e : error) : bool :=
  match imap_message e with
  | Some _ => true
  | None => false
  end.

(** [isinstance(e, OSError)] for the exceptions of [Py]: those of
    [requests] derive from [IOError], and [TimeoutError] from [OSError]. *)
Definition is_os_error (e : exn) : bool :=
  match e with
  | RequestException => true
  | TimeoutError => true
  | OSError => true
  | _ => false
  end.

(** [isinstance(e, Exception)]: everything but [SystemExit]. *)
Definition is_exception (e : error) : bool :=
  match e with
  | Python (SystemExit _) => false
  | _ => true
  end.

Inductive result (A : Type) : Type :=
| Ok (a : A)
| Err (e : error).
Arguments Ok {A} a.
Arguments Err {A} e.

(** The calls made on [imaplib]. *)
Inductive command : Type :=
| Connect (host : string) (port : Z)
| Login (user password : string)
| Authenticate (mechanism user : string) (token : json)
| Select (mailbox : string)
| Noop
| Uid (name : string) (args : list string)
| ListFolders
| Expunge
| Close
| Logout.

Inductive imap_reply : Type :=
| Answer (status : string) (data : list string)
| Fails (e : error).

(** The instance attributes; [conn] tells whether [self.conn] holds a
    connection object. *)
Record email_dashboard : Type := {
  tm : TokenManager.token_manager;
  conn : bool;
  _archive_folder : option string
}.

Definition init (token_mgr : TokenManager.token_manager) : email_dashboard :=
  {| tm := token_mgr; conn := false; _archive_folder := None |}.

(** The environment: that of the token manager, the scripted HTTP and IMAP
    replies, and the IMAP calls made so far, each with its reply. *)
Record world : Type := {
  tmw : TokenManager.world;
  http : list TokenManager.reply;
  imap : list imap_reply;
  calls : list (command * imap_reply)
}.

(** Methods: state transformers that return or raise. *)
Definition D (A : Type) : Type :=
  email_dashboard → world → result A * email_dashboard * world.

Definition ret {A} (a : A) : D A := fun self w => (Ok a, self, w).
Definition raise {A} (e : error) : D A := fun self w => (Err e, self, w).
Definition bind {A B} (c : D A) (k : A → D B) : D B :=
  fun self w =>
    match c self w with
    | (Ok a, self', w') => k a self' w'
    | (Err e, self', w') => (Err e, self', w')
    end.

(** [try: c except <handled>: handler]. *)
Definition try_except {A} (c : D A) (handled : error → bool) (handler : D A)
  : D A :=
  fun self w =>
    match c self w with
    | (Err e, self', w') =>
        if handled e then handler self' w' else (Err e, self', w')
    | ok => ok
    end.

(** [try: c except ... as e: handler(e)], where [handler] tells which
    exceptions the clause catches. *)
Definition try_catch {A} (c : D A) (handler : error → option (D A)) : D A :=
  fun self w =>
    match c self w with
    | (Err e, self', w') =>
        match handler e with
        | Some h => h self' w'
        | None => (Err e, self', w')
        end
    | ok => ok
    end.

Definition set_conn (b : bool) : D unit :=
  fun self w =>
    (Ok tt, {| tm := tm self; conn := b;
               _archive_folder := _archive_folder self |}, w).

Definition set_archive_folder (name : string) : D unit :=
  fun self w =>
    (Ok tt, {| tm := tm self; conn := conn self;
               _archive_folder := Some name |}, w).

(** One call on [imaplib]: the call and its reply are recorded. *)
Definition imap_call (c : command) : D (string * list string) :=
  fun self w =>
    let reply := match imap w with
                 | [] => Fails (IMAP4_abort "socket error: EOF")
                 | r :: _ => r
                 end in
    let w' := {| tmw := tmw w; http := http w; imap := tail (imap w);
                 calls := (calls w ++ [(c, reply)])%list |} in
    match reply with
    | Answer status data => (Ok (status, data), self, w')
    | Fails e => (Err e, self, w')
    end.

(** A call on [self.conn]; on [None] the attribute access fails. *)
Definition on_conn (c : command) : D (string * list string) :=
  fun self w =>
    if conn self then imap_call c self w
    else (Err (Python AttributeError), self, w).

(** ** Texts *)

(** The ASCII characters [str.strip()] removes: tab to carriage return,
    the four separators and the space. *)
Definition is_py_space (c : ascii) : bool :=
  let n := nat_of_ascii c in
  ((Nat.leb 9 n && Nat.leb n 13) || (Nat.leb 28 n && Nat.leb n 32))%bool.

Fixpoint lstrip (p : ascii → bool) (s : string) : string :=
  match s with
  | String c rest => if p c then lstrip p rest else s
  | EmptyString => EmptyString
  end.

Definition string_rev (s : string) : string := rev_onto "" s.

Definition strip (p : ascii → bool) (s : string) : string :=
  string_rev (lstrip p (string_rev (lstrip p s))).

(** [s.split(c, maxsplit)] for a one-character separator; [cur] is the
    current part, reversed. *)
Fixpoint split_char (c : ascii) (maxsplit : nat) (cur : string) (s : string)
  : list string :=
  match maxsplit with
  | O => [rev_onto s cur]
  | S n =>
      match s with
      | EmptyString => [rev_onto "" cur]
      | String x rest =>
          if Ascii.eqb x c
          then rev_onto "" cur :: split_char c n "" rest
          else split_char c maxsplit (String x cur) rest
      end
  end.

(** [s.rsplit(c, maxsplit)]: the mirror image of [split]. *)
Definition rsplit_char (c : ascii) (maxsplit : nat) (s : string)
  : list string :=
  List.rev (map string_rev (split_char c maxsplit "" (string_rev s))).

(** The double quote. *)
Definition quote : ascii := ascii_of_nat 34.

Definition is_quote (c : ascii) : bool := Ascii.eqb c quote.

(** [c.upper()] on an ASCII letter; other characters are unchanged. *)
Definition upper_ascii (c : ascii) : ascii :=
  let n := nat_of_ascii c in
  if (Nat.leb 97 n && Nat.leb n 122)%bool then ascii_of_nat (n - 32) else c.

Fixpoint upper (s : string) : string :=
  match s with
  | EmptyString => EmptyString
  | String c rest => String (upper_ascii c) (upper rest)
  end.

(** ** Connection *)

(** [imaplib] quotes the password, which fails on a value that is not a
    text. *)
Definition _imap_login (user : string) (password : json) : D unit :=
  bind (imap_call (Connect IMAP_HOST IMAP_PORT)) (fun _ =>
  bind (set_conn true) (fun _ =>
  match password with
  | JStr pw =>
      bind (imap_call (Login user pw)) (fun _ =>
      bind (imap_call (Select "INBOX")) (fun _ => ret tt))
  | _ => raise (Python AttributeError)
  end)).

Definition _imap_oauth2 (user : string) (token : json) : D unit :=
  bind (imap_call (Connect IMAP_HOST IMAP_PORT)) (fun _ =>
  bind (set_conn true) (fun _ =>
  bind (imap_call (Authenticate "XOAUTH2" user token)) (fun _ =>
  bind (imap_call (Select "INBOX")) (fun _ => ret tt)))).

(** A method of [self.tm] that talks to the network, run in the token
    manager's world. *)
Definition tm_run
  (method : TokenManager.token_manager → list TokenManager.reply →
            TokenManager.world → TokenManager.run json) : D json :=
  fun self w =>
    let run := method (tm self) (http w) (tmw w) in
    let self' := {| tm := TokenManager.self_after run; conn := conn self;
                    _archive_folder := _archive_folder self |} in
    let w' := {| tmw := TokenManager.world_after run;
                 http := TokenManager.script_after run;
                 imap := imap w; calls := calls w |} in
    match TokenManager.value run with
    | Ret v => (Ok v, self', w')
    | Raise e => (Err (Python e), self', w')
    end.

Definition tm_get_access_token : D json :=
  tm_run TokenManager.get_access_token.

Definition tm_run_device_code_flow : D json :=
  tm_run TokenManager.run_device_code_flow.

(** A method of [self.tm] that rewrites the credentials and the file. *)
Definition tm_store
  (method : TokenManager.token_manager → TokenManager.cred_file →
            TokenManager.token_manager * TokenManager.cred_file) : D unit :=
  fun self w =>
    let stored := method (tm self) (TokenManager.file (tmw w)) in
    (Ok tt,
     {| tm := fst stored; conn := conn self;
        _archive_folder := _archive_folder self |},
     {| tmw := TokenManager.with_file (tmw w) (snd stored); http := http w;
        imap := imap w; calls := calls w |}).

Definition tm_clear : D unit := tm_store TokenManager.clear.

Definition tm_save_basic (password : string) : D unit :=
  tm_store (fun self => TokenManager.save_basic self password).

Definition tm_is_token_expired : D bool :=
  fun self w =>
    match TokenManager.is_token_expired (tm self) (tmw w) with
    | Ret b => (Ok b, self, w)
    | Raise e => (Err (Python e), self, w)
    end.

Definition _connect_with_saved : D unit :=
  fun self w =>
    let auth := TokenManager.auth_type (tm self) in
    let user := TokenManager.email_address (tm self) in
    if TokenManager.eq_str auth "basic" then
      _imap_login user (TokenManager.get_basic_password (tm self)) self w
    else if TokenManager.eq_str auth "oauth2" then
      bind tm_get_access_token (fun token =>
        if negb (truthy token)
        then raise (IMAP4_error "Token expired and refresh failed")
        else _imap_oauth2 user token) self w
    else (Ok tt, self, w).

Definition _connect_oauth2 : D unit :=
  bind tm_run_device_code_flow (fun token self w =>
    _imap_oauth2 (TokenManager.email_address (tm self)) token self w).

(** What the terminal gives: [sys.stdin.isatty()], and what the user types
    at the prompt of the chooser, at [getpass] and at the prompt about
    saving. *)
Record stdin : Type := {
  isatty : bool;
  choice : string;
  password : string;
  save : string
}.

(** [_connect_basic_interactive]. The [bool] of the first part tells
    whether the login went through, [False] after the fallback to OAuth2
    and its [return]. *)
Definition _connect_basic_interactive (io : stdin) : D unit :=
  let pw := password io in
  bind
    (try_catch
       (fun self w =>
          bind (_imap_login (TokenManager.email_address (tm self)) (JStr pw))
               (fun _ => ret true) self w)
       (fun e =>
          match imap_message e with
          | Some err =>
              Some (if (contains "AUTHENTICATE" (upper err)
                        || contains "LOGIN" (upper err))%bool
                    then bind _connect_oauth2 (fun _ => ret false)
                    else raise e)
          | None => None
          end))
    (fun logged_in =>
       if logged_in : bool then
         if String.eqb (lower (strip is_py_space (save io))) "y"
         then tm_save_basic pw
         else ret tt
       else ret tt).

(** [connect]. The [bool] of the first part tells whether the saved
    credentials connected. *)
Definition connect (io : stdin) : D unit :=
  bind
    (fun self w =>
       if TokenManager.has_saved_creds (tm self) then
         try_catch (bind _connect_with_saved (fun _ => ret true))
           (fun e =>
              if is_imap_error e
              then Some (bind tm_clear (fun _ => ret false))
              else None)
           self w
       else (Ok false, self, w))
    (fun connected =>
       if connected : bool then ret tt
       else
         let typed := strip is_py_space (choice io) in
         let chosen := if String.eqb typed "" then "2" else typed in
         if (isatty io && String.eqb chosen "1")%bool
         then _connect_basic_interactive io
         else _connect_oauth2).

(** [except (imaplib.IMAP4.error, OSError)]. *)
Definition caught_on_check (e : error) : bool :=
  match e with
  | IMAP4_error _ => true
  | IMAP4_abort _ => true
  | OS_error => true
  | Python e => is_os_error e
  end.

(** [_ensure_connected]. The [bool] of the checked part tells whether it
    reached its [return]. *)
Definition _ensure_connected : D unit :=
  bind
    (try_except
       (fun self w =>
          if conn self then
            bind
              (if TokenManager.eq_str (TokenManager.auth_type (tm self)) "oauth2"
               then bind tm_is_token_expired (fun expired =>
                      if expired then raise (IMAP4_error "token expired")
                      else ret tt)
               else ret tt)
              (fun _ => bind (imap_call Noop) (fun _ => ret true)) self w
          else (Ok false, self, w))
       caught_on_check (ret false))
    (fun returned =>
       if returned : bool then ret tt
       else bind (set_conn false) (fun _ => _connect_with_saved)).

(** [except (imaplib.IMAP4.abort, OSError)]. *)
Definition dropped (e : error) : bool :=
  match e with
  | IMAP4_abort _ => true
  | OS_error => true
  | IMAP4_error _ => false
  | Python e => is_os_error e
  end.

(** [_with_retry(fn)]. *)
Definition _with_retry {A} (fn : D A) : D A :=
  try_except
    (bind _ensure_connected (fun _ => fn))
    dropped
    (bind (set_conn false) (fun _ =>
     bind _ensure_connected (fun _ => fn))).

(** [close]: every exception of [close()] and [logout()] is swallowed. *)
Definition close : D unit :=
  fun self w =>
    if conn self then
      bind
        (try_except
           (bind (imap_call Close) (fun _ =>
            bind (imap_call Logout) (fun _ => ret tt)))
           is_exception (ret tt))
        (fun _ => set_conn false) self w
    else (Ok tt, self, w).

(** ** Operations *)

Definition mark_as_read (uid : string) : D bool :=
  _with_retry
    (bind (on_conn (Uid "STORE" [uid; "+FLAGS"; "(\Seen)"])) (fun r =>
     ret (String.eqb (fst r) "OK"))).

(** The names one line of the LIST answer contributes. *)
Definition folder_names_of (decoded : string) : list string :=
  let parts := rsplit_char quote 2 decoded in
  let quoted :=
    if Nat.leb 2 (List.length parts) then
      let name :=
        strip is_py_space
          (nth (List.length parts - 2) parts EmptyString) in
      if String.eqb name "" then [] else [name]
    else [] in
  let tokens := split " " decoded in
  let last := strip is_quote (strip is_py_space (List.last tokens EmptyString)) in
  (quoted ++ (if String.eqb last "" then [] else [last]))%list.

Definition candidates : list string := ["Archive"; "Archived"; "archive"].

(** The first candidate among the folder names, or ["Archive"]. *)
Definition choose_archive (folder_names : list string) : string :=
  match List.find (fun c => existsb (String.eqb c) folder_names) candidates with
  | Some c => c
  | None => "Archive"
  end.

Definition _discover_archive_folder : D string :=
  fun self w =>
    match _archive_folder self with
    | Some name =>
        if String.eqb name "" then
          bind (on_conn ListFolders) (fun r =>
            let name' :=
              if String.eqb (fst r) "OK"
              then choose_archive (flat_map folder_names_of (snd r))
              else "Archive" in
            bind (set_archive_folder name') (fun _ => ret name')) self w
        else (Ok name, self, w)
    | None =>
        bind (on_conn ListFolders) (fun r =>
          let name' :=
            if String.eqb (fst r) "OK"
            then choose_archive (flat_map folder_names_of (snd r))
            else "Archive" in
          bind (set_archive_folder name') (fun _ => ret name')) self w
    end.

Definition handled_on_move (e : error) : bool := is_imap_error e.

(** The operation of [move_to_archive]. *)
Definition move_op (uid : string) : D bool :=
  bind _discover_archive_folder (fun archive =>
  bind
    (try_except
       (bind (on_conn (Uid "MOVE" [uid; archive])) (fun r =>
        ret (String.eqb (fst r) "OK")))
       handled_on_move (ret false))
    (fun moved =>
       if moved : bool then ret true
       else
         bind (on_conn (Uid "COPY" [uid; archive])) (fun r =>
         if negb (String.eqb (fst r) "OK") then ret false
         else
           bind (on_conn (Uid "STORE" [uid; "+FLAGS"; "(\Deleted)"])) (fun _ =>
           bind (on_conn Expunge) (fun _ => ret true))))).

Definition move_to_archive (uid : string) : D bool :=
  _with_retry (move_op uid).

Definition list_folders : D (list string) :=
  _with_retry
    (bind (on_conn ListFolders) (fun r =>
     if negb (String.eqb (fst r) "OK") then ret [] else ret (snd r))).

End EmailDashboard.

(* ===================================================================== *)
(** * Views of the IMAP log                                               *)
(* ===================================================================== *)

Module DashboardViews.
Import EmailDashboard.

(** An entry of the log: a call and its reply. *)
Abbreviation entry := (command * imap_reply)%type.

(** The commands of connection handling. *)
Definition is_connection (e : entry) : bool :=
  match fst e with
  | Connect _ _ => true
  | Login _ _ => true
  | Authenticate _ _ _ => true
  | Select _ => true
  | Noop => true
  | _ => false
  end.

Definition returned (e : entry) : bool :=
  match snd e with
  | Answer _ _ => true
  | Fails _ => false
  end.

Definition answered_ok (e : entry) : bool :=
  match snd e with
  | Answer status _ => String.eqb status "OK"
  | Fails _ => false
  end.

(** The call failed with an exception [_with_retry] reconnects on. *)
Definition failed_dropped (e : entry) : bool :=
  match snd e with
  | Answer _ _ => false
  | Fails x => dropped x
  end.

Definition is_uid (name : string) (args : list string) (e : entry) : bool :=
  match fst e with
  | Uid n a => (String.eqb n name && bool_decide (a = args))%bool
  | _ => false
  end.

Definition is_mark (uid : string) (e : entry) : bool :=
  is_uid "STORE" [uid; "+FLAGS"; "(\Seen)"] e.

Definition is_delete (uid : string) (e : entry) : bool :=
  is_uid "STORE" [uid; "+FLAGS"; "(\Deleted)"] e.

Definition is_expunge (e : entry) : bool :=
  match fst e with
  | Expunge => true
  | _ => false
  end.

Definition is_list (e : entry) : bool :=
  match fst e with
  | ListFolders => true
  | _ => false
  end.

(** [MOVE] or [COPY] of the message to some folder, which is returned. *)
Definition target_of (name uid : string) (e : entry) : option string :=
  match fst e with
  | Uid n [u; folder] =>
      if (String.eqb n name && String.eqb u uid)%bool then Some folder else None
  | _ => None
  end.

Definition is_copy (uid : string) (e : entry) : bool :=
  bool_decide (is_Some (target_of "COPY" uid e)).

Definition is_move (uid : string) (e : entry) : bool :=
  bool_decide (is_Some (target_of "MOVE" uid e)).

(** Everything [move_to_archive] may send for a message. *)
Definition archiving (uid : string) (e : entry) : bool :=
  (is_connection e || is_list e || is_move uid e || is_copy uid e
   || is_delete uid e || is_expunge e)%bool.

(** The order of the destructive commands in a log: the message is flagged
    [\Deleted] only right after a [COPY] of it answered [OK], and [EXPUNGE]
    is sent only right after that flagging returned. [prev] is the entry
    before the log. *)
Fixpoint deletes_follow_copy (uid : string) (prev : option entry)
  (log : list entry) : bool :=
  match log with
  | [] => true
  | e :: rest =>
      ((if is_delete uid e then
          match prev with
          | Some p => is_copy uid p && answered_ok p
          | None => false
          end
        else if is_expunge e then
          match prev with
          | Some p => is_delete uid p && returned p
          | None => false
          end
        else true)
       && deletes_follow_copy uid (Some e) rest)%bool
  end.

(** Where the message was sent: the targets of the [MOVE] and [COPY]
    commands of a log. *)
Definition targets (uid : string) (log : list entry) : list string :=
  (omap (target_of "MOVE" uid) log ++ omap (target_of "COPY" uid) log)%list.

(** Some [MOVE] or [COPY] of the message answered [OK]. *)
Definition archived (uid : string) (log : list entry) : bool :=
  existsb (fun e => ((is_move uid e || is_copy uid e) && answered_ok e)%bool) log.

(** [c] adds to the log only entries that satisfy [p], and leaves the
    cached archive folder as it is. *)
Definition sends_only {A} (p : entry → bool) (c : D A) : Prop :=
  ∀ self w, ∃ new,
    calls (snd (c self w)) = (calls w ++ new)%list
    ∧ forallb p new = true
    ∧ _archive_folder (snd (fst (c self w))) = _archive_folder self.


End DashboardViews.

(* ===================================================================== *)
(** * The command line: the table of messages                             *)
(* ===================================================================== *)

(** Texts are sequences of characters; [len] is [String.length]. *)
Module Cli.

(** One element of the list [_fetch_headers] returns. *)
Record email : Type := {
  uid : string;
  date : string;
  from : string;
  subject : string
}.

(** [s[:n]]; a negative [n] counts from the end. *)
Definition slice_to (n : Z) (s : string) : string :=
  if Z.leb 0 n then String.substring 0 (Z.to_nat n) s
  else String.substring 0 (String.length s - Z.to_nat (- n)) s.

(** [f"{s:<{w}}"]: padded with spaces on the right, never cut. *)
Definition ljust (w : Z) (s : string) : string :=
  String.append s (str_repeat " " (Z.to_nat w - String.length s)).

(** [c * n] for an integer [n]. *)
Definition times (c : string) (n : Z) : string := str_repeat c (Z.to_nat n).

Definition date_w : Z := 12.

(** [max(len(e["uid"]) for e in emails_list)], then [max(uid_w, 3)]. *)
Definition uid_w (emails_list : list email) : Z :=
  Z.max (Z.of_nat (max_list (map (fun e => String.length (uid e)) emails_list)))
        3.

Definition remaining (term_width : Z) (emails_list : list email) : Z :=
  term_width - (uid_w emails_list + date_w + 6).

Definition from_w (term_width : Z) (emails_list : list email) : Z :=
  Z.min (Z.max (remaining term_width emails_list / 3) 15) 30.

Definition subj_w (term_width : Z) (emails_list : list email) : Z :=
  remaining term_width emails_list - from_w term_width emails_list - 2.

(** The subject as printed: cut to the column and marked with three dots
    when the column is wider than 3 and the subject does not fit. *)
Definition shown_subject (width : Z) (subj : string) : string :=
  if (Z.ltb 3 width && Z.ltb width (Z.of_nat (String.length subj)))%bool
  then String.append (slice_to (width - 3) subj) "..."
  else subj.

(** A line of four columns. *)
Definition line (uw fw : Z) (c1 c2 c3 c4 : string) : string :=
  String.append "  " (String.append (ljust uw c1)
    (String.append "  " (String.append (ljust date_w c2)
      (String.append "  " (String.append (ljust fw c3)
        (String.append "  " c4)))))).

Section Table.

(** [email.utils.parsedate_to_datetime(d).strftime("%b %d %H:%M")], or
    [None] when it raises. *)
Variable format_date : string → option string.

Definition _date (e : email) : string :=
  match format_date (date e) with
  | Some d => d
  | None => if String.eqb (date e) "" then "" else slice_to 12 (date e)
  end.

Definition row (term_width : Z) (emails_list : list email) (e : email)
  : string :=
  let uw := uid_w emails_list in
  let fw := from_w term_width emails_list in
  line uw fw (slice_to uw (uid e)) (slice_to date_w (_date e))
       (slice_to fw (from e))
       (shown_subject (subj_w term_width emails_list) (subject e)).

Definition header (term_width : Z) (emails_list : list email) : string :=
  line (uid_w emails_list) (from_w term_width emails_list)
       "UID" "Date" "From" "Subject".

Definition rule (term_width : Z) (emails_list : list email) : string :=
  let uw := uid_w emails_list in
  let fw := from_w term_width emails_list in
  String.append "  " (String.append (times "-" uw)
    (String.append "  " (String.append (times "-" date_w)
      (String.append "  " (String.append (times "-" fw)
        (String.append "  "
           (times "-" (Z.max (subj_w term_width emails_list) 7)))))))).

(** The texts [_format_table] prints, one for each [print]. *)
Definition _format_table (term_width : Z) (emails_list : list email)
  : list string :=
  match emails_list with
  | [] => ["  No emails found."]
  | _ =>
      (header term_width emails_list
       :: rule term_width emails_list
       :: map (row term_width emails_list) emails_list
       ++ [String (ascii_of_nat 10)
             (String.append "  "
                (String.append (pretty (List.length emails_list))
                               " email(s)"))])%list
  end.

End Table.

End Cli.

(* ===================================================================== *)
(** * Sample data for concrete runs                                       *)
(* ===================================================================== *)

Module Samples.

(** An OAuth2 credential expiring at [expires_at], and its manager. *)
Definition oauth_creds (expires_at : Z) : gmap string json :=
  <["auth_type" := JStr "oauth2"]>
    (<["access_token" := JStr "cached"]>
       (<["refresh_token" := JStr "rt"]>
          (<["expires_at" := JNum expires_at]> ∅))).

Definition manager (expires_at : Z) : TokenManager.token_manager :=
  {| TokenManager.email_address := "ab12345@qmul.ac.uk";
     TokenManager.client_id := TokenManager.DEFAULT_CLIENT_ID;
     TokenManager._creds := oauth_creds expires_at |}.

Definition at_1000 : TokenManager.world :=
  {| TokenManager.clock := 1000;
     TokenManager.file := TokenManager.Missing;
     TokenManager.trace := [] |}.

Definition bad_request : TokenManager.reply :=
  {| TokenManager.latency := 1;
     TokenManager.result :=
       TokenManager.Response 400
         (Some (JObj (<["error" := JStr "invalid_grant"]> ∅))) |}.





(** A page with two sibling POST forms; only the second carries
    [SAMLResponse]. *)
Definition first_form : FormParser.starttag := FormParser.post_form "/search".
Definition second_form : FormParser.starttag := FormParser.post_form "/acs".

Definition first_inputs : list FormParser.starttag :=
  [FormParser.hidden_input "csrf" "abc"].
Definition second_inputs : list FormParser.starttag :=
  [FormParser.hidden_input "SAMLResponse" "PHNhbWw+";
   FormParser.hidden_input "RelayState" "xyz"].

Definition two_forms : list FormParser.starttag :=
  (first_form :: first_inputs ++ second_form :: second_inputs)%list.

(** The pages of a scripted identity provider: the configuration of the
    login page and of the "stay signed in" page as JSON texts, and a page
    with the SAML response form. *)
Definition quoted (s : string) : string :=
  String (ascii_of_nat 34) (String.append s (String (ascii_of_nat 34) "")).

Definition login_config_text : string :=
  String.concat ""
    ["{"; quoted "sFT"; ":"; quoted "flow"; ","; quoted "urlPost"; ":";
     quoted "/login"; "}"].

Definition login_config : gmap string json :=
  <["sFT" := JStr "flow"]> (<["urlPost" := JStr "/login"]> ∅).

Definition kmsi_config_text : string :=
  String.concat ""
    ["{"; quoted "sFT"; ":"; quoted "flow3"; ","; quoted "sCtx"; ":";
     quoted "ctx3"; ","; quoted "urlPost"; ":"; quoted "/kmsi"; "}"].

Definition kmsi_config : gmap string json :=
  <["sFT" := JStr "flow3"]>
    (<["sCtx" := JStr "ctx3"]> (<["urlPost" := JStr "/kmsi"]> ∅)).

Definition acs_url : string :=
  "https://qmplus.qmul.ac.uk/auth/saml2/sp/saml2-acs.php/qmplus.qmul.ac.uk".

Definition saml_page_text : string :=
  String.concat ""
    ["<form method=post action="; acs_url;
     "><input type=hidden name=SAMLResponse value=PHNhbWw+></form>"].

(** Stand-ins for the library functions: [json.loads] on the two
    configurations, [urljoin] on a base and an absolute or relative path,
    the parser on the page with the SAML form. *)
Definition json_loads (blob : string) : option json :=
  if String.eqb blob login_config_text then Some (JObj login_config)
  else if String.eqb blob kmsi_config_text then Some (JObj kmsi_config)
  else None.

Definition urljoin (base u : string) : string :=
  if String.prefix "/" u
  then String.append "https://" (String.append (SSO.url_host base) u)
  else String.append base u.

Definition html_starttags (page : string) : FormParser.parsing :=
  if String.eqb page saml_page_text
  then {| FormParser.reported :=
            [FormParser.post_form acs_url;
             FormParser.hidden_input "SAMLResponse" "PHNhbWw+"];
          FormParser.parser_error := None |}
  else {| FormParser.reported := []; FormParser.parser_error := None |}.

Definition decode_replace (bytes : string) : string := bytes.

Definition login_page : SSO.response :=
  {| SSO.url := "https://login.microsoftonline.com/common/saml2";
     SSO.text :=
       String.concat "" ["<script>$Config = "; login_config_text; ";</script>"];
     SSO.status_code := 200;
     SSO.location := None;
     SSO.json_body := None |}.

Definition credential_type (fed_url : string) : SSO.response :=
  {| SSO.url := "https://login.microsoftonline.com/common/GetCredentialType";
     SSO.text := "";
     SSO.status_code := 200;
     SSO.location := None;
     SSO.json_body :=
       Some (JObj (<["Credentials" :=
                      JObj (<["FederationRedirectUrl" := JStr fed_url]> ∅)]> ∅)) |}.

Definition idp (fed_url : string) : SSO.session :=
  {| SSO.script := [Some login_page; Some (credential_type fed_url)];
     SSO.sent := [] |}.

Definition fresh : SSO.session := {| SSO.script := []; SSO.sent := [] |}.

(** A sign-in that lands on the platform, and the launch redirect carrying
    the encoding of ["P:::T"] without its padding. *)
Definition dashboard : SSO.response :=
  {| SSO.url := "https://qmplus.qmul.ac.uk/my/";
     SSO.text := "<html>Dashboard</html>";
     SSO.status_code := 200;
     SSO.location := None;
     SSO.json_body := None |}.

Definition launch_redirect : SSO.response :=
  {| SSO.url := "https://qmplus.qmul.ac.uk/admin/tool/mobile/launch.php";
     SSO.text := "";
     SSO.status_code := 303;
     SSO.location := Some "moodlemobile://token=UDo6OlQ";
     SSO.json_body := None |}.

Definition managed_account : SSO.response :=
  {| SSO.url := "https://login.microsoftonline.com/common/GetCredentialType";
     SSO.text := "";
     SSO.status_code := 200;
     SSO.location := None;
     SSO.json_body := Some (JObj (<["FlowToken" := JStr "flow2"]> ∅)) |}.

Definition complete : SSO.session :=
  {| SSO.script := [Some login_page; Some managed_account; Some dashboard;
                    Some launch_redirect];
     SSO.sent := [] |}.

(** A URL at the identity provider that quotes the platform's address. *)
Definition idp_url_quoting_platform : string :=
  "https://login.microsoftonline.com/common/login?ru=https%3A%2F%2Fqmplus.qmul.ac.uk%2F".

(** A token endpoint that grants a fresh token, one that reports that admin
    consent is required, and one that answers "pending" at once. *)
Definition granted : TokenManager.reply :=
  TokenManager.answered 1 (TokenManager.success_body (JStr "fresh")).



(** Answers of the identity provider to the password: a rejection, and the
    "stay signed in" prompt without a configuration. *)
Definition wrong_password : SSO.response :=
  {| SSO.url := "https://login.microsoftonline.com/common/login";
     SSO.text := "AADSTS50126: invalid username or password";
     SSO.status_code := 200;
     SSO.location := None;
     SSO.json_body := None |}.

Definition stay_signed_in_prompt : SSO.response :=
  {| SSO.url := "https://login.microsoftonline.com/common/login";
     SSO.text := "KmsiInterrupt";
     SSO.status_code := 200;
     SSO.location := None;
     SSO.json_body := None |}.

(** The "stay signed in" prompt with its configuration, written with
    no-break spaces (U+00A0) around the equals sign. *)
Definition stay_signed_in_page : SSO.response :=
  {| SSO.url := "https://login.microsoftonline.com/common/login";
     SSO.text :=
       String.concat ""
         ["<script>$Config"; String (ascii_of_nat 160) "=";
          String (ascii_of_nat 160) kmsi_config_text;
          ";</script><div id=KmsiInterrupt>"];
     SSO.status_code := 200;
     SSO.location := None;
     SSO.json_body := None |}.

(** The password answer that carries the SAML response form, still at the
    identity provider, and an answer to the form's submission that stays at
    the identity provider while quoting the platform. *)
Definition saml_form_page : SSO.response :=
  {| SSO.url := "https://login.microsoftonline.com/common/login";
     SSO.text := saml_page_text;
     SSO.status_code := 200;
     SSO.location := None;
     SSO.json_body := None |}.

Definition error_page : SSO.response :=
  {| SSO.url := "https://login.microsoftonline.com/common/error";
     SSO.text := "<html>Something went wrong</html>";
     SSO.status_code := 200;
     SSO.location := None;
     SSO.json_body := None |}.

Definition quoting_page : SSO.response :=
  {| SSO.url := idp_url_quoting_platform;
     SSO.text := "<html>Sign in</html>";
     SSO.status_code := 200;
     SSO.location := None;
     SSO.json_body := None |}.

(** A sign-in whose password answer carries the SAML form; the form's
    submission lands on [landing], and the launch request, if it comes, is
    answered by the redirect. *)
Definition via_saml (landing : SSO.response) : SSO.session :=
  {| SSO.script := [Some login_page; Some managed_account;
                    Some saml_form_page; Some landing; Some launch_redirect];
     SSO.sent := [] |}.

(** The session of such a sign-in when the password answer has come, and
    when the form has been submitted. *)
Definition sign_in : list SSO.request :=
  FlowViews.sign_in_requests urljoin "ab12345@qmul.ac.uk" "secret"
    login_config (<["FlowToken" := JStr "flow2"]> ∅) "/login".

Definition at_saml_form (landing : SSO.response) : SSO.session :=
  {| SSO.script := [Some landing; Some launch_redirect];
     SSO.sent := sign_in |}.

Definition past_saml_form : SSO.session :=
  {| SSO.script := [Some launch_redirect];
     SSO.sent :=
       (sign_in
        ++ [SSO.http_post acs_url
              (SSO.FormData (<["SAMLResponse" := JStr "PHNhbWw+"]> ∅))
              true])%list |}.

(** A Moodle site that hands out a token and knows the user. *)
Definition token_answer : TokenManager.reply :=
  TokenManager.answered 1 (JObj (<["token" := JStr "tok"]> ∅)).

Definition site_info : TokenManager.reply :=
  TokenManager.answered 1
    (JObj (<["userid" := JNum 7]> (<["fullname" := JStr "A B"]> ∅))).

Definition moodle (answers : list TokenManager.reply) : MoodleClient.world :=
  {| MoodleClient.now := 1000;
     MoodleClient.file := MoodleClient.NoFile;
     MoodleClient.answers := answers;
     MoodleClient.requests := [] |}.

(** A mailbox whose OAuth2 token has expired while the token endpoint
    rejects the refresh; a session without a terminal; one message. *)
Definition expired_mailbox : EmailDashboard.world :=
  {| EmailDashboard.tmw := at_1000;
     EmailDashboard.http := [bad_request];
     EmailDashboard.imap := [];
     EmailDashboard.calls := [] |}.

Definition no_terminal : EmailDashboard.stdin :=
  {| EmailDashboard.isatty := false;
     EmailDashboard.choice := "";
     EmailDashboard.password := "";
     EmailDashboard.save := "" |}.

Definition one_message : list Cli.email :=
  [{| Cli.uid := "42"; Cli.date := ""; Cli.from := "a@example.org";
      Cli.subject := "Hello" |}].

End Samples.

(* ===================================================================== *)
(** * Floating-point sums                                                 *)
(* ===================================================================== *)

Section FloatFacts.

(** Below [2^53] every whole number is a double. *)
Lemma round_double_exact (n : Z) :
  (Z.abs n < 2 ^ 53)%Z → round_double n = n.
Proof.
  intros Hn. unfold round_double.
  destruct (Z.leb_spec (Z.log2 (Z.abs n) - 52) 0) as [_|He]; [done|].
  exfalso. destruct (Z.eq_dec (Z.abs n) 0) as [H0|H0].
  - rewrite H0 in He. cbn in He. lia.
  - assert (Z.log2 (Z.abs n) < 53)%Z by (apply Z.log2_lt_pow2; lia). lia.
Qed.

Lemma float_of_int_exact (n : Z) :
  (Z.abs n < 2 ^ 53)%Z → float_of_int n = Some n.
Proof.
  intros Hn. unfold float_of_int. rewrite round_double_exact by done.
  destruct (Z.ltb_spec (Z.log2 (Z.abs n)) 1024) as [_|He]; [done|].
  exfalso. destruct (Z.eq_dec (Z.abs n) 0) as [H0|H0].
  - rewrite H0 in He. cbn in He. lia.
  - assert (Z.log2 (Z.abs n) < 53)%Z by (apply Z.log2_lt_pow2; lia). lia.
Qed.

(** Within [2^53] the float sum is the exact sum. *)
Lemma float_add_exact (t n : Z) :
  (Z.abs n < 2 ^ 53)%Z → (Z.abs (t + n) < 2 ^ 53)%Z →
  float_add t n = Some (t + n)%Z.
Proof.
  intros Hn Hs. unfold float_add. rewrite float_of_int_exact by done.
  by rewrite round_double_exact.
Qed.

(** Rounding does not go below [2^53]. *)
Lemma round_double_ge (x : Z) :
  (2 ^ 53 ≤ x)%Z → (2 ^ 53 ≤ round_double x)%Z.
Proof.
  intros Hx. unfold round_double. rewrite Z.abs_eq by lia.
  assert (HL : (53 ≤ Z.log2 x)%Z) by (apply Z.log2_le_pow2; lia).
  destruct (Z.leb_spec (Z.log2 x - 52) 0) as [|He]; [lia|].
  set (e := (Z.log2 x - 52)%Z) in *.
  rewrite Z.sgn_pos, Z.mul_1_l by lia.
  rewrite Z.shiftr_div_pow2 by lia.
  assert (Hpow : (0 < 2 ^ e)%Z) by (apply Z.pow_pos_nonneg; lia).
  assert (Hq : (2 ^ 52 ≤ x / 2 ^ e)%Z).
  { apply Z.div_le_lower_bound; [exact Hpow|].
    rewrite <- Z.pow_add_r by lia.
    replace (e + 52)%Z with (Z.log2 x) by (subst e; lia).
    apply Z.log2_spec. lia. }
  set (q := (x / 2 ^ e)%Z) in *.
  assert (Hq' : ∀ q', (q ≤ q')%Z → (2 ^ 53 ≤ Z.shiftl q' e)%Z).
  { intros q' Hle. rewrite Z.shiftl_mul_pow2 by lia.
    assert (2 ^ 1 ≤ 2 ^ e)%Z by (apply Z.pow_le_mono_r; lia).
    change (2 ^ 53)%Z with (2 ^ 52 * 2 ^ 1)%Z.
    apply Z.mul_le_mono_nonneg; lia. }
  destruct (Z.ltb _ _); [apply Hq'; lia|].
  destruct (_ && _)%bool; apply Hq'; lia.
Qed.

(** A lifetime longer than the margin, added to a clock reading, expires
    later than the margin from now. *)
Lemma float_add_after_margin (t n x : Z) :
  (0 ≤ t < 2 ^ 53 - 300)%Z → (300 < n)%Z →
  float_add t n = Some x → (t < x - 300)%Z.
Proof.
  intros Ht Hn. unfold float_add, float_of_int.
  destruct (Z.ltb _ 1024); [|done]. intros [= <-].
  destruct (Z.lt_ge_cases n (2 ^ 53)) as [Hsmall|Hbig].
  - rewrite (round_double_exact n) by lia.
    destruct (Z.lt_ge_cases (t + n) (2 ^ 53)) as [Hs|Hs].
    + rewrite round_double_exact by lia. lia.
    + pose proof (round_double_ge (t + n) Hs). lia.
  - pose proof (round_double_ge n Hbig) as Hd.
    assert (Hs : (2 ^ 53 ≤ t + round_double n)%Z) by lia.
    pose proof (round_double_ge _ Hs). lia.
Qed.

End FloatFacts.

(* ===================================================================== *)
(** * Properties of the credential store                                  *)
(* ===================================================================== *)

Section StoreFacts.
Import TokenManager.

Lemma entries_save (self : token_manager) (f : cred_file) :
  entries (_save self f) = <[email_address self := _creds self]> (entries f).
Proof. destruct f; reflexivity. Qed.

Lemma load_entries (email : string) (f : cred_file) :
  _load email f = dict_get (entries f) email ∅.
Proof. destruct f; reflexivity. Qed.

(** C8. [clear] removes the entry of the instance's account and nothing else:
    every other account keeps its entry unchanged; when entries remain the
    file is rewritten with exactly them, and when none remains (the cleared
    account was the only one) the file is deleted. The instance's own
    credentials are emptied. *)
Theorem clear_removes_only_account (self : token_manager) (f : cred_file) :
  let account := email_address self in
  let remaining := delete account (entries f) in
  let f' := snd (clear self f) in
  entries f' = remaining
  ∧ entries f' !! account = None
  ∧ (∀ other, other ≠ account → entries f' !! other = entries f !! other)
  ∧ (remaining ≠ ∅ → f' = AllCreds remaining)
  ∧ (remaining = ∅ → f' = Missing)
  ∧ (∀ entry, f = AllCreds {[account := entry]} → f' = Missing)
  ∧ _creds (fst (clear self f)) = ∅.
Proof.
  intros account remaining f'.
  assert (Hent : entries f' = remaining).
  { subst f' remaining account. destruct f as [| |data]; simpl.
    - by rewrite delete_empty.
    - by rewrite delete_empty.
    - case_bool_decide as He; simpl; [by rewrite He | done]. }
  assert (Hf : (remaining ≠ ∅ → f' = AllCreds remaining)
               ∧ (remaining = ∅ → f' = Missing)).
  { subst f' remaining account. destruct f as [| |data]; simpl.
    - rewrite delete_empty. split; [congruence | done].
    - rewrite delete_empty. split; [congruence | done].
    - case_bool_decide as He; simpl; split; try done; congruence. }
  destruct Hf as [Hne He].
  repeat split; try done.
  - rewrite Hent. apply lookup_delete_eq.
  - intros other Hother. rewrite Hent. subst remaining.
    by rewrite lookup_delete_ne.
  - intros entry ->. apply He. subst remaining. simpl.
    apply delete_singleton_eq.
  - destruct f as [| |data]; simpl; try done. by case_bool_decide.
Qed.

(** C10. [save_basic] replaces the account's stored entry by exactly
    [{auth_type: "basic", password}]: the entry has these two keys and no
    other, so no OAuth2 field ([access_token], [refresh_token],
    [expires_at]) stored before survives; the instance holds the same
    credential, a later load returns it, and the other accounts are kept. *)
Theorem save_basic_replaces_entry (self : token_manager) (password : string)
  (f : cred_file) :
  let account := email_address self in
  let self' := fst (save_basic self password f) in
  let f' := snd (save_basic self password f) in
  ∃ entry,
    entries f' !! account = Some entry
    ∧ entry !! "auth_type" = Some (JStr "basic")
    ∧ entry !! "password" = Some (JStr password)
    ∧ (∀ k, k ≠ "auth_type" → k ≠ "password" → entry !! k = None)
    ∧ entry !! "access_token" = None
    ∧ entry !! "refresh_token" = None
    ∧ entry !! "expires_at" = None
    ∧ _creds self' = entry
    ∧ _load account f' = entry
    ∧ get_basic_password self' = JStr password
    ∧ (∀ other, other ≠ account → entries f' !! other = entries f !! other).
Proof.
  intros account self' f'.
  exists (<["auth_type" := JStr "basic"]> (<["password" := JStr password]> ∅)).
  assert (Hent : entries f' =
    <[account := <["auth_type" := JStr "basic"]>
                   (<["password" := JStr password]> ∅)]> (entries f)).
  { subst f' account. unfold save_basic. cbn [snd]. by rewrite entries_save. }
  repeat split.
  - rewrite Hent. apply lookup_insert_eq.
  - intros k H1 H2. by rewrite !lookup_insert_ne.
  - rewrite load_entries, Hent. unfold dict_get. by rewrite lookup_insert_eq.
  - intros other Hother. rewrite Hent. by rewrite lookup_insert_ne.
Qed.

End StoreFacts.

(* ===================================================================== *)
(** * Properties of the OAuth2 token lifecycle                            *)
(* ===================================================================== *)

Section OAuthFacts.
Import TokenManager.

Lemma refresh_token_posts (self : token_manager) (script : list reply)
  (w : world) :
  truthy (dict_get (_creds self) "refresh_token" JNull) = true →
  trace (world_after (_refresh_token self script w)) =
    (trace w ++ [Post token_url
                   (refresh_data self
                      (dict_get (_creds self) "refresh_token" JNull))])%list.
Proof.
  intros Hr. unfold _refresh_token. rewrite Hr. cbn [negb].
  destruct script as [|r script']; [reflexivity|].
  destruct (result r) as [|status body]; [reflexivity|].
  destruct (is_http_error status); [reflexivity|].
  destruct body as [[| | | | |token_data]|]; try reflexivity.
  destruct (token_data !! "access_token"); [|reflexivity].
  destruct (as_num _); [|reflexivity].
  destruct (float_add _ _); reflexivity.
Qed.

(** C3. With the margin of 300 seconds, an OAuth2 credential whose
    [expires_at] equals [now + margin] counts as expired: [is_token_expired]
    answers [True] and [get_access_token] goes to the refresh (which, given a
    refresh token, posts to the token endpoint) instead of returning the
    cached token. With [expires_at = now + margin + 1] the credential counts
    as valid and the cached access token is returned, nothing else
    changing. *)
Theorem refresh_margin_boundary (self : token_manager) (script : list reply)
  (w : world) :
  eq_str (auth_type self) "oauth2" = true →
  TOKEN_EXPIRY_MARGIN = 300
  ∧ (_creds self !! "expires_at" = Some (JNum (clock w + 300)) →
     is_token_expired self w = Ret true
     ∧ get_access_token self script w = _refresh_token self script w
     ∧ (truthy (dict_get (_creds self) "refresh_token" JNull) = true →
        trace (world_after (get_access_token self script w)) =
          (trace w ++ [Post token_url
                         (refresh_data self
                            (dict_get (_creds self) "refresh_token" JNull))])%list))
  ∧ (_creds self !! "expires_at" = Some (JNum (clock w + 300 + 1)) →
     is_token_expired self w = Ret false
     ∧ get_access_token self script w =
         Run (Ret (dict_get (_creds self) "access_token" JNull)) self w script).
Proof.
  intros Hauth. split; [reflexivity|]. split.
  - intros He.
    assert (Hget : get_access_token self script w = _refresh_token self script w).
    { unfold get_access_token. rewrite Hauth. cbn [negb].
      unfold dict_get at 1. rewrite He. cbn [as_num].
      unfold TOKEN_EXPIRY_MARGIN.
      replace (clock w + 300 - 300) with (clock w) by lia.
      by rewrite Z.ltb_irrefl. }
    split; [|split; [exact Hget|]].
    + unfold is_token_expired. rewrite Hauth. cbn [negb].
      unfold dict_get. rewrite He. cbn [as_num]. unfold TOKEN_EXPIRY_MARGIN.
      f_equal. apply Z.leb_le. lia.
    + intros Hr. rewrite Hget. by apply refresh_token_posts.
  - intros He. split.
    + unfold is_token_expired. rewrite Hauth. cbn [negb].
      unfold dict_get. rewrite He. cbn [as_num]. unfold TOKEN_EXPIRY_MARGIN.
      f_equal. apply Z.leb_gt. lia.
    + unfold get_access_token. rewrite Hauth. cbn [negb].
      unfold dict_get at 1. rewrite He. cbn [as_num].
      unfold TOKEN_EXPIRY_MARGIN.
      replace (clock w <? clock w + 300 + 1 - 300)%Z with true; [done|].
      symmetry. apply Z.ltb_lt. lia.
Qed.

Lemma refresh_token_failed (self : token_manager) (script : list reply)
  (w : world) :
  request_failed script = true →
  value (_refresh_token self script w) = Ret JNull
  ∧ self_after (_refresh_token self script w) = self
  ∧ file (world_after (_refresh_token self script w)) = file w.
Proof.
  intros Hf. unfold _refresh_token.
  destruct (negb (truthy _)); [done|].
  destruct script as [|r script']; [done|].
  unfold request_failed in Hf.
  destruct (result r) as [|status body]; [done|].
  rewrite Hf. done.
Qed.


(** ** The device-code poll loop *)



Lemma classify_slow_down (now : Z) (b : gmap string json) :
  b !! "access_token" = None →
  b !! "error" = Some (JStr "slow_down") →
  classify now (JObj b) = SlowDown.
Proof.
  intros Ha He. unfold classify, dict_get. by rewrite Ha, He.
Qed.


(** One iteration answered "slow_down": the next interval is 5 seconds
    longer. *)
Lemma poll_loop_slow_down (dc : gmap string json) (expires_at_poll : Z)
  (r : reply) (script : list reply) (interval device_code : json) (secs : Z)
  (self : token_manager) (w : world) :
  (clock w < expires_at_poll)%Z →
  as_num interval = Some secs → (0 ≤ secs)%Z →
  dc !! "device_code" = Some device_code →
  is_slow_down r →
  poll_loop dc expires_at_poll (r :: script) interval self w =
  poll_loop dc expires_at_poll script (JNum (secs + 5)) self
    (post token_url (device_token_data self device_code) r (sleep secs w)).
Proof.
  intros Hc Hi Hs Hd (status & b & Hr & Ha & He).
  cbn [poll_loop].
  apply Z.ltb_lt in Hc. rewrite Hc, Hi.
  replace (secs <? 0)%Z with false by (symmetry; apply Z.ltb_ge; lia).
  rewrite Hd, Hr. by rewrite (classify_slow_down _ b Ha He).
Qed.

(** One iteration answered with an access token: the loop sleeps, polls and
    returns the token. *)
Lemma poll_loop_success (dc : gmap string json) (expires_at_poll : Z)
  (r : reply) (script : list reply) (interval device_code access : json)
  (secs : Z) (self : token_manager) (w : world) :
  (clock w < expires_at_poll)%Z →
  as_num interval = Some secs → (0 ≤ secs)%Z →
  dc !! "device_code" = Some device_code →
  is_success r access →
  let run := poll_loop dc expires_at_poll (r :: script) interval self w in
  value run = Ret access
  ∧ script_after run = script
  ∧ trace (world_after run) =
      (trace w ++ [Sleep secs;
                   Post token_url (device_token_data self device_code)])%list.
Proof.
  intros Hc Hi Hs Hd (status & b & Hr & Ha & n & Hn & [d Hd']).
  cbn zeta. cbn [poll_loop].
  apply Z.ltb_lt in Hc. rewrite Hc, Hi.
  replace (secs <? 0)%Z with false by (symmetry; apply Z.ltb_ge; lia).
  rewrite Hd, Hr. unfold classify, float_add. rewrite Ha, Hn, Hd'. cbn.
  by rewrite <- app_assoc.
Qed.


End OAuthFacts.

(* ===================================================================== *)
(** * Properties of [FormParser]                                          *)
(* ===================================================================== *)

Section FormFacts.
Import FormParser.

Lemma feed_app (tags1 tags2 : list starttag) (self : form_parser) :
  feed self (tags1 ++ tags2) =
  match feed self tags1 with
  | Ret self1 => feed self1 tags2
  | Raise e => Raise e
  end.
Proof.
  revert self. induction tags1 as [|[tag a] tags1 IH]; intros self; [done|].
  cbn [feed app]. destruct (handle_starttag self tag a); [apply IH | done].
Qed.

(** What [handle_input] adds does not depend on what was there before. *)
Lemma handle_input_union (self : form_parser) (tag : string)
  (d : gmap string (option string)) :
  handle_input self tag d =
  {| action := action self;
     fields := fields (handle_input init tag d) ∪ fields self |}.
Proof.
  unfold handle_input.
  destruct (String.eqb tag "input" && _)%bool;
    [|cbn; rewrite (left_id_L ∅ (∪)); by destruct self].
  destruct (dict_get d "name" (Some "")) as [n|];
    [|cbn; rewrite (left_id_L ∅ (∪)); by destruct self].
  destruct (String.eqb n "");
    [cbn; rewrite (left_id_L ∅ (∪)); by destruct self|].
  cbn. f_equal. rewrite insert_empty. apply insert_union_singleton_l.
Qed.

Lemma handle_starttag_no_form (self : form_parser) (tag : string) (a : attrs) :
  tag ≠ "form" →
  handle_starttag self tag a = Ret (handle_input self tag (dict_of_attrs a)).
Proof.
  intros Hne. unfold handle_starttag, handle_form.
  apply String.eqb_neq in Hne. by rewrite Hne.
Qed.

(** Inside one form, the hidden fields pile up on top of the ones already
    recorded and the action stays. *)
Lemma feed_no_form (tags : list starttag) :
  no_form tags →
  ∀ self, ∃ q,
    feed init tags = Ret q
    ∧ feed self tags =
        Ret {| action := action self; fields := fields q ∪ fields self |}.
Proof.
  induction 1 as [|[tag a] tags Hne _ IH]; intros self.
  - exists init. split; [done|]. cbn. rewrite (left_id_L ∅ (∪)).
    by destruct self.
  - cbn [fst] in Hne. cbn [feed].
    rewrite !(handle_starttag_no_form _ tag a Hne).
    destruct (IH (handle_input init tag (dict_of_attrs a))) as (q1 & Hq1 & Hi).
    destruct (IH (handle_input self tag (dict_of_attrs a))) as (q2 & Hq2 & Hs).
    rewrite Hq1 in Hq2. injection Hq2 as <-.
    eexists. split; [exact Hi|]. rewrite Hs. cbn [fields action]. f_equal.
    rewrite (handle_input_union self). cbn [fields action].
    by rewrite (assoc_L (∪)).
Qed.

Lemma handle_starttag_post_form (self : form_parser) (t : starttag) :
  is_post_form t = true →
  handle_starttag self (fst t) (snd t) =
    Ret {| action := form_action t; fields := fields self |}.
Proof.
  destruct t as [tag a]. unfold is_post_form, form_action. cbn [fst snd].
  intros H. apply andb_true_iff in H as [Htag Hm].
  unfold handle_starttag, handle_form. rewrite Htag.
  destruct (dict_get (dict_of_attrs a) "method" (Some "")) as [m|]; [|done].
  rewrite Hm. unfold handle_input.
  apply String.eqb_eq in Htag. subst tag. done.
Qed.

(** C1 (as the code has it). On a page with two sibling POST forms, opening
    the second form replaces the tracked action and leaves the hidden-field
    set as it is: the extracted action is the later form's, and the
    hidden-field mapping is the union of both forms' hidden fields, an input
    of the later form winning over an earlier one of the same name. Every
    hidden field of the first form is still there after the second. *)
Theorem sibling_forms_accumulate (form1 form2 : starttag)
  (inputs1 inputs2 : list starttag) :
  is_post_form form1 = true → is_post_form form2 = true →
  no_form inputs1 → no_form inputs2 →
  ∃ q1 q2 p,
    feed init inputs1 = Ret q1
    ∧ feed init inputs2 = Ret q2
    ∧ feed init (form1 :: inputs1 ++ form2 :: inputs2) = Ret p
    ∧ action p = form_action form2
    ∧ fields p = fields q2 ∪ fields q1
    ∧ (∀ name, is_Some (fields q1 !! name) → is_Some (fields p !! name))
    ∧ (∀ name, fields q2 !! name = None →
               fields p !! name = fields q1 !! name).
Proof.
  intros Hf1 Hf2 Hn1 Hn2.
  destruct (feed_no_form inputs1 Hn1
              {| action := form_action form1; fields := ∅ |})
    as (q1 & Hq1 & Hrun1).
  destruct (feed_no_form inputs2 Hn2
              {| action := form_action form2; fields := fields q1 |})
    as (q2 & Hq2 & Hrun2).
  exists q1, q2, {| action := form_action form2;
                    fields := fields q2 ∪ fields q1 |}.
  split; [exact Hq1|]. split; [exact Hq2|]. split; [|split; [done|split; [done|]]].
  - destruct form1 as [tag1 a1]. cbn [feed].
    pose proof (handle_starttag_post_form init (tag1, a1) Hf1) as H1.
    cbn [fst snd] in H1. rewrite H1. cbn [fields init].
    rewrite feed_app, Hrun1. cbn [fields action].
    rewrite (right_id_L ∅ (∪)).
    destruct form2 as [tag2 a2]. cbn [feed].
    pose proof (handle_starttag_post_form
                  {| action := form_action (tag1, a1); fields := fields q1 |}
                  (tag2, a2) Hf2) as H2.
    cbn [fst snd] in H2. rewrite H2. cbn [fields]. exact Hrun2.
  - cbn [fields]. split.
    + intros name [v Hv]. rewrite lookup_union.
      rewrite Hv. destruct (fields q2 !! name); by eexists.
    + intros name Hnone. rewrite lookup_union, Hnone.
      by destruct (fields q1 !! name).
Qed.

End FormFacts.

(* ===================================================================== *)
(** * Base64: decoding an encoding gives the payload back                 *)
(* ===================================================================== *)

Section Base64Facts.
Import Base64.

Lemma range_forallb (P : Z → bool) (n : nat) :
  forallb P (range n) = true → ∀ v, (0 ≤ v < Z.of_nat n)%Z → P v = true.
Proof.
  intros H v Hv. rewrite forallb_forall in H. apply H.
  unfold range. apply in_map_iff. exists (Z.to_nat v). split; [lia|].
  apply in_seq. lia.
Qed.

Lemma check_table_all : forallb check_table (range 64) = true.
Proof. vm_compute. reflexivity. Qed.

Lemma check_first_all :
  forallb (fun a => forallb (check_first a) (range 256)) (range 256) = true.
Proof. vm_compute. reflexivity. Qed.

Lemma check_last_all :
  forallb (fun b => forallb (check_last b) (range 256)) (range 256) = true.
Proof. vm_compute. reflexivity. Qed.

Lemma code_byte (c : ascii) : (0 ≤ code c < 256)%Z.
Proof.
  unfold code. pose proof (N_ascii_bounded c). lia.
Qed.

Lemma chr_code (c : ascii) : chr (code c) = c.
Proof. unfold chr, code. rewrite N2Z.id. apply ascii_N_embedding. Qed.

Lemma check_first_bytes (a b : Z) :
  (0 ≤ a < 256)%Z → (0 ≤ b < 256)%Z → check_first a b = true.
Proof.
  intros Ha Hb.
  pose proof (range_forallb _ _ check_first_all a Ha) as H. cbv beta in H.
  exact (range_forallb _ _ H b Hb).
Qed.

Lemma check_last_bytes (b c : Z) :
  (0 ≤ b < 256)%Z → (0 ≤ c < 256)%Z → check_last b c = true.
Proof.
  intros Hb Hc.
  pose proof (range_forallb _ _ check_last_all b Hb) as H. cbv beta in H.
  exact (range_forallb _ _ H c Hc).
Qed.

(** A character of the alphabet is a data character for the decoder. *)
Lemma a2b_loop_data (v : Z) (rest : string) (st : a2b_state) :
  is_sextet v = true →
  a2b_loop (String (chr (table_b2a v)) rest) st = a2b_loop rest (a2b_data v st).
Proof.
  intros Hv. unfold is_sextet in Hv. apply andb_true_iff in Hv as [H0 H64].
  apply Z.leb_le in H0. apply Z.ltb_lt in H64.
  pose proof (range_forallb _ _ check_table_all v ltac:(simpl; lia)) as Ht.
  unfold check_table in Ht. apply andb_true_iff in Ht as [Hpad Htab].
  cbn [a2b_loop]. apply negb_true_iff in Hpad. rewrite Hpad.
  destruct (table_a2b (code (chr (table_b2a v)))) as [x|]; [|done].
  apply Z.eqb_eq in Htab. by subst x.
Qed.

Lemma a2b_data_0 (v : Z) (st : a2b_state) :
  quad_pos st = 0 →
  a2b_data v st =
    {| quad_pos := 1; leftchar := v; pads := 0; bin_data := bin_data st |}.
Proof. intros H. unfold a2b_data. by rewrite H. Qed.

Lemma a2b_data_1 (v : Z) (st : a2b_state) :
  quad_pos st = 1 →
  a2b_data v st =
    {| quad_pos := 2; leftchar := Z.land v 15; pads := 0;
       bin_data :=
         String (chr (Z.lor (Z.shiftl (leftchar st) 2) (Z.shiftr v 4)))
                (bin_data st) |}.
Proof. intros H. unfold a2b_data. by rewrite H. Qed.

Lemma a2b_data_2 (v : Z) (st : a2b_state) :
  quad_pos st = 2 →
  a2b_data v st =
    {| quad_pos := 3; leftchar := Z.land v 3; pads := 0;
       bin_data :=
         String (chr (Z.lor (Z.shiftl (leftchar st) 4) (Z.shiftr v 2)))
                (bin_data st) |}.
Proof. intros H. unfold a2b_data. by rewrite H. Qed.

Lemma a2b_data_3 (v : Z) (st : a2b_state) :
  quad_pos st = 3 →
  a2b_data v st =
    {| quad_pos := 0; leftchar := 0; pads := 0;
       bin_data :=
         String (chr (Z.lor (Z.shiftl (leftchar st) 6) v)) (bin_data st) |}.
Proof. intros H. unfold a2b_data. by rewrite H. Qed.

Lemma rev_onto_rev_onto (s acc t : string) :
  rev_onto t (rev_onto acc s) = rev_onto (String.append s t) acc.
Proof.
  revert acc. induction s as [|c s IH]; intros acc; [done|].
  change (rev_onto t (rev_onto (String c acc) s) =
          rev_onto (String.append s t) (String c acc)).
  apply IH.
Qed.

Lemma append_empty_r (s : string) : String.append s "" = s.
Proof.
  induction s as [|c s IH]; [done|].
  change (String c (String.append s "") = String c s). by rewrite IH.
Qed.

Lemma rev_onto_involutive (s : string) : rev_onto "" (rev_onto "" s) = s.
Proof. rewrite rev_onto_rev_onto. cbn [rev_onto]. apply append_empty_r. Qed.

(** Four characters that encode three bytes decode to these bytes. *)
Lemma a2b_loop_enc3 (a b c : ascii) (rest : string) (st : a2b_state) :
  quad_pos st = 0 →
  a2b_loop (enc3 (code a) (code b) (code c) rest) st =
  a2b_loop rest
    {| quad_pos := 0; leftchar := 0; pads := 0;
       bin_data := String c (String b (String a (bin_data st))) |}.
Proof.
  intros Hq.
  pose proof (check_first_bytes _ _ (code_byte a) (code_byte b)) as Hf.
  pose proof (check_last_bytes _ _ (code_byte b) (code_byte c)) as Hl.
  unfold check_first in Hf. unfold check_last in Hl.
  do 4 (apply andb_true_iff in Hf as [Hf ?]).
  do 4 (apply andb_true_iff in Hl as [Hl ?]).
  repeat match goal with H : Z.eqb _ _ = true |- _ => apply Z.eqb_eq in H end.
  unfold enc3.
  change (Z.shiftr (code a) 2) with (sextet1 (code a)).
  change (Z.lor (Z.shiftl (Z.land (code a) 3) 4) (Z.shiftr (code b) 4))
    with (sextet2 (code a) (code b)).
  change (Z.lor (Z.shiftl (Z.land (code b) 15) 2) (Z.shiftr (code c) 6))
    with (sextet3 (code b) (code c)).
  change (Z.land (code c) 63) with (sextet4 (code c)).
  rewrite !a2b_loop_data by assumption.
  f_equal. rewrite (a2b_data_0 _ st Hq).
  rewrite (a2b_data_1 (sextet2 (code a) (code b))) by reflexivity.
  cbn [leftchar bin_data].
  rewrite (a2b_data_2 (sextet3 (code b) (code c))) by reflexivity.
  cbn [leftchar bin_data].
  rewrite (a2b_data_3 (sextet4 (code c))) by reflexivity.
  cbn [leftchar bin_data].
  rewrite H1, H0, H5, H4. by rewrite !chr_code.
Qed.

Lemma a2b_loop_pad_at_3 (l : Z) (out rest : string) :
  a2b_loop (String (chr BASE64_PAD) rest)
    {| quad_pos := 3; leftchar := l; pads := 0; bin_data := out |} =
  Some (rev_onto "" out).
Proof. reflexivity. Qed.

Lemma a2b_loop_pads_at_2 (l : Z) (out rest : string) :
  a2b_loop (String (chr BASE64_PAD) (String (chr BASE64_PAD) rest))
    {| quad_pos := 2; leftchar := l; pads := 0; bin_data := out |} =
  Some (rev_onto "" out).
Proof. reflexivity. Qed.

(** Two bytes and one pad. *)
Lemma a2b_loop_enc2 (a b : ascii) (st : a2b_state) :
  quad_pos st = 0 →
  a2b_loop (enc2 (code a) (code b)) st =
  Some (rev_onto "" (String b (String a (bin_data st)))).
Proof.
  intros Hq.
  pose proof (check_first_bytes _ _ (code_byte a) (code_byte b)) as Hf.
  pose proof (check_last_bytes (code b) 0 (code_byte b) ltac:(lia)) as Hl.
  unfold check_first in Hf. unfold check_last in Hl.
  do 4 (apply andb_true_iff in Hf as [Hf ?]).
  do 4 (apply andb_true_iff in Hl as [Hl ?]).
  repeat match goal with H : Z.eqb _ _ = true |- _ => apply Z.eqb_eq in H end.
  unfold enc2.
  change (Z.shiftr (code a) 2) with (sextet1 (code a)).
  change (Z.lor (Z.shiftl (Z.land (code a) 3) 4) (Z.shiftr (code b) 4))
    with (sextet2 (code a) (code b)).
  rewrite <- H3.
  rewrite !a2b_loop_data by assumption.
  rewrite (a2b_data_0 _ st Hq).
  rewrite (a2b_data_1 (sextet2 (code a) (code b))) by reflexivity.
  cbn [leftchar bin_data].
  rewrite (a2b_data_2 (sextet3 (code b) 0)) by reflexivity.
  cbn [leftchar bin_data].
  rewrite a2b_loop_pad_at_3.
  rewrite H1, H0, H5. by rewrite !chr_code.
Qed.

(** One byte and two pads. *)
Lemma a2b_loop_enc1 (a : ascii) (st : a2b_state) :
  quad_pos st = 0 →
  a2b_loop (enc1 (code a)) st = Some (rev_onto "" (String a (bin_data st))).
Proof.
  intros Hq.
  pose proof (check_first_bytes (code a) 0 (code_byte a) ltac:(lia)) as Hf.
  unfold check_first in Hf.
  do 4 (apply andb_true_iff in Hf as [Hf ?]).
  repeat match goal with H : Z.eqb _ _ = true |- _ => apply Z.eqb_eq in H end.
  unfold enc1.
  change (Z.shiftr (code a) 2) with (sextet1 (code a)).
  rewrite <- H.
  rewrite !a2b_loop_data by assumption.
  rewrite (a2b_data_0 _ st Hq).
  rewrite (a2b_data_1 (sextet2 (code a) 0)) by reflexivity.
  cbn [leftchar bin_data].
  rewrite a2b_loop_pads_at_2.
  rewrite H1. by rewrite chr_code.
Qed.

(** Induction over a byte string three bytes at a time. *)
Lemma string_ind3 (P : string → Prop) :
  P "" →
  (∀ a, P (String a "")) →
  (∀ a b, P (String a (String b ""))) →
  (∀ a b c rest, P rest → P (String a (String b (String c rest)))) →
  ∀ s, P s.
Proof.
  intros H0 H1 H2 H3 s.
  enough (P s ∧ (∀ a, P (String a s)) ∧ (∀ a b, P (String a (String b s))))
    as [H _]; [exact H|].
  induction s as [|c s (IH0 & IH1 & IH2)].
  - repeat split; auto.
  - repeat split; auto.
Qed.

(** The decoder gives back the bytes of every encoding. *)
Lemma a2b_loop_b64encode (payload : string) :
  ∀ st, quad_pos st = 0 →
    a2b_loop (b64encode payload) st =
    Some (rev_onto "" (rev_onto (bin_data st) payload)).
Proof.
  induction payload as [|a|a b|a b c rest IH] using string_ind3; intros st Hq.
  - cbn [b64encode a2b_loop rev_onto]. by rewrite Hq.
  - cbn [b64encode]. by rewrite a2b_loop_enc1.
  - cbn [b64encode]. by rewrite a2b_loop_enc2.
  - cbn [b64encode]. rewrite a2b_loop_enc3 by done. by rewrite IH.
Qed.

Lemma b64decode_b64encode (payload : string) :
  b64decode (b64encode payload) = Some payload.
Proof.
  unfold b64decode. rewrite a2b_loop_b64encode by done.
  cbn [bin_data a2b_init]. by rewrite rev_onto_involutive.
Qed.

(** An encoding has a length that is a multiple of 4. *)
Lemma length_b64encode (payload : string) :
  (Z.of_nat (String.length (b64encode payload)) mod 4 = 0)%Z.
Proof.
  induction payload as [|a|a b|a b c rest IH] using string_ind3; try done.
  cbn [b64encode]. unfold enc3. cbn [String.length].
  rewrite !Nat2Z.inj_succ.
  replace (Z.succ (Z.succ (Z.succ (Z.succ
             (Z.of_nat (String.length (b64encode rest)))))))
    with (Z.of_nat (String.length (b64encode rest)) + 1 * 4)%Z by lia.
  by rewrite Z_mod_plus_full.
Qed.

End Base64Facts.

(* ===================================================================== *)
(** * Properties of the token recovery (padding, decoding, split)         *)
(* ===================================================================== *)

Section RecoveryFacts.
Import Base64 SSO.

Lemma length_append (s1 s2 : string) :
  String.length (String.append s1 s2) =
  (String.length s1 + String.length s2)%nat.
Proof.
  induction s1 as [|c s1 IH]; [done|].
  change (S (String.length (String.append s1 s2)) =
          S (String.length s1 + String.length s2)%nat).
  by rewrite IH.
Qed.

Lemma length_str_repeat (c : ascii) (n : nat) :
  String.length (str_repeat (String c "") n) = n.
Proof.
  induction n as [|n IH]; [done|].
  cbn [str_repeat]. rewrite length_append. cbn [String.length]. by rewrite IH.
Qed.

(** What the padding step appends, by the length of its input modulo 4. *)
Lemma restore_padding_cases (raw : string) :
  let len := Z.of_nat (String.length raw) in
  (len mod 4 = 0 ∧ restore_padding raw = raw)%Z
  ∨ (len mod 4 = 1 ∧ restore_padding raw = String.append raw "===")%Z
  ∨ (len mod 4 = 2 ∧ restore_padding raw = String.append raw "==")%Z
  ∨ (len mod 4 = 3 ∧ restore_padding raw = String.append raw "=")%Z.
Proof.
  intros len. unfold restore_padding. fold len.
  pose proof (Z.mod_pos_bound len 4 ltac:(lia)) as Hb.
  assert (len mod 4 = 0 ∨ len mod 4 = 1 ∨ len mod 4 = 2 ∨ len mod 4 = 3)%Z
    as [H|[H|[H|H]]] by lia; rewrite H; cbn; auto.
Qed.

Lemma restore_padding_appends (raw : string) :
  ∃ n : nat,
    restore_padding raw = String.append raw (str_repeat "=" n)
    ∧ (n ≤ 3)%nat
    ∧ ((Z.of_nat (String.length raw) + Z.of_nat n) mod 4 = 0)%Z.
Proof.
  destruct (restore_padding_cases raw) as [[H E]|[[H E]|[[H E]|[H E]]]];
    cbv zeta in *.
  - exists 0%nat. rewrite E. cbn [str_repeat]. rewrite append_empty_r.
    repeat split; [lia|]. by rewrite Z.add_0_r.
  - exists 3%nat. rewrite E. repeat split; [lia|].
    rewrite Z.add_mod, H by lia. done.
  - exists 2%nat. rewrite E. repeat split; [lia|].
    rewrite Z.add_mod, H by lia. done.
  - exists 1%nat. rewrite E. repeat split; [lia|].
    rewrite Z.add_mod, H by lia. done.
Qed.

(** Two pad counts below 4 that both complete the same length agree. *)
Lemma pad_count_unique (len : Z) (n m : nat) :
  (n ≤ 3)%nat → (m ≤ 3)%nat →
  ((len + Z.of_nat n) mod 4 = 0)%Z → ((len + Z.of_nat m) mod 4 = 0)%Z →
  n = m.
Proof.
  intros Hn Hm H1 H2.
  apply Z.mod_divide in H1 as [q1 H1]; [|lia].
  apply Z.mod_divide in H2 as [q2 H2]; [|lia].
  lia.
Qed.

(** Restoring the padding of an encoding stripped of trailing [=] gives the
    encoding back. *)
Lemma restore_stripped (payload raw : string) (k : nat) :
  (k ≤ 3)%nat →
  String.append raw (str_repeat "=" k) = b64encode payload →
  restore_padding raw = b64encode payload.
Proof.
  intros Hk Henc.
  destruct (restore_padding_appends raw) as (n & E & Hn & Hmod).
  assert (Hlen : ((Z.of_nat (String.length raw) + Z.of_nat k) mod 4 = 0)%Z).
  { rewrite <- Nat2Z.inj_add, <- (length_str_repeat "=" k) at 1.
    rewrite <- length_append, Henc. apply length_b64encode. }
  assert (n = k) as -> by
    (by apply (pad_count_unique (Z.of_nat (String.length raw)))).
  by rewrite E.
Qed.

(** C9. The padding step appends [n <= 3] characters [=], exactly as many as
    make the length a multiple of 4 (none when it already is one; no other
    count below 4 does). Hence for every payload and every text obtained
    from its base64 encoding by stripping 0, 1, 2 or 3 trailing [=],
    restoring the padding gives the encoding back and decoding it recovers
    the payload. *)
Theorem padding_restoration_round_trip :
  (∀ raw, ∃ n : nat,
      restore_padding raw = String.append raw (str_repeat "=" n)
      ∧ (n ≤ 3)%nat
      ∧ (Z.of_nat (String.length (restore_padding raw)) mod 4 = 0)%Z
      ∧ ((Z.of_nat (String.length raw) mod 4 = 0)%Z → n = 0%nat)
      ∧ (∀ m : nat, (m ≤ 3)%nat →
           ((Z.of_nat (String.length raw) + Z.of_nat m) mod 4 = 0)%Z → m = n))
  ∧ (∀ payload raw (k : nat),
      (k ≤ 3)%nat →
      String.append raw (str_repeat "=" k) = b64encode payload →
      restore_padding raw = b64encode payload
      ∧ b64decode (restore_padding raw) = Some payload).
Proof.
  split.
  - intros raw. destruct (restore_padding_appends raw) as (n & E & Hn & Hmod).
    exists n. split; [exact E|]. split; [exact Hn|]. split; [|split].
    + rewrite E, length_append, length_str_repeat, Nat2Z.inj_add. exact Hmod.
    + intros H0. apply (pad_count_unique (Z.of_nat (String.length raw)));
        [exact Hn|lia|exact Hmod|]. by rewrite Z.add_0_r.
    + intros m Hm Hmm.
      by apply (pad_count_unique (Z.of_nat (String.length raw))).
  - intros payload raw k Hk Henc.
    pose proof (restore_stripped payload raw k Hk Henc) as Hr.
    split; [exact Hr|]. rewrite Hr. apply b64decode_b64encode.
Qed.

(** ** The split of the decoded text *)

Lemma split_aux_nonempty (sep : string) (s : string) :
  ∀ skip cur, (1 ≤ List.length (split_aux sep skip cur s))%nat.
Proof.
  induction s as [|c s IH]; intros skip cur; cbn [split_aux]; [cbn; lia|].
  destruct skip; [|apply IH].
  destruct (String.prefix sep (String c s)); [cbn; lia|apply IH].
Qed.

Lemma contains_cons (needle : string) (c : ascii) (rest : string) :
  contains needle (String c rest) =
  if String.prefix needle (String c rest) then true else contains needle rest.
Proof. reflexivity. Qed.

(** There are two parts or more exactly when the delimiter occurs. *)
Lemma split_parts_contains (s : string) :
  ∀ cur, (2 ≤ List.length (split_aux ":::" 0 cur s))%nat
         ↔ contains ":::" s = true.
Proof.
  induction s as [|c s IH]; intros cur.
  - cbn. split; [lia|done].
  - rewrite contains_cons. cbn [split_aux].
    destruct (String.prefix ":::" (String c s)); [|apply IH].
    cbn [List.length]. split; [done|]. intros _.
    pose proof (split_aux_nonempty ":::" s
                  (Nat.pred (String.length ":::")) "") as H. lia.
Qed.

Lemma split_aux_no_colon (p : string) :
  no_colon p = true →
  ∀ cur rest,
    split_aux ":::" 0 cur (String.append p rest) =
    split_aux ":::" 0 (rev_onto cur p) rest.
Proof.
  induction p as [|c p IH]; intros Hp cur rest; [done|].
  cbn [no_colon] in Hp. apply andb_true_iff in Hp as [Hc Hp].
  change (String.append (String c p) rest)
    with (String c (String.append p rest)).
  cbn [split_aux rev_onto].
  replace (String.prefix ":::" (String c (String.append p rest))) with false.
  - by apply IH.
  - cbn [String.prefix]. destruct (ascii_dec ":" c) as [<-|]; [done|done].
Qed.

Lemma split_aux_delimiter (cur rest : string) :
  split_aux ":::" 0 cur (String.append ":::" rest) =
  rev_onto "" cur :: split_aux ":::" 0 "" rest.
Proof.
  change (String.append ":::" rest)
    with (String ":" (String ":" (String ":" rest))).
  assert (Hp : String.prefix ":::" (String ":" (String ":" (String ":" rest)))
               = true).
  { cbn [String.prefix]. destruct (ascii_dec ":" ":"); [|done].
    by destruct rest. }
  cbn [split_aux]. rewrite Hp. reflexivity.
Qed.

Lemma split_aux_last (t : string) :
  no_colon t = true → split_aux ":::" 0 "" t = [t].
Proof.
  intros Ht. rewrite <- (append_empty_r t) at 1.
  rewrite split_aux_no_colon by done. cbn [split_aux].
  by rewrite rev_onto_involutive.
Qed.

Lemma split_two (p t : string) :
  no_colon p = true → no_colon t = true →
  split ":::" (String.append p (String.append ":::" t)) = [p; t].
Proof.
  intros Hp Ht. unfold split.
  rewrite split_aux_no_colon, split_aux_delimiter by done.
  by rewrite rev_onto_involutive, split_aux_last.
Qed.

Lemma split_three (p t pt : string) :
  no_colon p = true → no_colon t = true → no_colon pt = true →
  split ":::" (String.append p (String.append ":::"
                 (String.append t (String.append ":::" pt)))) = [p; t; pt].
Proof.
  intros Hp Ht Hpt. unfold split.
  rewrite split_aux_no_colon, split_aux_delimiter by done.
  rewrite split_aux_no_colon, split_aux_delimiter by done.
  by rewrite !rev_onto_involutive, split_aux_last.
Qed.

(** C4. The decoded text is split on [":::"]: fewer than two parts (which
    is when the delimiter does not occur) end the flow with [MalformedToken],
    two or more give the second part. So ["P:::T"] and ["P:::T:::PT"] yield
    [T], for the literal texts and for any passport, token and private token
    free of colons, and ["P"] fails with [MalformedToken]. *)
Theorem token_of_decoded_split (decoded : string) (s : session) :
  ((List.length (split ":::" decoded) < 2)%nat →
   token_of_decoded decoded s = (Raise (SystemExit MalformedToken), s))
  ∧ ((2 ≤ List.length (split ":::" decoded))%nat →
     token_of_decoded decoded s = (Ret (nth 1 (split ":::" decoded) ""), s))
  ∧ ((List.length (split ":::" decoded) < 2)%nat
     ↔ contains ":::" decoded = false)
  ∧ token_of_decoded "P:::T" s = (Ret "T", s)
  ∧ token_of_decoded "P:::T:::PT" s = (Ret "T", s)
  ∧ token_of_decoded "P" s = (Raise (SystemExit MalformedToken), s)
  ∧ (∀ p t, no_colon p = true → no_colon t = true →
       token_of_decoded (String.append p (String.append ":::" t)) s
       = (Ret t, s))
  ∧ (∀ p t pt, no_colon p = true → no_colon t = true → no_colon pt = true →
       token_of_decoded
         (String.append p (String.append ":::"
            (String.append t (String.append ":::" pt)))) s
       = (Ret t, s)).
Proof.
  split; [|split; [|split; [|split; [|split; [|split; [|split]]]]]].
  - intros H. unfold token_of_decoded.
    apply Nat.ltb_lt in H. by rewrite H.
  - intros H. unfold token_of_decoded.
    apply Nat.ltb_ge in H. by rewrite H.
  - unfold split. pose proof (split_parts_contains decoded "") as H.
    destruct (contains ":::" decoded); split; intros; try done.
    + apply proj2 in H. specialize (H eq_refl). lia.
    + assert (¬ (2 ≤ List.length (split_aux ":::" 0 "" decoded))%nat) as Hn
        by (intros Hge; by apply H in Hge).
      lia.
  - reflexivity.
  - reflexivity.
  - reflexivity.
  - intros p t Hp Ht. unfold token_of_decoded. by rewrite split_two.
  - intros p t pt Hp Ht Hpt. unfold token_of_decoded. by rewrite split_three.
Qed.

End RecoveryFacts.

(* ===================================================================== *)
(** * Properties of the SAML bridge                                       *)
(* ===================================================================== *)

Section FlowFacts.
Import SSO FlowViews.

Variable json_loads : string → option json.
Variable urljoin : string → string → string.
Variable html_starttags : string → FormParser.parsing.
Variable decode_replace : string → string.

(** C6 (as the code has it). When the credential-type answer carries a
    federation-redirect field whose value is truthy (a non-empty URL), the
    flow ends with [FederationNotSupported] right after the credential-type
    request: the run issued the login request and the credential-type
    request and nothing else, and neither carries the password. *)
Theorem federation_redirect_stops_flow (username password : string)
  (s : session) (r r2 : response) (rest : list (option response))
  (fed_url : json) :
  script s = Some r :: Some r2 :: rest →
  login_page_ok json_loads r →
  federation_redirect r2 fed_url →
  truthy fed_url = true →
  ∃ flow_token,
    let issued :=
      [http_get login_url;
       http_post credential_type_url
         (JsonData (credential_type_json username flow_token)) true] in
    refresh_token json_loads urljoin html_starttags decode_replace
      username password s
    = (Raise (SystemExit FederationNotSupported),
       {| script := rest; sent := (sent s ++ issued)%list |})
    ∧ forallb (fun req => negb (carries_password req)) issued = true.
Proof.
  intros Hs (Hurl & blob & config & Hblob & Hloads & [flow_token Hft])
         (cred & credentials & Hjson & Hcred & Hfed) Htruthy.
  exists flow_token. cbv zeta. split; [|reflexivity].
  unfold refresh_token, bind, send. rewrite Hs, Hurl. cbn [negb].
  rewrite Hblob. unfold loads. rewrite Hloads. unfold ret, lift, getitem.
  rewrite Hft. cbn [script sent]. rewrite Hjson.
  unfold get. unfold dict_get at 1. rewrite Hcred.
  unfold dict_get at 1. rewrite Hfed. rewrite Htruthy.
  unfold err, raise. by rewrite <- app_assoc.
Qed.

Lemma launch_sends (s : session) :
  sent (snd (launch decode_replace s)) =
  (sent s ++ [http_post launch_url (FormData launch_form) false])%list.
Proof.
  unfold launch, bind, send.
  destruct (script s) as [|[r6|] rest]; [done| |done].
  cbn [sent snd].
  destruct (negb _); [done|].
  destruct (search_token _); [|done].
  destruct (Base64.b64decode _); [|done].
  unfold token_of_decoded. by destruct (Nat.ltb _ _).
Qed.

(** The token exchange answered by a redirect whose [token] parameter is a
    base64 encoding, possibly stripped of trailing [=]: the flow ends with
    the split of the decoded payload. *)
Lemma launch_recovers_token (s : session) (r6 : response)
  (rest : list (option response)) (loc raw payload : string) (k : nat) :
  script s = Some r6 :: rest →
  (status_code r6 = 301 ∨ status_code r6 = 302 ∨ status_code r6 = 303) →
  location r6 = Some loc →
  search_token loc = Some raw →
  (k ≤ 3)%nat →
  String.append raw (str_repeat "=" k) = Base64.b64encode payload →
  launch decode_replace s =
  token_of_decoded (decode_replace payload)
    {| script := rest;
       sent := (sent s ++ [http_post launch_url (FormData launch_form) false])%list |}.
Proof.
  intros Hs Hst Hloc Htok Hk Henc.
  unfold launch, bind, send. rewrite Hs.
  replace (negb _) with false
    by (destruct Hst as [->|[->| ->]]; reflexivity).
  rewrite Hloc. cbn [from_option id]. rewrite Htok.
  rewrite (restore_stripped payload raw k Hk Henc).
  by rewrite b64decode_b64encode.
Qed.

(** A sign-in without interrupt and without SAML form: the flow issues the
    login, credential-type and password requests and arrives at the
    checkpoint with the URL of the password answer. *)
Lemma plain_sign_in_reaches_checkpoint (username password : string)
  (s : session) (r r2 r3 : response) (rest : list (option response))
  (cred : gmap string json) (post_path : string) :
  script s = Some r :: Some r2 :: Some r3 :: rest →
  contains "login.microsoftonline.com" (url r) = true →
  (∃ blob config flow_token,
      search_config (text r) = Some blob
      ∧ json_loads blob = Some (JObj config)
      ∧ config !! "sFT" = Some flow_token
      ∧ config !! "urlPost" = Some (JStr post_path)) →
  json_body r2 = Some (JObj cred) →
  cred !! "Credentials" = None →
  contains "AADSTS" (text r3) = false →
  contains "KmsiInterrupt" (text r3) = false →
  contains "StaySignedIn" (text r3) = false →
  contains "SAMLResponse" (text r3) = false →
  ∃ issued,
    refresh_token json_loads urljoin html_starttags decode_replace
      username password s
    = reentry_checkpoint decode_replace (url r3)
        {| script := rest; sent := (sent s ++ issued)%list |}
    ∧ List.length issued = 3%nat
    ∧ existsb carries_password issued = true.
Proof.
  intros Hs Hurl (blob & config & flow_token & Hblob & Hloads & Hft & Hpost)
         Hjson Hcred Haad Hkmsi Hstay Hsaml.
  exists [http_get login_url;
          http_post credential_type_url
            (JsonData (credential_type_json username flow_token)) true;
          http_post
            (if startswith "http" post_path then post_path
             else urljoin (String.append MS_BASE "/") post_path)
            (FormData
               (password_form username password
                  (dict_get config "canary" (JStr ""))
                  (dict_get config "sCtx" (JStr ""))
                  (dict_get cred "FlowToken" flow_token))) true].
  split; [|split; reflexivity].
  unfold refresh_token, bind, send. rewrite Hs, Hurl. cbn [negb].
  rewrite Hblob. unfold loads. rewrite Hloads. unfold ret, lift, getitem.
  rewrite Hft. cbn [script sent]. rewrite Hjson.
  unfold get. unfold dict_get at 1. rewrite Hcred.
  unfold dict_get at 1. rewrite lookup_empty. cbn [truthy String.eqb negb].
  unfold dict_get at 1. rewrite Hpost. unfold resolve, ret.
  destruct (startswith "http" post_path);
    cbn [script sent]; rewrite Haad;
    unfold stay_signed_in; rewrite Hkmsi, Hstay; cbn [orb]; unfold ret;
    cbn [fst snd]; unfold saml_post; rewrite Hsaml; unfold ret; cbn [fst snd];
    by rewrite <- !app_assoc.
Qed.

(** The flow up to the answer to the password submission. *)
Lemma reaches_password_answer (username password : string) (s : session)
  (r r2 r3 : response) (rest : list (option response))
  (config cred : gmap string json) (post_path : string) :
  script s = Some r :: Some r2 :: Some r3 :: rest →
  ready_for_password json_loads r r2 config cred post_path →
  refresh_token json_loads urljoin html_starttags decode_replace
    username password s
  = after_password json_loads urljoin html_starttags decode_replace r3
      {| script := rest;
         sent := (sent s ++ sign_in_requests urljoin username password
                              config cred post_path)%list |}.
Proof.
  intros Hs (Hurl & (blob & Hblob & Hloads) & [ft Hft] & Hpost & Hjson
             & credentials & Hcreds & Hfed).
  assert (Hsft : dict_get config "sFT" JNull = ft)
    by (unfold dict_get; by rewrite Hft).
  unfold refresh_token, after_password, sign_in_requests, bind, send.
  rewrite !Hsft. rewrite Hs, Hurl. cbn [negb].
  rewrite Hblob. unfold loads. rewrite Hloads. unfold ret, lift, getitem.
  rewrite Hft. cbn [script sent]. rewrite Hjson.
  unfold get. rewrite Hcreds, Hfed, Hpost. unfold resolve, ret.
  destruct (startswith "http" post_path); cbn [script sent];
    rewrite <- !app_assoc; reflexivity.
Qed.

(** What the SAML form step ends with: when it issued no request, the page
    and URL it was given; when it issued one, the page and URL of the
    answer. *)
Lemma saml_post_result (page current_url page' final_url : string)
  (s4 s5 : session) :
  saml_post urljoin html_starttags page current_url s4
  = (Ret (page', final_url), s5) →
  (s5 = s4 ∧ page' = page ∧ final_url = current_url)
  ∨ (∃ req r5 rest5,
       script s4 = Some r5 :: rest5
       ∧ s5 = {| script := rest5; sent := (sent s4 ++ [req])%list |}
       ∧ verb req = "POST"
       ∧ page' = text r5 ∧ final_url = url r5).
Proof.
  unfold saml_post.
  destruct (contains "SAMLResponse" page); [|intros [= <- <- <-]; by left].
  unfold bind, lift.
  destruct (FormParser.feed_page _ _) as [fp|e]; [|done].
  destruct (FormParser.action fp) as [act|]; [|intros [= <- <- <-]; by left].
  destruct (_ && _)%bool; [|intros [= <- <- <-]; by left].
  unfold send, ret.
  destruct (script s4) as [|[r5|] rest5]; [done| |done].
  intros [= <- <- <-]. right. eexists _, r5, rest5. by repeat split.
Qed.

(** C7 (as the code has it). The re-entry checkpoint stands in the flow
    right after the SAML form step and tests the URL that step ends with:
    the URL of the answer to the form's submission when the form was
    posted, the URL the step began with otherwise. A run that gets that far
    fails there with [SSOIncomplete], issuing no further request, whenever
    this URL does not contain the text [qmplus.qmul.ac.uk], and goes on to
    the token-exchange request whenever it does; the test looks for the text
    anywhere in the URL, not at its host. *)
Theorem reentry_checkpoint_substring (username password : string)
  (s : session) (r r2 r3 : response) (rest : list (option response))
  (config cred : gmap string json) (post_path : string)
  (page current_url page' final_url : string) (s4 s5 : session) :
  script s = Some r :: Some r2 :: Some r3 :: rest →
  ready_for_password json_loads r r2 config cred post_path →
  contains "AADSTS" (text r3) = false →
  stay_signed_in json_loads urljoin r3
    {| script := rest;
       sent := (sent s ++ sign_in_requests urljoin username password
                            config cred post_path)%list |}
  = (Ret (page, current_url), s4) →
  saml_post urljoin html_starttags page current_url s4
  = (Ret (page', final_url), s5) →
  let run :=
    refresh_token json_loads urljoin html_starttags decode_replace
      username password s in
  (contains "qmplus.qmul.ac.uk" final_url = false →
   run = (Raise (SystemExit SSOIncomplete), s5))
  ∧ (contains "qmplus.qmul.ac.uk" final_url = true →
     run = launch decode_replace s5
     ∧ sent (snd run) =
         (sent s5 ++ [http_post launch_url (FormData launch_form) false])%list)
  ∧ ((s5 = s4 ∧ final_url = current_url)
     ∨ (∃ req r5 rest5,
          script s4 = Some r5 :: rest5
          ∧ s5 = {| script := rest5; sent := (sent s4 ++ [req])%list |}
          ∧ final_url = url r5)).
Proof.
  intros Hs Hready Haad Hstay Hsaml run. subst run.
  rewrite (reaches_password_answer username password s r r2 r3 rest config
             cred post_path Hs Hready).
  unfold after_password. rewrite Haad. unfold bind. rewrite Hstay.
  cbn [fst snd]. rewrite Hsaml. cbn [fst snd]. unfold reentry_checkpoint.
  split; [intros H; by rewrite H|]. split.
  - intros H. rewrite H. cbn [negb]. split; [done|apply launch_sends].
  - destruct (saml_post_result _ _ _ _ _ _ Hsaml)
      as [(-> & _ & ->)|(req & r5 & rest5 & H1 & H2 & _ & _ & H3)];
      [by left|right]. by exists req, r5, rest5.
Qed.

End FlowFacts.

(* ===================================================================== *)
(** * Concrete runs                                                       *)
(* ===================================================================== *)

Section Runs.
Import Samples.

(** A page with two sibling POST forms, the first carrying [csrf] and only
    the second [SAMLResponse]: extraction keeps [csrf]. *)
Lemma sibling_forms_accumulate_run :
  ∃ q1 q2 p,
    FormParser.feed FormParser.init first_inputs = Ret q1
    ∧ FormParser.feed FormParser.init second_inputs = Ret q2
    ∧ FormParser.feed FormParser.init two_forms = Ret p
    ∧ FormParser.action p = FormParser.form_action second_form
    ∧ FormParser.fields p = FormParser.fields q2 ∪ FormParser.fields q1
    ∧ (∀ name, is_Some (FormParser.fields q1 !! name) →
               is_Some (FormParser.fields p !! name))
    ∧ (∀ name, FormParser.fields q2 !! name = None →
               FormParser.fields p !! name = FormParser.fields q1 !! name).
Proof.
  apply (sibling_forms_accumulate first_form second_form
           first_inputs second_inputs).
  - reflexivity.
  - reflexivity.
  - repeat constructor; discriminate.
  - repeat constructor; discriminate.
Defined.

(** The hidden field of the first form is part of what is extracted, so the
    result is not the second form's fields alone. *)
Lemma sibling_forms_not_reset :
  ∃ p,
    FormParser.feed FormParser.init two_forms = Ret p
    ∧ FormParser.action p = Some "/acs"
    ∧ FormParser.fields p !! "csrf" = Some (Some "abc")
    ∧ FormParser.fields p !! "SAMLResponse" = Some (Some "PHNhbWw+")
    ∧ FormParser.fields p ≠
        <["SAMLResponse" := Some "PHNhbWw+"]>
          (<["RelayState" := Some "xyz"]> ∅).
Proof.
  eexists. split; [reflexivity|]. split; [reflexivity|].
  split; [reflexivity|]. split; [reflexivity|].
  intros H. apply (f_equal (fun m => m !! "csrf")) in H. discriminate H.
Qed.



(** At clock 1000, a credential expiring at 1300 is expired and one expiring
    at 1301 is served from the cache. *)
Lemma refresh_margin_boundary_run :
  TokenManager.is_token_expired (manager 1300) at_1000 = Ret true
  ∧ TokenManager.get_access_token (manager 1300) [bad_request] at_1000
    = TokenManager._refresh_token (manager 1300) [bad_request] at_1000
  ∧ TokenManager.is_token_expired (manager 1301) at_1000 = Ret false
  ∧ TokenManager.get_access_token (manager 1301) [] at_1000
    = TokenManager.Run (Ret (JStr "cached")) (manager 1301) at_1000 [].
Proof.
  destruct (refresh_margin_boundary (manager 1300) [bad_request] at_1000
              eq_refl) as (_ & Hexpired & _).
  destruct (refresh_margin_boundary (manager 1301) [] at_1000
              eq_refl) as (_ & _ & Hvalid).
  destruct (Hexpired eq_refl) as (H1 & H2 & _).
  destruct (Hvalid eq_refl) as (H3 & H4).
  split; [exact H1|]. split; [exact H2|]. split; [exact H3|exact H4].
Defined.



(** A credential-type answer that redirects to a federation server. *)
Lemma federation_redirect_stops_flow_run :
  fst (SSO.refresh_token json_loads urljoin html_starttags decode_replace
         "ab12345@qmul.ac.uk" "secret" (idp "https://adfs.example.org/ls"))
  = Raise (SystemExit FederationNotSupported)
  ∧ existsb SSO.carries_password
      (SSO.sent
         (snd (SSO.refresh_token json_loads urljoin html_starttags
                 decode_replace "ab12345@qmul.ac.uk" "secret"
                 (idp "https://adfs.example.org/ls")))) = false.
Proof.
  destruct (federation_redirect_stops_flow json_loads urljoin html_starttags
              decode_replace "ab12345@qmul.ac.uk" "secret"
              (idp "https://adfs.example.org/ls") login_page
              (credential_type "https://adfs.example.org/ls") []
              (JStr "https://adfs.example.org/ls"))
    as (flow_token & Hrun & _).
  - reflexivity.
  - split; [reflexivity|]. eexists _, _.
    split; [reflexivity|]. split; [reflexivity|]. eexists. reflexivity.
  - eexists _, _. repeat split; reflexivity.
  - reflexivity.
  - cbv zeta in Hrun. rewrite Hrun. split; reflexivity.
Defined.

(** A credential-type answer whose federation-redirect field is the empty
    text: the flow goes on and submits the password. *)
Lemma empty_federation_field_sends_password :
  SSO.login_page_ok json_loads login_page
  ∧ SSO.federation_redirect (credential_type "") (JStr "")
  ∧ fst (SSO.refresh_token json_loads urljoin html_starttags decode_replace
           "ab12345@qmul.ac.uk" "secret" (idp ""))
    ≠ Raise (SystemExit FederationNotSupported)
  ∧ existsb SSO.carries_password
      (SSO.sent
         (snd (SSO.refresh_token json_loads urljoin html_starttags
                 decode_replace "ab12345@qmul.ac.uk" "secret" (idp ""))))
    = true.
Proof.
  split; [|split; [|split]].
  - split; [reflexivity|]. eexists _, _.
    split; [reflexivity|]. split; [reflexivity|]. eexists. reflexivity.
  - eexists _, _. repeat split; reflexivity.
  - vm_compute. discriminate.
  - vm_compute. reflexivity.
Qed.

(** A sign-in through the SAML form. The password answer is still at the
    identity provider; the checkpoint goes by the URL the form's submission
    lands on: an error page of the identity provider stops the run after
    four requests, the platform's dashboard lets it go on to the token
    exchange. *)
Lemma reentry_checkpoint_substring_run :
  SSO.refresh_token json_loads urljoin html_starttags decode_replace
    "ab12345@qmul.ac.uk" "secret" (via_saml error_page)
  = (Raise (SystemExit SSOIncomplete), past_saml_form)
  ∧ fst (SSO.refresh_token json_loads urljoin html_starttags decode_replace
           "ab12345@qmul.ac.uk" "secret" (via_saml dashboard))
    = Ret "T".
Proof.
  assert (Hready : FlowViews.ready_for_password json_loads login_page
                     managed_account login_config
                     (<["FlowToken" := JStr "flow2"]> ∅) "/login").
  { split; [reflexivity|]. split; [by eexists|]. split; [by eexists|].
    split; [reflexivity|]. split; [reflexivity|]. by exists ∅. }
  split.
  - destruct (reentry_checkpoint_substring json_loads urljoin html_starttags
                decode_replace "ab12345@qmul.ac.uk" "secret"
                (via_saml error_page) login_page managed_account
                saml_form_page [Some error_page; Some launch_redirect]
                login_config (<["FlowToken" := JStr "flow2"]> ∅) "/login"
                saml_page_text (SSO.url saml_form_page)
                (SSO.text error_page) (SSO.url error_page)
                (at_saml_form error_page) past_saml_form
                eq_refl Hready eq_refl
                ltac:(vm_compute; reflexivity) ltac:(vm_compute; reflexivity))
      as (Hstop & _ & _).
    exact (Hstop eq_refl).
  - destruct (reentry_checkpoint_substring json_loads urljoin html_starttags
                decode_replace "ab12345@qmul.ac.uk" "secret"
                (via_saml dashboard) login_page managed_account
                saml_form_page [Some dashboard; Some launch_redirect]
                login_config (<["FlowToken" := JStr "flow2"]> ∅) "/login"
                saml_page_text (SSO.url saml_form_page)
                (SSO.text dashboard) (SSO.url dashboard)
                (at_saml_form dashboard) past_saml_form
                eq_refl Hready eq_refl
                ltac:(vm_compute; reflexivity) ltac:(vm_compute; reflexivity))
      as (_ & Hgo & _).
    destruct (Hgo eq_refl) as (Hrun & _). rewrite Hrun.
    vm_compute. reflexivity.
Defined.

(** A URL whose host is the identity provider's passes the re-entry
    checkpoint because it quotes the platform's address: the token-exchange
    request is issued. So does a whole run whose SAML form submission lands
    on such a URL: it does not stop with [SSOIncomplete] but ends with the
    token exchange and returns a token. *)
Lemma checkpoint_passes_foreign_host :
  SSO.url_host idp_url_quoting_platform = "login.microsoftonline.com"
  ∧ SSO.url_host idp_url_quoting_platform ≠ "qmplus.qmul.ac.uk"
  ∧ fst (SSO.reentry_checkpoint decode_replace idp_url_quoting_platform fresh)
    ≠ Raise (SystemExit SSOIncomplete)
  ∧ SSO.sent
      (snd (SSO.reentry_checkpoint decode_replace idp_url_quoting_platform
              fresh))
    = [SSO.http_post SSO.launch_url (SSO.FormData SSO.launch_form) false]
  ∧ SSO.url quoting_page = idp_url_quoting_platform
  ∧ fst (SSO.refresh_token json_loads urljoin html_starttags decode_replace
           "ab12345@qmul.ac.uk" "secret" (via_saml quoting_page))
    = Ret "T"
  ∧ last (SSO.sent
            (snd (SSO.refresh_token json_loads urljoin html_starttags
                    decode_replace "ab12345@qmul.ac.uk" "secret"
                    (via_saml quoting_page))))
    = Some (SSO.http_post SSO.launch_url (SSO.FormData SSO.launch_form) false).
Proof.
  split; [vm_compute; reflexivity|].
  split; [vm_compute; discriminate|].
  split; [vm_compute; discriminate|].
  split; [vm_compute; reflexivity|].
  split; [reflexivity|].
  split; vm_compute; reflexivity.
Qed.

(** The token of a launch redirect whose padding was stripped. *)
Example recover_stripped_token :
  Base64.b64encode "P:::T" = "UDo6OlQ="
  ∧ SSO.search_token "moodlemobile://token=UDo6OlQ" = Some "UDo6OlQ"
  ∧ SSO.restore_padding "UDo6OlQ" = "UDo6OlQ="
  ∧ Base64.b64decode "UDo6OlQ" = None
  ∧ Base64.b64decode (SSO.restore_padding "UDo6OlQ") = Some "P:::T"
  ∧ fst (SSO.token_of_decoded "P:::T" fresh) = Ret "T".
Proof. repeat split; vm_compute; reflexivity. Qed.

(** Clearing one of two accounts, then the other. *)
Example clear_two_accounts :
  let both :=
    TokenManager.AllCreds
      (<["ab12345@qmul.ac.uk" := oauth_creds 1300]>
         (<["cd67890@qmul.ac.uk" := oauth_creds 1400]> ∅)) in
  let other :=
    {| TokenManager.email_address := "cd67890@qmul.ac.uk";
       TokenManager.client_id := TokenManager.DEFAULT_CLIENT_ID;
       TokenManager._creds := oauth_creds 1400 |} in
  snd (TokenManager.clear (manager 1300) both)
  = TokenManager.AllCreds (<["cd67890@qmul.ac.uk" := oauth_creds 1400]> ∅)
  ∧ snd (TokenManager.clear other
           (snd (TokenManager.clear (manager 1300) both)))
    = TokenManager.Missing.
Proof. split; vm_compute; reflexivity. Qed.

(** A complete sign-in: four requests, the password sent once, and the
    token recovered from the launch redirect. *)
Example complete_sign_in :
  fst (SSO.refresh_token json_loads urljoin html_starttags decode_replace
         "ab12345@qmul.ac.uk" "secret" complete) = Ret "T"
  ∧ map SSO.target
      (SSO.sent
         (snd (SSO.refresh_token json_loads urljoin html_starttags
                 decode_replace "ab12345@qmul.ac.uk" "secret" complete)))
    = [SSO.login_url; SSO.credential_type_url;
       "https://login.microsoftonline.com/login"; SSO.launch_url]
  ∧ map SSO.carries_password
      (SSO.sent
         (snd (SSO.refresh_token json_loads urljoin html_starttags
                 decode_replace "ab12345@qmul.ac.uk" "secret" complete)))
    = [false; false; true; false].
Proof. repeat split; vm_compute; reflexivity. Qed.

End Runs.

(* ===================================================================== *)
(** * Further properties of the credential store                          *)
(* ===================================================================== *)

Section StoreLaws.
Import TokenManager.

Lemma load_save_other (self : token_manager) (f : cred_file) (other : string) :
  other ≠ email_address self → _load other (_save self f) = _load other f.
Proof.
  intros Hne. rewrite !load_entries, entries_save. unfold dict_get.
  by rewrite lookup_insert_ne.
Qed.

Lemma load_save_same (self : token_manager) (f : cred_file) :
  _load (email_address self) (_save self f) = _creds self.
Proof.
  rewrite load_entries, entries_save. unfold dict_get.
  by rewrite lookup_insert_eq.
Qed.

(** X1. What [_save] writes, [_load] reads back: loading the account after a
    save gives the instance's credentials, whatever the file held before
    (missing, unparsable or a mapping); every other account loads as it did
    before the save; and a save for account A followed by a save for another
    account B leaves A's credentials in place. *)
Theorem save_load_round_trip (self : token_manager) (f : cred_file) :
  _load (email_address self) (_save self f) = _creds self
  ∧ _creds (init (email_address self) None (_save self f)) = _creds self
  ∧ (∀ other, other ≠ email_address self →
       _load other (_save self f) = _load other f)
  ∧ (∀ b : token_manager, email_address b ≠ email_address self →
       _load (email_address self) (_save b (_save self f)) = _creds self).
Proof.
  split; [apply load_save_same|]. split; [apply load_save_same|].
  split; [intros other Hne; by apply load_save_other|].
  intros b Hne. rewrite load_save_other by done. apply load_save_same.
Qed.

(** X2. [clear] is final for the account: clearing again changes nothing, a
    load of the account finds nothing, and a [TokenManager] created afterwards
    for the account has no saved credentials and answers [None] to
    [get_access_token] without any request. *)
Theorem clear_is_final (self : token_manager) (f : cred_file)
  (env_client_id : option string) (script : list reply) (w : world) :
  let cleared := clear self f in
  let again := init (email_address self) env_client_id (snd cleared) in
  clear (fst cleared) (snd cleared) = cleared
  ∧ _load (email_address self) (snd cleared) = ∅
  ∧ _creds again = ∅
  ∧ has_saved_creds again = false
  ∧ get_basic_password again = JNull
  ∧ get_access_token again script w = Run (Ret JNull) again w script.
Proof.
  intros cleared again.
  assert (Hload : _load (email_address self) (snd cleared) = ∅).
  { subst cleared. destruct f as [| |data]; simpl; try done.
    case_bool_decide; simpl; [done|].
    unfold dict_get. by rewrite lookup_delete_eq. }
  assert (Hagain : _creds again = ∅) by exact Hload.
  split; [|split; [exact Hload|split; [exact Hagain|]]].
  - subst cleared. destruct f as [| |data]; simpl; try done.
    case_bool_decide as He; simpl; [done|].
    rewrite delete_delete_eq. by rewrite bool_decide_false.
  - unfold has_saved_creds, get_basic_password, get_access_token, auth_type.
    rewrite Hagain. by unfold dict_get; rewrite !lookup_empty.
Qed.

End StoreLaws.

(* ===================================================================== *)
(** * Further properties of the token refresh                             *)
(* ===================================================================== *)

Section RefreshLaws.
Import TokenManager.

(** The credentials after a refresh answered with [access], [expires_in]
    and possibly a new refresh token. *)
Lemma refresh_token_success (self : token_manager) (r : reply)
  (rest : list reply) (w : world) (status : Z) (token_data : gmap string json)
  (access : json) (expires_in expires_at : Z) :
  truthy (dict_get (_creds self) "refresh_token" JNull) = true →
  result r = Response status (Some (JObj token_data)) →
  is_http_error status = false →
  token_data !! "access_token" = Some access →
  as_num (dict_get token_data "expires_in" (JNum 3600)) = Some expires_in →
  float_add (clock w + latency r) expires_in = Some expires_at →
  let refresh := dict_get (_creds self) "refresh_token" JNull in
  let self' :=
    with_creds self
      (<["expires_at" := JNum expires_at]>
         (<["refresh_token" := dict_get token_data "refresh_token" refresh]>
            (<["access_token" := access]> (_creds self)))) in
  let w1 := post token_url (refresh_data self refresh) r w in
  _refresh_token self (r :: rest) w =
  Run (Ret access) self' (with_file w1 (_save self' (file w1))) rest.
Proof.
  intros Ht Hr Hs Ha He Hf. cbv zeta. unfold _refresh_token.
  rewrite Ht. cbn [negb]. rewrite Hr, Hs, Ha, He. cbn [clock post].
  rewrite Hf. reflexivity.
Qed.

(** X3. A refresh answered with a 2xx JSON object holding [access_token]
    and a numeric [expires_in] (3600 when absent) consumes that answer.
    When a [float] can hold [expires_in], it returns the token, replaces
    [access_token], sets [refresh_token] to the answer's value when the
    answer has the key and keeps the old one otherwise, sets [expires_at] to
    the [float] sum of the time of the answer and [expires_in] (their exact
    sum when [expires_in] and the sum are below [2^53] in magnitude), keeps
    every other key of the credential, and writes the result to the file
    under the account, other accounts untouched. When no [float] can hold
    [expires_in], it raises [OverflowError] and changes nothing. *)
Theorem refresh_success_updates (self : token_manager) (r : reply)
  (rest : list reply) (w : world) (status : Z) (token_data : gmap string json)
  (access : json) (expires_in : Z) :
  truthy (dict_get (_creds self) "refresh_token" JNull) = true →
  result r = Response status (Some (JObj token_data)) →
  is_http_error status = false →
  token_data !! "access_token" = Some access →
  as_num (dict_get token_data "expires_in" (JNum 3600)) = Some expires_in →
  let run := _refresh_token self (r :: rest) w in
  let creds' := _creds (self_after run) in
  script_after run = rest
  ∧ (token_data !! "expires_in" = None → expires_in = 3600)
  ∧ match float_add (clock w + latency r) expires_in with
    | None =>
        value run = Raise OverflowError
        ∧ self_after run = self
        ∧ file (world_after run) = file w
    | Some expires_at =>
        value run = Ret access
        ∧ creds' !! "access_token" = Some access
        ∧ creds' !! "refresh_token" =
            Some (dict_get token_data "refresh_token"
                    (dict_get (_creds self) "refresh_token" JNull))
        ∧ creds' !! "expires_at" = Some (JNum expires_at)
        ∧ ((Z.abs expires_in < 2 ^ 53)%Z →
           (Z.abs (clock w + latency r + expires_in) < 2 ^ 53)%Z →
           expires_at = (clock w + latency r + expires_in)%Z)
        ∧ (∀ k, k ≠ "access_token" → k ≠ "refresh_token" → k ≠ "expires_at" →
                creds' !! k = _creds self !! k)
        ∧ _load (email_address self) (file (world_after run)) = creds'
        ∧ (∀ other, other ≠ email_address self →
             _load other (file (world_after run)) = _load other (file w))
    end.
Proof.
  intros Ht Hr Hs Ha He run creds'. subst creds' run.
  assert (Hdefault : token_data !! "expires_in" = None → expires_in = 3600).
  { intros Hnone. unfold dict_get in He. rewrite Hnone in He.
    cbn in He. congruence. }
  destruct (float_add (clock w + latency r) expires_in) as [expires_at|] eqn:Hf.
  - rewrite (refresh_token_success self r rest w status token_data access
               expires_in expires_at Ht Hr Hs Ha He Hf).
    cbn [value script_after self_after world_after with_creds _creds
         with_file file post].
    split; [done|]. split; [exact Hdefault|]. split; [done|].
    split; [by rewrite lookup_insert_ne, lookup_insert_ne, lookup_insert_eq|].
    split; [by rewrite lookup_insert_ne, lookup_insert_eq|].
    split; [by rewrite lookup_insert_eq|].
    split.
    { intros H1 H2. rewrite float_add_exact in Hf by done. congruence. }
    split; [intros k H1 H2 H3; by rewrite !lookup_insert_ne|].
    split.
    + rewrite load_entries, entries_save. unfold dict_get.
      cbn [email_address with_creds]. by rewrite lookup_insert_eq.
    + intros other Hne. rewrite !load_entries, entries_save. unfold dict_get.
      cbn [email_address with_creds]. by rewrite lookup_insert_ne.
  - unfold _refresh_token. rewrite Ht. cbn [negb].
    rewrite Hr, Hs, Ha, He. cbn [clock post]. rewrite Hf.
    cbn [value script_after self_after world_after file post].
    by repeat split.
Qed.

(** A 2xx answer that is a JSON object without [access_token] is not
    caught by the [except] clause: [_refresh_token] raises [KeyError], and
    the credentials and the file stay as they were. *)
Theorem refresh_answer_without_token_raises (self : token_manager)
  (r : reply) (rest : list reply) (w : world) (status : Z)
  (token_data : gmap string json) :
  truthy (dict_get (_creds self) "refresh_token" JNull) = true →
  result r = Response status (Some (JObj token_data)) →
  is_http_error status = false →
  token_data !! "access_token" = None →
  let run := _refresh_token self (r :: rest) w in
  value run = Raise (KeyError "access_token")
  ∧ self_after run = self
  ∧ file (world_after run) = file w.
Proof.
  intros Ht Hr Hs Ha. cbv zeta. unfold _refresh_token.
  rewrite Ht. cbn [negb]. by rewrite Hr, Hs, Ha.
Qed.

(** X4. [get_access_token] issues at most one request, a POST to the token
    endpoint, and never sleeps; it issues none when the credential is not
    OAuth2, when the cached token is still valid (the clock is before
    [expires_at] minus the margin), or when there is no refresh token, and
    in these cases nothing changes at all: [None], the cached token and
    [None] are returned. *)
Theorem get_access_token_one_request (self : token_manager)
  (script : list reply) (w : world) :
  let run := get_access_token self script w in
  let refresh := dict_get (_creds self) "refresh_token" JNull in
  ((trace (world_after run) = trace w ∧ script_after run = script)
   ∨ (trace (world_after run) =
        (trace w ++ [Post token_url (refresh_data self refresh)])%list
      ∧ script_after run = tail script))
  ∧ (eq_str (auth_type self) "oauth2" = false →
     run = Run (Ret JNull) self w script)
  ∧ (∀ expires_at,
       eq_str (auth_type self) "oauth2" = true →
       as_num (dict_get (_creds self) "expires_at" (JNum 0)) = Some expires_at →
       (clock w < expires_at - TOKEN_EXPIRY_MARGIN)%Z →
       run = Run (Ret (dict_get (_creds self) "access_token" JNull))
               self w script)
  ∧ (∀ expires_at,
       eq_str (auth_type self) "oauth2" = true →
       as_num (dict_get (_creds self) "expires_at" (JNum 0)) = Some expires_at →
       truthy refresh = false →
       run = Run (Ret (if Z.ltb (clock w) (expires_at - TOKEN_EXPIRY_MARGIN)
                       then dict_get (_creds self) "access_token" JNull
                       else JNull))
               self w script)
  ∧ (truthy refresh = false →
     self_after run = self ∧ world_after run = w ∧ script_after run = script).
Proof.
  intros run refresh. subst run refresh. unfold get_access_token.
  destruct (eq_str (auth_type self) "oauth2") eqn:Hauth; cbn [negb];
    [|split; [by left|repeat split; done]].
  destruct (as_num (dict_get (_creds self) "expires_at" (JNum 0)))
    as [expires_at|]; [|split; [by left|repeat split; done]].
  destruct (Z.ltb (clock w) (expires_at - TOKEN_EXPIRY_MARGIN)) eqn:Hvalid.
  { split; [by left|]. split; [done|]. split.
    - intros ? _ [= <-] _. done.
    - split; [|done]. intros ? _ [= <-] _. by rewrite Hvalid. }
  split; [|split; [done|split; [|split]]].
  - destruct (truthy (dict_get (_creds self) "refresh_token" JNull)) eqn:Ht.
    + right. split; [by apply refresh_token_posts|].
      unfold _refresh_token. rewrite Ht. cbn [negb].
      destruct script as [|r script']; [done|].
      destruct (result r) as [|status body]; [done|].
      destruct (is_http_error status); [done|].
      destruct body as [[| | | | |token_data]|]; try done.
      destruct (token_data !! "access_token"); [|done].
      destruct (as_num _); [|done]. by destruct (float_add _ _).
    + left. unfold _refresh_token. by rewrite Ht.
  - intros ? _ [= <-] Hlt. apply Z.ltb_lt in Hlt. congruence.
  - intros ? _ [= <-] Ht. rewrite Hvalid. unfold _refresh_token. by rewrite Ht.
  - intros Ht. unfold _refresh_token. by rewrite Ht.
Qed.

(** [is_token_expired] and [get_access_token] agree: when the first
    answers [False] the second returns the cached token and changes nothing;
    when the first answers [True] for an OAuth2 credential the second is the
    refresh; and for a credential that is not OAuth2 the first answers
    [True] while the second returns [None] without refreshing. *)
Theorem expiry_check_agrees (self : token_manager) (script : list reply)
  (w : world) :
  (is_token_expired self w = Ret false →
   get_access_token self script w =
   Run (Ret (dict_get (_creds self) "access_token" JNull)) self w script)
  ∧ (eq_str (auth_type self) "oauth2" = true →
     is_token_expired self w = Ret true →
     get_access_token self script w = _refresh_token self script w)
  ∧ (eq_str (auth_type self) "oauth2" = false →
     is_token_expired self w = Ret true
     ∧ get_access_token self script w = Run (Ret JNull) self w script).
Proof.
  unfold is_token_expired, get_access_token.
  destruct (eq_str (auth_type self) "oauth2"); cbn [negb].
  - destruct (as_num (dict_get (_creds self) "expires_at" (JNum 0)))
      as [expires_at|]; [|by repeat split].
    split; [|split; [|done]].
    + intros H. injection H as H. apply Z.leb_gt in H.
      apply Z.ltb_lt in H. by rewrite H.
    + intros _ H. injection H as H. apply Z.leb_le in H.
      apply Z.ltb_ge in H. by rewrite H.
  - by repeat split.
Qed.

(** X5. After a successful refresh, [get_access_token] serves the new token
    from the cache, without a request, at every time before the new expiry
    (the stored [expires_at], the [float] sum of the time of the answer and
    [expires_in]) minus the margin of 300 seconds; right after a refresh
    whose [expires_in] exceeds the margin it does so, for a clock reading
    from 0 to [2^53 - 300]. *)
Theorem refreshed_token_is_cached (self : token_manager) (r : reply)
  (rest script' : list reply) (w w' : world) (status : Z)
  (token_data : gmap string json) (access : json)
  (expires_in expires_at : Z) :
  eq_str (auth_type self) "oauth2" = true →
  truthy (dict_get (_creds self) "refresh_token" JNull) = true →
  result r = Response status (Some (JObj token_data)) →
  is_http_error status = false →
  token_data !! "access_token" = Some access →
  as_num (dict_get token_data "expires_in" (JNum 3600)) = Some expires_in →
  float_add (clock w + latency r) expires_in = Some expires_at →
  (clock w' < expires_at - 300)%Z →
  let self' := self_after (_refresh_token self (r :: rest) w) in
  get_access_token self' script' w' = Run (Ret access) self' w' script'
  ∧ ((300 < expires_in)%Z →
     (0 ≤ clock w + latency r < 2 ^ 53 - 300)%Z →
     get_access_token self' rest
       (world_after (_refresh_token self (r :: rest) w))
     = Run (Ret access) self' (world_after (_refresh_token self (r :: rest) w))
           rest)
  ∧ ((Z.abs expires_in < 2 ^ 53)%Z →
     (Z.abs (clock w + latency r + expires_in) < 2 ^ 53)%Z →
     expires_at = (clock w + latency r + expires_in)%Z).
Proof.
  intros Hauth Ht Hr Hs Ha He Hf Hclock self'. subst self'.
  rewrite (refresh_token_success self r rest w status token_data access
             expires_in expires_at Ht Hr Hs Ha He Hf).
  cbn [self_after world_after].
  assert (Hget : ∀ sc (v : world),
            (clock v < expires_at - 300)%Z →
            get_access_token
              (with_creds self
                 (<["expires_at" := JNum expires_at]>
                    (<["refresh_token" :=
                        dict_get token_data "refresh_token"
                          (dict_get (_creds self) "refresh_token" JNull)]>
                       (<["access_token" := access]> (_creds self))))) sc v
            = Run (Ret access)
                (with_creds self
                   (<["expires_at" := JNum expires_at]>
                      (<["refresh_token" :=
                          dict_get token_data "refresh_token"
                            (dict_get (_creds self) "refresh_token" JNull)]>
                         (<["access_token" := access]> (_creds self))))) v sc).
  { intros sc v Hv. unfold get_access_token, auth_type, dict_get.
    cbn [_creds with_creds].
    rewrite !(lookup_insert_ne _ _ "auth_type") by done.
    unfold auth_type, dict_get in Hauth. rewrite Hauth. cbn [negb].
    rewrite lookup_insert_eq. cbn [as_num]. unfold TOKEN_EXPIRY_MARGIN.
    apply Z.ltb_lt in Hv. rewrite Hv.
    by rewrite lookup_insert_ne, lookup_insert_ne, lookup_insert_eq. }
  split; [by apply Hget|]. split.
  - intros Hlong Hrange. apply Hget. cbn [clock with_file post].
    by apply (float_add_after_margin _ expires_in).
  - intros H1 H2. rewrite float_add_exact in Hf by done. congruence.
Qed.

End RefreshLaws.

(* ===================================================================== *)
(** * Further properties of the device-code flow                          *)
(* ===================================================================== *)

Section PollLaws.
Import TokenManager PollViews.

(** A "slow_down" answer makes the next sleep 5 seconds longer: answered
    [slow_down, success], the loop sleeps the interval, polls, sleeps the
    interval plus 5, polls, and returns the token. *)
Theorem slow_down_lengthens_interval (dc : gmap string json)
  (expires_at_poll : Z) (r1 r2 : reply) (rest : list reply)
  (interval device_code access : json) (secs : Z)
  (self : token_manager) (w : world) :
  as_num interval = Some secs → (0 ≤ secs)%Z →
  dc !! "device_code" = Some device_code →
  is_slow_down r1 → is_success r2 access →
  (clock w < expires_at_poll)%Z →
  (clock w + secs + latency r1 < expires_at_poll)%Z →
  let run := poll_loop dc expires_at_poll (r1 :: r2 :: rest) interval self w in
  let poll := Post token_url (device_token_data self device_code) in
  value run = Ret access
  ∧ script_after run = rest
  ∧ trace (world_after run) =
      (trace w ++ [Sleep secs; poll; Sleep (secs + 5); poll])%list.
Proof.
  intros Hi Hs Hd H1 H2 Hc0 Hc1 run poll. subst run poll.
  rewrite (poll_loop_slow_down _ _ _ _ _ _ _ _ _ Hc0 Hi Hs Hd H1).
  assert (Hc : (clock (post token_url (device_token_data self device_code) r1
                         (sleep secs w)) < expires_at_poll)%Z) by exact Hc1.
  assert (Hs5 : (0 ≤ secs + 5)%Z) by lia.
  destruct (poll_loop_success dc expires_at_poll r2 rest (JNum (secs + 5))
              device_code access (secs + 5) self
              (post token_url (device_token_data self device_code) r1
                 (sleep secs w)) Hc eq_refl Hs5 Hd H2)
    as (Hv & Hrest & Htr).
  repeat split; try done.
  rewrite Htr. cbn [trace post sleep]. by rewrite <- !app_assoc.
Qed.

Lemma cycles_cycles_of (url : string) (data : gmap string json)
  (sleeps : list Z) :
  cycles (cycles_of (Post url data) sleeps) = List.length sleeps.
Proof.
  induction sleeps as [|secs sleeps IH]; [done|].
  change (S (cycles (cycles_of (Post url data) sleeps))
          = S (List.length sleeps)).
  by rewrite IH.
Qed.

(** With a device code, the loop adds complete cycles to the trace, one
    per reply it consumes, or one more when it asked for a reply that the
    script does not hold. *)
Lemma poll_loop_cycles (dc : gmap string json) (expires_at_poll : Z)
  (device_code : json) :
  dc !! "device_code" = Some device_code →
  ∀ (script : list reply) (interval : json) (self : token_manager) (w : world),
    let run := poll_loop dc expires_at_poll script interval self w in
    let poll := Post token_url (device_token_data self device_code) in
    ∃ sleeps consumed,
      trace (world_after run) = (trace w ++ cycles_of poll sleeps)%list
      ∧ List.length script = (consumed + List.length (script_after run))%nat
      ∧ (∀ e, value run = Raise e →
              self_after run = self ∧ file (world_after run) = file w)
      ∧ ((List.length sleeps = consumed
          ∧ ∀ r, script_after
                   (poll_loop dc expires_at_poll (script ++ [r]) interval
                      self w)
                 = (script_after run ++ [r])%list)
         ∨ (List.length sleeps = S consumed
            ∧ value run = Raise RequestException
            ∧ script_after run = []
            ∧ ∀ r, script_after
                     (poll_loop dc expires_at_poll (script ++ [r]) interval
                        self w)
                   = [])).
Proof.
  intros Hd.
  induction script as [|r script IH]; intros interval self w; cbv zeta.
  - cbn [poll_loop app].
    destruct (Z.ltb (clock w) expires_at_poll) eqn:Hc;
      [|exists [], 0%nat; cbn [cycles_of]; rewrite app_nil_r;
        repeat split; try done; left; split; [done|]; intros r0; done].
    destruct (as_num interval) as [secs|] eqn:Hi;
      [|exists [], 0%nat; cbn [cycles_of]; rewrite app_nil_r;
        repeat split; try done; left; split; [done|]; intros r0; done].
    destruct (Z.ltb secs 0) eqn:Hs;
      [exists [], 0%nat; cbn [cycles_of]; rewrite app_nil_r;
       repeat split; try done; left; split; [done|]; intros r0; done|].
    rewrite Hd.
    exists [secs], 0%nat. cbn [cycles_of trace world_after post_unanswered sleep].
    split; [by rewrite <- app_assoc|]. split; [done|]. split; [done|].
    right. split; [done|]. split; [done|]. split; [done|].
    intros r0.
    destruct (result r0) as [|status [body|]]; try done.
    destruct (classify _ body); try done; by repeat case_match.
  - cbn [poll_loop app].
    destruct (Z.ltb (clock w) expires_at_poll) eqn:Hc;
      [|exists [], 0%nat; cbn [cycles_of]; rewrite app_nil_r;
        repeat split; try done; left; split; [done|]; intros r0; done].
    destruct (as_num interval) as [secs|] eqn:Hi;
      [|exists [], 0%nat; cbn [cycles_of]; rewrite app_nil_r;
        repeat split; try done; left; split; [done|]; intros r0; done].
    destruct (Z.ltb secs 0) eqn:Hs;
      [exists [], 0%nat; cbn [cycles_of]; rewrite app_nil_r;
       repeat split; try done; left; split; [done|]; intros r0; done|].
    rewrite Hd.
    set (poll := Post token_url (device_token_data self device_code)).
    set (w2 := post token_url (device_token_data self device_code) r
                 (sleep secs w)).
    assert (Hone : ∀ (v : outcome json) (self' : token_manager) (f : cred_file),
              (∀ e, v = Raise e → self' = self ∧ f = file w) →
              ∃ sleeps consumed,
                trace (with_file w2 f) = (trace w ++ cycles_of poll sleeps)%list
                ∧ S (List.length script)
                  = (consumed + List.length script)%nat
                ∧ (∀ e, v = Raise e → self' = self ∧ f = file w)
                ∧ ((List.length sleeps = consumed
                    ∧ ∀ r0 : reply, (script ++ [r0])%list = (script ++ [r0])%list)
                   ∨ (List.length sleeps = S consumed
                      ∧ v = Raise RequestException
                      ∧ script = []
                      ∧ ∀ r0 : reply, (script ++ [r0])%list = []))).
    { intros v self' f Hv. exists [secs], 1%nat.
      cbn [cycles_of trace with_file w2 post sleep]. subst w2. cbn.
      split; [by rewrite <- app_assoc|]. split; [done|]. split; [exact Hv|].
      left. by split. }
    assert (Hnext : ∀ interval',
              let run := poll_loop dc expires_at_poll script interval' self w2 in
              ∃ sleeps consumed,
                trace (world_after run) = (trace w ++ cycles_of poll sleeps)%list
                ∧ S (List.length script)
                  = (consumed + List.length (script_after run))%nat
                ∧ (∀ e, value run = Raise e →
                        self_after run = self ∧ file (world_after run) = file w)
                ∧ ((List.length sleeps = consumed
                    ∧ ∀ r0, script_after
                              (poll_loop dc expires_at_poll (script ++ [r0])
                                 interval' self w2)
                            = (script_after run ++ [r0])%list)
                   ∨ (List.length sleeps = S consumed
                      ∧ value run = Raise RequestException
                      ∧ script_after run = []
                      ∧ ∀ r0, script_after
                                (poll_loop dc expires_at_poll (script ++ [r0])
                                   interval' self w2)
                              = []))).
    { intros interval'. cbv zeta.
      destruct (IH interval' self w2)
        as (sleeps & consumed & Htr & Hlen & Hkeep & Hcount).
      exists (secs :: sleeps), (S consumed).
      rewrite Htr. subst w2. cbn [trace post sleep cycles_of].
      split; [by rewrite <- !app_assoc|]. split; [lia|].
      split; [exact Hkeep|].
      destruct Hcount as [[Hn Hmore]|(Hn & Hv & Hrest & Hmore)].
      - left. split; [cbn; lia|exact Hmore].
      - right. split; [cbn; lia|]. split; [exact Hv|]. split; [exact Hrest|].
        exact Hmore. }
    destruct (result r) as [|status [body|]].
    + apply (Hone _ self (file w)). by intros.
    + destruct (classify (clock _) body) as [access creds| | |e].
      * apply (Hone (Ret access)). by intros.
      * apply Hnext.
      * apply Hnext.
      * apply (Hone (Raise e) self (file w)). by intros.
    + apply (Hone _ self (file w)). by intros.
Qed.

(** X6. Whatever the token endpoint answers, the poll loop sleeps before
    every token request, and unless it returns a token it leaves the
    credentials and the file as they were. When the device answer has a
    [device_code], what the loop adds to the trace is a sequence of complete
    sleep-then-poll cycles, each request carrying that code: one cycle per
    reply it consumes, or one more. It is one more exactly when the last
    request found no reply, that is, when the loop would have consumed a
    further reply had the script held one; the loop has then consumed every
    reply and raises [RequestException]. When the device answer has no
    [device_code], the loop consumes no reply and adds nothing, or a lone
    sleep on which it raises [KeyError]. *)
Theorem poll_loop_sleeps_before_polling (dc : gmap string json)
  (expires_at_poll : Z) (script : list reply) (interval : json)
  (self : token_manager) (w : world) :
  let run := poll_loop dc expires_at_poll script interval self w in
  ∃ added consumed,
    trace (world_after run) = (trace w ++ added)%list
    ∧ List.length script = (consumed + List.length (script_after run))%nat
    ∧ (∀ e, value run = Raise e →
            self_after run = self ∧ file (world_after run) = file w)
    ∧ match dc !! "device_code" with
      | Some device_code =>
          ∃ sleeps,
            added =
              cycles_of (Post token_url (device_token_data self device_code))
                sleeps
            ∧ cycles added = List.length sleeps
            ∧ ((List.length sleeps = consumed
                ∧ ∀ r, script_after
                         (poll_loop dc expires_at_poll (script ++ [r])
                            interval self w)
                       = (script_after run ++ [r])%list)
               ∨ (List.length sleeps = S consumed
                  ∧ value run = Raise RequestException
                  ∧ script_after run = []
                  ∧ ∀ r, script_after
                           (poll_loop dc expires_at_poll (script ++ [r])
                              interval self w)
                         = []))
      | None =>
          consumed = 0%nat
          ∧ (added = []
             ∨ ∃ secs, added = [Sleep secs]
                       ∧ value run = Raise (KeyError "device_code"))
      end.
Proof.
  cbv zeta. destruct (dc !! "device_code") as [device_code|] eqn:Hd.
  - destruct (poll_loop_cycles dc expires_at_poll device_code Hd script
                interval self w)
      as (sleeps & consumed & Htr & Hlen & Hkeep & Hcount).
    exists (cycles_of (Post token_url (device_token_data self device_code))
              sleeps), consumed.
    split; [exact Htr|]. split; [exact Hlen|]. split; [exact Hkeep|].
    exists sleeps. split; [done|]. split; [apply cycles_cycles_of|].
    exact Hcount.
  - assert (Hrun : poll_loop dc expires_at_poll script interval self w
              = if Z.ltb (clock w) expires_at_poll then
                  match as_num interval with
                  | None => Run (Raise TypeError) self w script
                  | Some secs =>
                      if Z.ltb secs 0 then Run (Raise ValueError) self w script
                      else Run (Raise (KeyError "device_code")) self
                             (sleep secs w) script
                  end
                else Run (Raise TimeoutError) self w script).
    { destruct script; cbn [poll_loop]; by rewrite Hd. }
    rewrite Hrun.
    destruct (Z.ltb (clock w) expires_at_poll);
      [|exists [], 0%nat; rewrite app_nil_r; repeat split; try done; by left].
    destruct (as_num interval) as [secs|];
      [|exists [], 0%nat; rewrite app_nil_r; repeat split; try done; by left].
    destruct (Z.ltb secs 0);
      [exists [], 0%nat; rewrite app_nil_r; repeat split; try done; by left|].
    exists [Sleep secs], 0%nat. repeat split; try done.
    right. by exists secs.
Qed.



End PollLaws.

Section DeviceLaws.
Import TokenManager.


(** X10. When the device-code request itself fails (no answer, a transport
    failure or a 4xx/5xx status), [run_device_code_flow] raises at once: the
    only action is that request, there is no sleep and no token request, and
    nothing is stored. When the device answer names neither an interval nor
    a lifetime, the loop polls every 5 seconds and gives up 900 seconds
    after the answer (at the [float] sum of the time of the answer and 900,
    which is their exact sum whenever that is below [2^53] in magnitude). *)
Theorem device_code_request (self : token_manager) (script : list reply)
  (w : world) :
  (request_failed script = true →
   let run := run_device_code_flow self script w in
   value run = Raise RequestException
   ∧ trace (world_after run) =
       (trace w ++ [Post devicecode_url (devicecode_data self)])%list
   ∧ self_after run = self
   ∧ file (world_after run) = file w)
  ∧ (∀ r rest status dc,
       script = r :: rest →
       result r = Response status (Some (JObj dc)) →
       is_http_error status = false →
       is_Some (dc !! "verification_uri") → is_Some (dc !! "user_code") →
       dc !! "interval" = None → dc !! "expires_in" = None →
       run_device_code_flow self script w =
       poll_loop dc (round_double (clock w + latency r + 900)) rest (JNum 5)
         self (post devicecode_url (devicecode_data self) r w)
       ∧ ((Z.abs (clock w + latency r + 900) < 2 ^ 53)%Z →
          round_double (clock w + latency r + 900)
          = (clock w + latency r + 900)%Z)).
Proof.
  split.
  - intros Hf. cbv zeta. unfold run_device_code_flow.
    destruct script as [|r script']; [done|].
    unfold request_failed in Hf.
    destruct (result r) as [|status body]; [done|]. by rewrite Hf.
  - intros r rest status dc -> Hr Hs [uri Huri] [code Hcode] Hi He.
    split; [|apply round_double_exact].
    unfold run_device_code_flow. rewrite Hr, Hs, Huri, Hcode.
    unfold dict_get. by rewrite Hi, He.
Qed.

End DeviceLaws.

(* ===================================================================== *)
(** * Further properties of [FormParser]                                  *)
(* ===================================================================== *)

Section FormLaws.
Import FormParser FormViews.

Lemma handle_input_hidden_field (self : form_parser) (tag : string) (a : attrs) :
  handle_input self tag (dict_of_attrs a) =
  match hidden_field (tag, a) with
  | Some (n, v) => {| action := action self; fields := <[n := v]> (fields self) |}
  | None => self
  end.
Proof.
  unfold handle_input, hidden_field. cbn [fst snd].
  destruct (String.eqb tag "input" && _)%bool; [|done].
  destruct (dict_get (dict_of_attrs a) "name" (Some "")) as [n|]; [|done].
  by destruct (String.eqb n "").
Qed.

Lemma handle_starttag_cases (self : form_parser) (t : starttag) :
  if method_without_value t
  then handle_starttag self (fst t) (snd t) = Raise AttributeError
  else handle_starttag self (fst t) (snd t) =
       Ret (handle_input
              {| action := if is_post_form t then form_action t
                           else action self;
                 fields := fields self |}
              (fst t) (dict_of_attrs (snd t))).
Proof.
  destruct t as [tag a]. unfold method_without_value, is_post_form, form_action.
  cbn [fst snd]. unfold handle_starttag, handle_form, dict_get.
  destruct (String.eqb tag "form"); cbn [andb]; [|by destruct self].
  destruct (dict_of_attrs a !! "method") as [[m|]|] eqn:Hm.
  - rewrite bool_decide_false by congruence.
    destruct (String.eqb (lower m) "post"); [done|by destruct self].
  - by rewrite bool_decide_true.
  - rewrite bool_decide_false by congruence. cbn. by destruct self.
Qed.

(** X11. When [feed] fails: with [AttributeError] (from [None.lower()])
    when one of the start tags the parser reports is a form tag whose
    [method] attribute is written without a value; otherwise with the
    parser's own exception when the parser fails on the page (as
    [HTMLParser] does, with [AssertionError], on a marked section it does
    not know); and on every other page it returns a parser, the one that
    handling the reported tags gives. *)
Theorem feed_fails_on_bare_method (page : parsing) :
  ∀ self,
    if existsb method_without_value (reported page)
    then feed_page self page = Raise AttributeError
    else
      ∃ p, feed self (reported page) = Ret p
           ∧ match parser_error page with
             | Some e => feed_page self page = Raise e
             | None => feed_page self page = Ret p
             end.
Proof.
  destruct page as [tags failure]. unfold feed_page. cbn [reported parser_error].
  induction tags as [|[tag a] tags IH]; intros self; cbn [existsb feed].
  - exists self. split; [done|]. by destruct failure.
  - pose proof (handle_starttag_cases self (tag, a)) as H.
    cbn [fst snd] in H.
    destruct (method_without_value (tag, a)); cbn [orb]; [by rewrite H|].
    rewrite H. apply IH.
Qed.

(** X12. What [feed] extracts: the action is that of the last POST form of
    the page (the one given before when there is none); every hidden input
    with a non-empty name is among the fields; every field is either one
    that was there before or the name and value of some hidden input of the
    page; no field recorded before is lost; and the empty name is never
    made a field. *)
Theorem feed_extracts (tags : list starttag) :
  ∀ self p,
    feed self tags = Ret p →
    action p = last_post_action tags (action self)
    ∧ (∀ n v, In (n, v) (omap hidden_field tags) → is_Some (fields p !! n))
    ∧ (∀ n v, fields p !! n = Some v →
              fields self !! n = Some v ∨ In (n, v) (omap hidden_field tags))
    ∧ (∀ n, is_Some (fields self !! n) → is_Some (fields p !! n))
    ∧ (fields self !! "" = None → fields p !! "" = None).
Proof.
  induction tags as [|[tag a] tags IH]; intros self p Hfeed.
  - cbn in Hfeed. injection Hfeed as <-. cbn. repeat split; try done.
    intros n v Hv. by left.
  - cbn [feed] in Hfeed.
    pose proof (handle_starttag_cases self (tag, a)) as H.
    cbn [fst snd] in H.
    destruct (method_without_value (tag, a)); [by rewrite H in Hfeed|].
    rewrite H in Hfeed. rewrite handle_input_hidden_field in Hfeed.
    cbn [last_post_action].
    change (omap hidden_field ((tag, a) :: tags))
      with (match hidden_field (tag, a) with
            | Some y => y :: omap hidden_field tags
            | None => omap hidden_field tags
            end).
    destruct (hidden_field (tag, a)) as [[n0 v0]|] eqn:Hh.
    + assert (Hn0 : n0 ≠ "").
      { unfold hidden_field in Hh. cbn [fst snd] in Hh.
        destruct (_ && _)%bool; [|done].
        destruct (dict_get (dict_of_attrs a) "name" (Some "")) as [n|]; [|done].
        destruct (String.eqb n "") eqn:En; [done|].
        injection Hh as <- _. by apply String.eqb_neq. }
      destruct (IH _ p Hfeed) as (Hact & Hall & Hsound & Hkeep & Hempty).
      cbn [action fields] in *.
      split; [exact Hact|]. split; [|split; [|split]].
      * intros n v [Heq|Hin]; [|by eapply Hall].
        injection Heq as <- <-. apply Hkeep. rewrite lookup_insert_eq.
        by eexists.
      * intros n v Hv. destruct (Hsound n v Hv) as [Hs|Hs]; [|right; by right].
        destruct (decide (n0 = n)) as [<-|Hne].
        -- rewrite lookup_insert_eq in Hs. injection Hs as <-.
           right. by left.
        -- rewrite lookup_insert_ne in Hs by done. by left.
      * intros n Hn. apply Hkeep.
        destruct (decide (n0 = n)) as [<-|Hne];
          [rewrite lookup_insert_eq; by eexists|].
        by rewrite lookup_insert_ne.
      * intros He. apply Hempty. by rewrite lookup_insert_ne.
    + destruct (IH _ p Hfeed) as (Hact & Hall & Hsound & Hkeep & Hempty).
      cbn [action fields] in *.
      repeat split; try done.
Qed.

End FormLaws.

(* ===================================================================== *)
(** * Further properties of the SAML bridge                               *)
(* ===================================================================== *)

Section FlowLaws.
Import SSO FlowViews.

Variable json_loads : string → option json.
Variable urljoin : string → string → string.
Variable html_starttags : string → FormParser.parsing.
Variable decode_replace : string → string.

(** X13. The flow stops at the first response when it is not the identity
    provider's login page: with [ProtocolMismatch] when the URL does not
    contain [login.microsoftonline.com], with [ParseError] when the page has
    no [$Config] blob (no match of the pattern, whose [\s] is the whitespace
    of a [str] pattern). In both cases the login request is the only request
    of the run, so neither the username nor the password is sent. *)
Theorem login_page_rejected (username password : string) (s : session)
  (r : response) (rest : list (option response)) :
  script s = Some r :: rest →
  let run :=
    refresh_token json_loads urljoin html_starttags decode_replace
      username password s in
  let stopped :=
    {| script := rest; sent := (sent s ++ [http_get login_url])%list |} in
  (contains "login.microsoftonline.com" (url r) = false →
   run = (Raise (SystemExit ProtocolMismatch), stopped))
  ∧ (contains "login.microsoftonline.com" (url r) = true →
     search_config (text r) = None →
     run = (Raise (SystemExit ParseError), stopped)).
Proof.
  intros Hs. cbv zeta. unfold refresh_token, bind, send. rewrite Hs.
  split.
  - intros Hu. by rewrite Hu.
  - intros Hu Hc. by rewrite Hu, Hc.
Qed.

(** X14. When the answer to the password submission contains the text
    [AADSTS], the flow ends with [AuthFailed]: the run issued the login,
    credential-type and password requests and nothing after them, whatever
    else the page contains. *)
Theorem auth_error_stops_flow (username password : string) (s : session)
  (r r2 r3 : response) (rest : list (option response))
  (config cred : gmap string json) (post_path : string) :
  script s = Some r :: Some r2 :: Some r3 :: rest →
  ready_for_password json_loads r r2 config cred post_path →
  contains "AADSTS" (text r3) = true →
  refresh_token json_loads urljoin html_starttags decode_replace
    username password s
  = (Raise (SystemExit AuthFailed),
     {| script := rest;
        sent := (sent s ++ sign_in_requests urljoin username password
                             config cred post_path)%list |})
  ∧ map carries_password
      (sign_in_requests urljoin username password config cred post_path)
    = [false; false; true].
Proof.
  intros Hs Hready Haad.
  rewrite (reaches_password_answer json_loads urljoin html_starttags
             decode_replace username password s r r2 r3 rest config
             cred post_path Hs Hready).
  unfold after_password. rewrite Haad. split; reflexivity.
Qed.

(** X15. The "stay signed in" interrupt: when the password answer mentions
    [KmsiInterrupt] or [StaySignedIn] and carries a configuration (a match
    of the pattern, whose [\s] is the whitespace of a [str] pattern) with a
    textual [urlPost], the flow posts the fixed choice ([LoginOptions] 1,
    [type] 28, with the configuration's context, flow token and canary) to
    that URL, without the password, and goes on with the page and URL of the
    answer. When the page carries no configuration, nothing is posted and
    the flow goes on with the password answer. *)
Theorem stay_signed_in_posts_choice (r3 : response) (s : session) :
  (contains "KmsiInterrupt" (text r3) || contains "StaySignedIn" (text r3)
   = true)%bool →
  (∀ blob c2 post_path r4 rest,
     search_config (text r3) = Some blob →
     json_loads blob = Some (JObj c2) →
     dict_get c2 "urlPost" (JStr "") = JStr post_path →
     script s = Some r4 :: rest →
     let choice :=
       http_post
         (if startswith "http" post_path then post_path
          else urljoin (String.append MS_BASE "/") post_path)
         (FormData (kmsi_form (dict_get c2 "sCtx" (JStr ""))
                              (dict_get c2 "sFT" (JStr ""))
                              (dict_get c2 "canary" (JStr "")))) true in
     stay_signed_in json_loads urljoin r3 s
     = (Ret (text r4, url r4),
        {| script := rest; sent := (sent s ++ [choice])%list |})
     ∧ carries_password choice = false)
  ∧ (search_config (text r3) = None →
     stay_signed_in json_loads urljoin r3 s = (Ret (text r3, url r3), s)).
Proof.
  intros Hk. unfold stay_signed_in. rewrite Hk. split.
  - intros blob c2 post_path r4 rest Hblob Hloads Hpost Hs. cbv zeta.
    rewrite Hblob. unfold bind, loads. rewrite Hloads.
    unfold ret, lift, get, resolve. rewrite Hpost.
    split; [|reflexivity].
    destruct (startswith "http" post_path); unfold ret, send; by rewrite Hs.
  - intros Hnone. by rewrite Hnone.
Qed.

(** X16. The SAML form step: when the current page mentions [SAMLResponse]
    and the parser returns with a non-empty action and a hidden field named
    [SAMLResponse], the flow posts every hidden field of the page to the
    action (resolved against the current URL unless it starts with [http])
    and goes on with the answer; when the page does not mention it, or the
    parser returns with no action or no such field, nothing is posted and
    page and URL stay. *)
Theorem saml_post_submits_fields (page current_url : string) (s : session) :
  (contains "SAMLResponse" page = false →
   saml_post urljoin html_starttags page current_url s
   = (Ret (page, current_url), s))
  ∧ (∀ fp,
       contains "SAMLResponse" page = true →
       FormParser.feed_page FormParser.init (html_starttags page) = Ret fp →
       (FormParser.action fp = None ∨ FormParser.action fp = Some ""
        ∨ FormParser.fields fp !! "SAMLResponse" = None) →
       saml_post urljoin html_starttags page current_url s
       = (Ret (page, current_url), s))
  ∧ (∀ fp act r5 rest,
       contains "SAMLResponse" page = true →
       FormParser.feed_page FormParser.init (html_starttags page) = Ret fp →
       FormParser.action fp = Some act → act ≠ "" →
       is_Some (FormParser.fields fp !! "SAMLResponse") →
       script s = Some r5 :: rest →
       saml_post urljoin html_starttags page current_url s
       = (Ret (text r5, url r5),
          {| script := rest;
             sent :=
               (sent s ++
                [http_post
                   (if startswith "http" act then act
                    else urljoin current_url act)
                   (FormData (fields_data (FormParser.fields fp))) true])%list |})).
Proof.
  unfold saml_post. split; [|split].
  - intros H. by rewrite H.
  - intros fp H Hfeed Hno. rewrite H. unfold bind, lift. rewrite Hfeed.
    destruct (FormParser.action fp) as [act|]; [|done].
    destruct Hno as [Hno|[Hno|Hno]]; [done| |].
    + injection Hno as ->. done.
    + rewrite bool_decide_false; [by rewrite andb_false_r|].
      rewrite Hno. by intros [? ?].
  - intros fp act r5 rest H Hfeed Hact Hne Hfield Hs.
    rewrite H. unfold bind, lift. rewrite Hfeed, Hact.
    apply String.eqb_neq in Hne. rewrite Hne. cbn [negb andb].
    rewrite bool_decide_true by done. unfold send, ret. by rewrite Hs.
Qed.

(** X17. The token exchange fails with [UnexpectedResponse] when the answer
    is not a redirect (status other than 301, 302, 303), and with
    [NoTokenInRedirect] when it is one whose [Location] header is missing or
    has no [token=] parameter with a value. In both cases the launch
    request is the only one issued. *)
Theorem launch_rejects_answer (s : session) (r6 : response)
  (rest : list (option response)) :
  script s = Some r6 :: rest →
  let after :=
    {| script := rest;
       sent := (sent s ++ [http_post launch_url (FormData launch_form) false])%list |} in
  (status_code r6 ≠ 301 → status_code r6 ≠ 302 → status_code r6 ≠ 303 →
   launch decode_replace s = (Raise (SystemExit UnexpectedResponse), after))
  ∧ ((status_code r6 = 301 ∨ status_code r6 = 302 ∨ status_code r6 = 303) →
     (location r6 = None
      ∨ ∃ loc, location r6 = Some loc ∧ search_token loc = None) →
     launch decode_replace s = (Raise (SystemExit NoTokenInRedirect), after)).
Proof.
  intros Hs. cbv zeta. unfold launch, bind, send. rewrite Hs. split.
  - intros H1 H2 H3.
    apply Z.eqb_neq in H1, H2, H3. by rewrite H1, H2, H3.
  - intros Hst Hloc.
    replace (negb _) with false
      by (destruct Hst as [->|[->| ->]]; reflexivity).
    destruct Hloc as [->|(loc & -> & Hnone)]; cbn [from_option id].
    + reflexivity.
    + by rewrite Hnone.
Qed.

(** X18. The token exchange end to end: answered by a redirect whose
    [token] parameter is the base64 encoding of [passport:::token] or
    [passport:::token:::private], with or without its trailing [=], the
    flow returns [token] (for passport, token and private token free of
    colons, and a payload that decodes to itself). *)
Theorem launch_returns_token (s : session) (r6 : response)
  (rest : list (option response)) (loc raw passport token tail : string)
  (k : nat) :
  script s = Some r6 :: rest →
  (status_code r6 = 301 ∨ status_code r6 = 302 ∨ status_code r6 = 303) →
  location r6 = Some loc →
  search_token loc = Some raw →
  (k ≤ 3)%nat →
  no_colon passport = true → no_colon token = true →
  (tail = "" ∨ ∃ private, no_colon private = true
                          ∧ tail = String.append ":::" private) →
  let payload :=
    String.append passport (String.append ":::" (String.append token tail)) in
  String.append raw (str_repeat "=" k) = Base64.b64encode payload →
  decode_replace payload = payload →
  launch decode_replace s
  = (Ret token,
     {| script := rest;
        sent := (sent s ++ [http_post launch_url (FormData launch_form) false])%list |}).
Proof.
  intros Hs Hst Hloc Htok Hk Hp Ht Htail payload Henc Hdec.
  rewrite (launch_recovers_token decode_replace s r6 rest loc raw payload k
             Hs Hst Hloc Htok Hk Henc).
  rewrite Hdec. unfold token_of_decoded. subst payload.
  destruct Htail as [->|(private & Hpr & ->)].
  - rewrite append_empty_r. by rewrite split_two.
  - by rewrite split_three.
Qed.

End FlowLaws.

(* ===================================================================== *)
(** * Further properties of the token extraction                          *)
(* ===================================================================== *)

Section ExtractionLaws.
Import SSO FlowViews.

Lemma prefix_empty (s : string) : String.prefix "" s = true.
Proof. by destruct s. Qed.

Lemma prefix_split (p : string) :
  ∀ s, String.prefix p s = true →
       s = String.append p (drop (String.length p) s).
Proof.
  induction p as [|a p IH]; intros s Hp; [by destruct s|].
  destruct s as [|b s]; [done|]. cbn [String.prefix] in Hp.
  destruct (ascii_dec a b) as [->|]; [|done].
  change (String b s = String b (String.append p (drop (String.length p) s))).
  f_equal. by apply IH.
Qed.

Lemma take_while_split (p : ascii → bool) (s : string) :
  ∃ post,
    s = String.append (take_while p s) post
    ∧ match post with
      | EmptyString => True
      | String c _ => p c = false
      end.
Proof.
  induction s as [|c s (post & Hs & Hpost)].
  - by exists "".
  - cbn [take_while]. destruct (p c) eqn:Hc.
    + exists post. split; [|done].
      change (String c s = String c (String.append (take_while p s) post)).
      by rewrite <- Hs.
    + exists (String c s). by split.
Qed.

Lemma take_while_all (p : ascii → bool) (s : string) :
  all_chars p (take_while p s) = true.
Proof.
  induction s as [|c s IH]; [done|]. cbn [take_while].
  destruct (p c) eqn:Hc; [|done]. cbn [all_chars]. by rewrite Hc, IH.
Qed.

Lemma search_token_unfold (s : string) :
  search_token s =
  match (if String.prefix "token=" s then
           match take_while is_token_char (drop 6 s) with
           | EmptyString => None
           | g => Some g
           end
         else None) with
  | Some g => Some g
  | None => match s with
            | EmptyString => None
            | String _ rest => search_token rest
            end
  end.
Proof. by destruct s. Qed.

(** X19. What the token pattern captures: a non-empty run of characters of
    the class [[A-Za-z0-9+/=_-]] that stands in the text right after
    [token=] and is not followed by another character of the class; and a
    text without [token=] yields nothing. *)
Theorem search_token_captures (s : string) :
  (∀ g, search_token s = Some g →
        g ≠ ""
        ∧ all_chars is_token_char g = true
        ∧ ∃ pre post,
            s = String.append pre
                  (String.append "token=" (String.append g post))
            ∧ starts_with_token_char post = false)
  ∧ (contains "token=" s = false → search_token s = None).
Proof.
  induction s as [|c s [IHsome IHnone]].
  - split; [intros g Hg; by rewrite search_token_unfold in Hg|done].
  - split.
    + intros g Hg. rewrite search_token_unfold in Hg.
      destruct (String.prefix "token=" (String c s)) eqn:Hp.
      * destruct (take_while is_token_char (drop 6 (String c s)))
          as [|c0 g0] eqn:Htw.
        -- destruct (IHsome g Hg) as (Hne & Hall & pre & post & Hs & Hpost).
           split; [done|]. split; [done|].
           exists (String c pre), post. split; [|done].
           change (String c s = String c (String.append pre
                     (String.append "token=" (String.append g post)))).
           by rewrite <- Hs.
        -- injection Hg as <-. split; [done|].
           split; [rewrite <- Htw; apply take_while_all|].
           destruct (take_while_split is_token_char (drop 6 (String c s)))
             as (post & Hd & Hpost).
           exists "", post. split.
           ++ rewrite <- Htw, <- Hd.
              exact (prefix_split "token=" (String c s) Hp).
           ++ destruct post; [done|exact Hpost].
      * destruct (IHsome g Hg) as (Hne & Hall & pre & post & Hs & Hpost).
        split; [done|]. split; [done|].
        exists (String c pre), post. split; [|done].
        change (String c s = String c (String.append pre
                  (String.append "token=" (String.append g post)))).
        by rewrite <- Hs.
    + intros Hc. rewrite contains_cons in Hc.
      rewrite search_token_unfold.
      destruct (String.prefix "token=" (String c s)); [done|].
      by apply IHnone.
Qed.

(** Padding is restored once and for all: the result has a length that
    is a multiple of 4, and restoring it again changes nothing. *)
Theorem restore_padding_idempotent (raw : string) :
  (Z.of_nat (String.length (restore_padding raw)) mod 4 = 0)%Z
  ∧ restore_padding (restore_padding raw) = restore_padding raw.
Proof.
  assert (Hlen : (Z.of_nat (String.length (restore_padding raw)) mod 4 = 0)%Z).
  { destruct (restore_padding_appends raw) as (n & E & Hn & Hmod).
    by rewrite E, length_append, length_str_repeat, Nat2Z.inj_add. }
  split; [exact Hlen|].
  destruct (restore_padding_cases (restore_padding raw))
    as [[H E]|[[H E]|[[H E]|[H E]]]]; cbv zeta in *; [done| | |];
    rewrite Hlen in H; discriminate.
Qed.

End ExtractionLaws.

(* ===================================================================== *)
(** * The requests of a run of the flow                                   *)
(* ===================================================================== *)

Section FlowBounds.
Import SSO.

Variable json_loads : string → option json.
Variable urljoin : string → string → string.
Variable html_starttags : string → FormParser.parsing.
Variable decode_replace : string → string.

(** Case analysis on every test and every scripted answer of a run. *)
Ltac split_run :=
  repeat match goal with
         | |- context [match script ?s with _ => _ end] =>
             destruct (script s) as [|[?|] ?] eqn:?
         | |- context [match ?x with _ => _ end] =>
             lazymatch x with
             | context [match _ with _ => _ end] => fail
             | _ => destruct x eqn:?
             end
         | |- context [if ?x then _ else _] =>
             lazymatch x with
             | context [match _ with _ => _ end] => fail
             | context [if _ then _ else _] => fail
             | _ => destruct x eqn:?
             end
         end; cbn [script sent fst snd] in *.

(** X20. Every run of the flow, whatever the servers answer, issues between
    one and six requests, the first being the login request, and reads one
    scripted answer per request: there is no retry and no loop. A run that
    returns a token issued at least four requests, the last of which is the
    token exchange, and of its first three requests only the third carries
    the password. *)
Theorem refresh_token_requests (username password : string) (s : session) :
  let run :=
    refresh_token json_loads urljoin html_starttags decode_replace
      username password s in
  ∃ issued,
    sent (snd run) = (sent s ++ issued)%list
    ∧ (1 ≤ List.length issued ≤ 6)%nat
    ∧ head issued = Some (http_get login_url)
    ∧ script (snd run) = skipn (List.length issued) (script s)
    ∧ (∀ t, fst run = Ret t →
         (4 ≤ List.length issued)%nat
         ∧ last issued
           = Some (http_post launch_url (FormData launch_form) false)
         ∧ map carries_password (firstn 3 issued) = [false; false; true]).
Proof.
  destruct s as [scr snt]. cbv zeta.
  unfold refresh_token, reentry_checkpoint, launch, saml_post, stay_signed_in,
    token_of_decoded, resolve, loads, bind, send, lift, ret, err, raise,
    get, getitem.
  cbn [script sent].
  split_run.
  all: subst; rewrite <- ?app_assoc; eexists; (split; [reflexivity|]);
    (split; [cbn; lia|]); (split; [reflexivity|]); (split; [reflexivity|]);
    intros t Ht;
    first [discriminate Ht
          | repeat split; first [cbn; lia | reflexivity]].
Qed.

End FlowBounds.

(* ===================================================================== *)
(** * Properties of the Moodle client                                     *)
(* ===================================================================== *)

Section MoodleLaws.
Import MoodleClient.

Variable fromtimestamp_ok : Z → bool.
Variable fromtimestamp_error : Z → exn.

Lemma post_json_logs (url : string) (f : form) (w : world) :
  requests (snd (post_json url f w)) =
    (requests w ++ [{| to := url; form_data := f |}])%list
  ∧ file (snd (post_json url f w)) = file w
  ∧ answers (snd (post_json url f w)) = tail (answers w).
Proof.
  unfold post_json. destruct (answers w) as [|r rest]; [done|].
  destruct (TokenManager.result r) as [|status body]; [done|].
  destruct (TokenManager.is_http_error status); [done|].
  by destruct body.
Qed.

Lemma post_json_answer (url : string) (f : form) (w : world)
  (r : TokenManager.reply) (rest : list TokenManager.reply) (status : Z)
  (data : json) :
  answers w = r :: rest →
  TokenManager.result r = TokenManager.Response status (Some data) →
  TokenManager.is_http_error status = false →
  post_json url f w =
  (Ok data,
   {| now := now w + TokenManager.latency r; file := file w; answers := rest;
      requests := (requests w ++ [{| to := url; form_data := f |}])%list |}).
Proof.
  intros Ha Hr Hs. unfold post_json. by rewrite Ha, Hr, Hs.
Qed.

(** [get_token] serves a saved token from the file: when the file holds
    an object with a truthy [token] and a timestamp [fromtimestamp] accepts,
    that token is returned, no request is made and nothing changes, whatever
    the environment variables and the user's input are. A file that is not
    JSON makes [get_token] raise instead of authenticating again. *)
Theorem get_token_uses_saved_token (env_username env_password : option string)
  (typed_username typed_password : string) (w : world)
  (data : gmap string json) (ts : Z) :
  file w = Saved (JObj data) →
  truthy (dict_get data "token" JNull) = true →
  TokenManager.as_num (dict_get data "timestamp" (JNum 0)) = Some ts →
  fromtimestamp_ok ts = true →
  get_token fromtimestamp_ok fromtimestamp_error env_username env_password
    typed_username typed_password w
  = (Ok (dict_get data "token" JNull), w)
  ∧ (∀ v, file v = NotJson →
          get_token fromtimestamp_ok fromtimestamp_error env_username env_password
            typed_username typed_password v
          = (Err (PyError JSONDecodeError), v)).
Proof.
  intros Hf Ht Hts Hok. unfold get_token. split.
  - by rewrite Hf, Ht, Hts, Hok.
  - intros v Hv. by rewrite Hv.
Qed.

(** X21. Logging in: with no saved token, [get_token] posts the username,
    the password and the service name to the token endpoint. When the answer
    is an object without [token], it exits and writes nothing. When the
    answer has a [token], it returns it and saves it with the time of the
    answer, and a later [get_token] (if the token is truthy and the time
    is one [fromtimestamp] accepts) returns the same token without a
    request. *)
Theorem get_token_logs_in (env_username env_password : option string)
  (typed_username typed_password : string) (w : world)
  (r : TokenManager.reply) (rest : list TokenManager.reply) (status : Z)
  (d : gmap string json) :
  file w = NoFile →
  answers w = r :: rest →
  TokenManager.result r = TokenManager.Response status (Some (JObj d)) →
  TokenManager.is_http_error status = false →
  let run :=
    get_token fromtimestamp_ok fromtimestamp_error env_username env_password
      typed_username typed_password w in
  let login :=
    {| to := token_url;
       form_data :=
         DictForm (login_form (env_or_input env_username typed_username)
                              (env_or_input env_password typed_password)) |} in
  requests (snd run) = (requests w ++ [login])%list
  ∧ answers (snd run) = rest
  ∧ (d !! "token" = None →
     fst run = Err Exit ∧ file (snd run) = NoFile)
  ∧ (∀ t, d !! "token" = Some t →
       fst run = Ok t
       ∧ file (snd run) =
           Saved (JObj (<["token" := t]>
                          (<["timestamp" :=
                              JNum (now w + TokenManager.latency r)]> ∅)))
       ∧ (truthy t = true →
          fromtimestamp_ok (now w + TokenManager.latency r) = true →
          ∀ eu ep tu tp,
            get_token fromtimestamp_ok fromtimestamp_error eu ep tu tp (snd run)
            = (Ok t, snd run))).
Proof.
  intros Hf Ha Hr Hs run login. subst run login.
  unfold get_token. rewrite Hf. unfold authenticate.
  rewrite (post_json_answer _ _ w r rest status (JObj d) Ha Hr Hs).
  cbn [TokenManager.py_in].
  destruct (d !! "token") as [t|] eqn:Ht.
  - rewrite bool_decide_true by done. cbn [fst snd requests answers file].
    split; [done|]. split; [done|]. split; [done|].
    intros t' Ht'. injection Ht' as <-.
    assert (Hdt : dict_get d "token" JNull = t)
      by (unfold dict_get; by rewrite Ht).
    rewrite !Hdt. cbn [now].
    split; [done|]. split; [done|].
    intros Htruthy Hok eu ep tu tp. cbn [file].
    change (dict_get (<["token" := t]> _) "token" JNull) with t.
    rewrite Htruthy.
    change (dict_get (<["token" := t]> _) "timestamp" (JNum 0))
      with (JNum (now w + TokenManager.latency r)).
    cbn [TokenManager.as_num]. by rewrite Hok.
  - rewrite bool_decide_false by (by intros [? ?]).
    cbn [fst snd requests answers file]. rewrite Hf.
    split; [done|]. split; [done|]. split; [done|]. intros t Habs. done.
Qed.

(** X22. A [_call] whose keyword parameters include one named [self] or
    [wsfunction] is a [TypeError] of the call itself: no request is made and
    nothing changes. Every other [_call] makes one POST to the REST endpoint
    whose form carries the client's token as [wstoken], the function name
    and the JSON format, together with the caller's parameters; a caller's
    parameter named [wstoken] or [moodlewsrestformat] is overridden. It
    never touches the token file. An answer that is an object with an
    [exception] key becomes [MoodleError] (error code "?" and message
    "Unknown error" when absent); any other JSON answer is returned as it
    is. *)
Theorem call_sends_token (self : moodle_client) (wsfunction : string)
  (params : gmap string json) (w : world) :
  let run := _call self wsfunction params w in
  (is_Some (params !! "self") ∨ is_Some (params !! "wsfunction") →
   run = (Err (PyError TypeError), w))
  ∧ (params !! "self" = None → params !! "wsfunction" = None →
     ∃ data,
       requests (snd run) =
         (requests w ++ [{| to := rest_url; form_data := DictForm data |}])%list
       ∧ data !! "wstoken" = Some (token self)
       ∧ data !! "wsfunction" = Some (JStr wsfunction)
       ∧ data !! "moodlewsrestformat" = Some (JStr "json")
       ∧ (∀ k, k ≠ "wstoken" → k ≠ "wsfunction" → k ≠ "moodlewsrestformat" →
               data !! k = params !! k)
       ∧ file (snd run) = file w
       ∧ (∀ r rest status answer,
            answers w = r :: rest →
            TokenManager.result r = TokenManager.Response status (Some answer) →
            TokenManager.is_http_error status = false →
            match answer with
            | JObj d =>
                if bool_decide (is_Some (d !! "exception"))
                then fst run =
                     Err (MoodleError (dict_get d "errorcode" (JStr "?"))
                                      (dict_get d "message" (JStr "Unknown error")))
                else fst run = Ok answer
            | _ => fst run = Ok answer
            end)).
Proof.
  cbv zeta. unfold _call. split.
  { intros Hk. by rewrite bool_decide_true. }
  intros Hself Hws.
  rewrite bool_decide_false
    by (rewrite Hself, Hws; intros [[? ?]|[? ?]]; done).
  eexists.
  destruct (post_json_logs rest_url
              (DictForm (<["moodlewsrestformat" := JStr "json"]>
                           (<["wsfunction" := JStr wsfunction]>
                              (<["wstoken" := token self]> params)))) w)
    as (Hreq & Hfile & _).
  split; [|split; [|split; [|split; [|split; [|split]]]]].
  - destruct (post_json _ _ w) as [[answer|e] w'] eqn:Hp; exact Hreq.
  - by rewrite lookup_insert_ne, lookup_insert_ne, lookup_insert_eq.
  - by rewrite lookup_insert_ne, lookup_insert_eq.
  - by rewrite lookup_insert_eq.
  - intros k H1 H2 H3. by rewrite !lookup_insert_ne.
  - destruct (post_json _ _ w) as [[answer|e] w'] eqn:Hp; exact Hfile.
  - intros r rest status answer Ha Hr Hs.
    rewrite (post_json_answer _ _ w r rest status answer Ha Hr Hs).
    cbn [fst]. unfold check_exception.
    destruct answer as [| | | | |d]; try done.
    by destruct (bool_decide (is_Some (d !! "exception"))).
Qed.

(** X23. The user identifier is fetched once: after a [get_user_id] that
    returned an identifier other than [None], every further [get_user_id]
    returns it without a request and without changing the client, and
    [get_courses] makes exactly one request, which carries that identifier
    as [userid]. The first call itself makes exactly one request. *)
Theorem user_id_is_fetched_once (self self' : moodle_client) (w w' : world)
  (uid : json) :
  _user_id self = JNull →
  get_user_id self w = (Ok uid, self', w') →
  uid ≠ JNull →
  List.length (requests w') = S (List.length (requests w))
  ∧ token self' = token self
  ∧ (∀ v, get_user_id self' v = (Ok uid, self', v))
  ∧ (∀ v, ∃ data,
       requests (snd (get_courses self' v)) =
         (requests v ++ [{| to := rest_url; form_data := DictForm data |}])%list
       ∧ data !! "userid" = Some uid
       ∧ data !! "wstoken" = Some (token self)).
Proof.
  intros Hnone Hget Huid. unfold get_user_id in Hget. rewrite Hnone in Hget.
  unfold get_site_info, _call in Hget.
  rewrite bool_decide_false in Hget
    by (rewrite !lookup_empty; intros [[? ?]|[? ?]]; done).
  destruct (post_json_logs rest_url
              (DictForm (<["moodlewsrestformat" := JStr "json"]>
                           (<["wsfunction" := JStr "core_webservice_get_site_info"]>
                              (<["wstoken" := token self]> ∅)))) w)
    as (Hreq & _ & _).
  destruct (post_json _ _ w) as [[answer|e] w1] eqn:Hp; [|done].
  cbn [snd] in Hreq.
  destruct (check_exception answer) as [[| | | | |info]|e]; try done.
  destruct (info !! "userid") as [u|]; [|done].
  injection Hget as <- <- <-.
  assert (Hcached : ∀ v,
            get_user_id
              {| token := token self; _user_id := u;
                 _fullname := dict_get info "fullname" (JStr "") |} v
            = (Ok u, {| token := token self; _user_id := u;
                        _fullname := dict_get info "fullname" (JStr "") |}, v)).
  { intros v. unfold get_user_id. cbn [_user_id]. by destruct u. }
  split; [rewrite Hreq, length_app; cbn; lia|].
  split; [done|]. split; [exact Hcached|].
  intros v. unfold get_courses. rewrite Hcached. unfold _call. cbn [token].
  rewrite bool_decide_false
    by (rewrite !lookup_insert_ne, !lookup_empty by done;
        intros [[? ?]|[? ?]]; done).
  exists (<["moodlewsrestformat" := JStr "json"]>
            (<["wsfunction" := JStr "core_enrol_get_users_courses"]>
               (<["wstoken" := token self]> (<["userid" := u]> ∅)))).
  destruct (post_json_logs rest_url
              (DictForm (<["moodlewsrestformat" := JStr "json"]>
                           (<["wsfunction" := JStr "core_enrol_get_users_courses"]>
                              (<["wstoken" := token self]>
                                 (<["userid" := u]> ∅))))) v)
    as (Hreq' & _ & _).
  split; [|split; reflexivity].
  destruct (post_json _ _ v) as [[answer'|e'] v'] eqn:Hp'; exact Hreq'.
Qed.

End MoodleLaws.

(* ===================================================================== *)
(** * Properties of the table of messages                                 *)
(* ===================================================================== *)

Section CliLaws.
Import Cli.
Local Open Scope Z_scope.

Variable format_date : string → option string.

Lemma length_substring_0 (n : nat) :
  ∀ s, String.length (String.substring 0 n s) = Nat.min n (String.length s).
Proof.
  induction n as [|n IH]; intros [|c s]; try done.
  cbn [String.substring String.length]. by rewrite IH.
Qed.

Lemma substring_0_whole (n : nat) :
  ∀ s, (String.length s ≤ n)%nat → String.substring 0 n s = s.
Proof.
  induction n as [|n IH]; intros [|c s] Hs; try done.
  - cbn in Hs. lia.
  - cbn [String.substring]. rewrite IH; [done|]. cbn in Hs. lia.
Qed.

Lemma length_slice_to (n : Z) (s : string) :
  0 ≤ n →
  Z.of_nat (String.length (slice_to n s)) = Z.min n (Z.of_nat (String.length s)).
Proof.
  intros Hn. unfold slice_to.
  destruct (Z.leb_spec 0 n); [|lia].
  rewrite length_substring_0. lia.
Qed.

Lemma length_ljust (w : Z) (s : string) :
  Z.of_nat (String.length s) ≤ w →
  Z.of_nat (String.length (ljust w s)) = w.
Proof.
  intros Hs. unfold ljust.
  rewrite length_append, length_str_repeat. lia.
Qed.

Lemma length_times (n : Z) :
  0 ≤ n → Z.of_nat (String.length (times "-" n)) = n.
Proof. intros Hn. unfold times. rewrite length_str_repeat. lia. Qed.

Lemma length_line (uw fw : Z) (c1 c2 c3 c4 : string) :
  Z.of_nat (String.length c1) ≤ uw →
  Z.of_nat (String.length c2) ≤ date_w →
  Z.of_nat (String.length c3) ≤ fw →
  Z.of_nat (String.length (line uw fw c1 c2 c3 c4)) =
  uw + fw + 20 + Z.of_nat (String.length c4).
Proof.
  intros H1 H2 H3. unfold line.
  rewrite !length_append, !Nat2Z.inj_add, !length_ljust by done.
  unfold date_w. cbn [String.length]. lia.
Qed.

Lemma uid_w_bounds (emails_list : list email) :
  3 ≤ uid_w emails_list
  ∧ ∀ e, In e emails_list → Z.of_nat (String.length (uid e)) ≤ uid_w emails_list.
Proof.
  unfold uid_w. split; [lia|]. intros e He.
  assert (String.length (uid e)
          ≤ max_list (map (fun e => String.length (uid e)) emails_list))%nat.
  { apply max_list_elem_of_le, list_elem_of_In, in_map_iff. by exists e. }
  lia.
Qed.

Lemma from_w_bounds (term_width : Z) (emails_list : list email) :
  15 ≤ from_w term_width emails_list ≤ 30.
Proof. unfold from_w. lia. Qed.

Lemma length_shown_subject (width : Z) (subj : string) :
  3 < width →
  Z.of_nat (String.length (shown_subject width subj)) =
  Z.min width (Z.of_nat (String.length subj)).
Proof.
  intros Hw. unfold shown_subject.
  destruct (Z.ltb_spec 3 width); [|lia]. cbn [andb].
  destruct (Z.ltb_spec width (Z.of_nat (String.length subj))); [|lia].
  rewrite length_append, Nat2Z.inj_add, length_slice_to by lia.
  cbn [String.length]. lia.
Qed.

(** X24. The table fits the terminal. The sender column is between 15 and
    30 characters wide. When the subject column is wider than 3, every
    message row is at most as wide as the terminal, shows the message's UID
    in full, shows a subject that fits the column unchanged, and cuts a
    longer one to the column's width, ending in three dots. When the subject
    column is at least 7 wide, which it is in a terminal of [uid_w + 57]
    columns or more, the header fits too and the rule is exactly as wide as
    the terminal. *)
Theorem table_fits_terminal (term_width : Z) (emails_list : list email) :
  3 < subj_w term_width emails_list →
  let sw := subj_w term_width emails_list in
  let width (s : string) := Z.of_nat (String.length s) in
  15 ≤ from_w term_width emails_list ≤ 30
  ∧ (∀ e, In e emails_list →
       width (row format_date term_width emails_list e) ≤ term_width
       ∧ slice_to (uid_w emails_list) (uid e) = uid e
       ∧ (width (subject e) ≤ sw →
          shown_subject sw (subject e) = subject e)
       ∧ (sw < width (subject e) →
          width (shown_subject sw (subject e)) = sw
          ∧ ∃ kept, shown_subject sw (subject e) = String.append kept "..."
                    ∧ String.prefix kept (subject e) = true))
  ∧ (7 ≤ sw →
     width (header term_width emails_list) ≤ term_width
     ∧ width (rule term_width emails_list) = term_width)
  ∧ (uid_w emails_list + 57 ≤ term_width → 7 ≤ sw).
Proof.
  intros Hsw sw width. subst sw width. cbv beta.
  pose proof (from_w_bounds term_width emails_list) as Hfw.
  destruct (uid_w_bounds emails_list) as [Huw Huid].
  assert (Hsum : uid_w emails_list + from_w term_width emails_list + 20
                 = term_width - subj_w term_width emails_list).
  { unfold subj_w, remaining, date_w. lia. }
  split; [exact Hfw|]. split; [|split].
  - intros e He. specialize (Huid e He). split; [|split; [|split]].
    + unfold row. cbv zeta. rewrite length_line.
      * rewrite length_shown_subject by done. lia.
      * rewrite length_slice_to by lia. lia.
      * rewrite length_slice_to by (unfold date_w; lia). lia.
      * rewrite length_slice_to by lia. lia.
    + unfold slice_to. destruct (Z.leb_spec 0 (uid_w emails_list)); [|lia].
      apply substring_0_whole. lia.
    + intros Hfit. unfold shown_subject.
      destruct (Z.ltb_spec (subj_w term_width emails_list)
                  (Z.of_nat (String.length (subject e)))); [lia|].
      by rewrite andb_false_r.
    + intros Hlong. split.
      * rewrite length_shown_subject by done. lia.
      * unfold shown_subject.
        destruct (Z.ltb_spec 3 (subj_w term_width emails_list)); [|lia].
        destruct (Z.ltb_spec (subj_w term_width emails_list)
                    (Z.of_nat (String.length (subject e)))); [|lia].
        cbn [andb]. eexists. split; [reflexivity|].
        unfold slice_to.
        destruct (Z.leb_spec 0 (subj_w term_width emails_list - 3)); [|lia].
        generalize (Z.to_nat (subj_w term_width emails_list - 3)).
        generalize (subject e). clear.
        intros s n. revert s.
        induction n as [|n IH]; intros [|c s]; try done.
        cbn [String.substring String.prefix].
        destruct (ascii_dec c c); [apply IH|done].
  - intros H7. split.
    + unfold header. rewrite length_line; cbn [String.length]; unfold date_w; lia.
    + unfold rule. cbv zeta.
      rewrite !length_append, !Nat2Z.inj_add, !length_times
        by (unfold date_w; lia).
      cbn [String.length]. unfold subj_w, remaining, date_w in *. lia.
  - intros Hwide. unfold subj_w, remaining, date_w. lia.
Qed.

End CliLaws.

(* ===================================================================== *)
(** * Properties of the mailbox operations                                *)
(* ===================================================================== *)

Section DashboardLaws.
Import EmailDashboard DashboardViews.

Lemma sends_ret {A} (p : entry → bool) (a : A) : sends_only p (ret a).
Proof. intros self w. exists []. by rewrite app_nil_r. Qed.

Lemma sends_raise {A} (p : entry → bool) (e : error) :
  sends_only p (@raise A e).
Proof. intros self w. exists []. by rewrite app_nil_r. Qed.

Lemma sends_set_conn (p : entry → bool) (b : bool) : sends_only p (set_conn b).
Proof. intros self w. exists []. by rewrite app_nil_r. Qed.

Lemma sends_imap_call (p : entry → bool) (c : command) :
  (∀ r, p (c, r) = true) → sends_only p (imap_call c).
Proof.
  intros Hp self w. unfold imap_call.
  set (reply := match imap w with [] => Fails (IMAP4_abort "socket error: EOF") | r :: _ => r end).
  exists [(c, reply)]. cbn [forallb]. rewrite Hp.
  by destruct reply.
Qed.

Lemma sends_bind {A B} (p : entry → bool) (c : D A) (k : A → D B) :
  sends_only p c → (∀ a, sends_only p (k a)) → sends_only p (bind c k).
Proof.
  intros Hc Hk self w. unfold bind.
  destruct (Hc self w) as (n1 & E1 & F1 & A1).
  destruct (c self w) as [[[a|e] self1] w1]; cbn [fst snd] in *.
  - destruct (Hk a self1 w1) as (n2 & E2 & F2 & A2).
    exists (n1 ++ n2)%list. split; [by rewrite E2, E1, app_assoc|].
    split; [|by rewrite A2].
    apply forallb_forall. intros x [Hx|Hx]%in_app_or.
    + by apply (proj1 (forallb_forall _ _) F1).
    + by apply (proj1 (forallb_forall _ _) F2).
  - by exists n1.
Qed.

Lemma sends_try_except {A} (p : entry → bool) (c : D A)
  (handled : error → bool) (handler : D A) :
  sends_only p c → sends_only p handler →
  sends_only p (try_except c handled handler).
Proof.
  intros Hc Hh self w. unfold try_except.
  destruct (Hc self w) as (n1 & E1 & F1 & A1).
  destruct (c self w) as [[[a|e] self1] w1]; cbn [fst snd] in *.
  - by exists n1.
  - destruct (handled e); [|by exists n1].
    destruct (Hh self1 w1) as (n2 & E2 & F2 & A2).
    exists (n1 ++ n2)%list. split; [by rewrite E2, E1, app_assoc|].
    split; [|by rewrite A2].
    apply forallb_forall. intros x [Hx|Hx]%in_app_or.
    + by apply (proj1 (forallb_forall _ _) F1).
    + by apply (proj1 (forallb_forall _ _) F2).
Qed.

Lemma sends_tm_get_access_token (p : entry → bool) :
  sends_only p tm_get_access_token.
Proof.
  intros self w. unfold tm_get_access_token, tm_run. exists [].
  rewrite app_nil_r. by destruct (TokenManager.value _).
Qed.

Lemma sends_tm_is_token_expired (p : entry → bool) :
  sends_only p tm_is_token_expired.
Proof.
  intros self w. unfold tm_is_token_expired. exists [].
  rewrite app_nil_r. by destruct (TokenManager.is_token_expired _ _).
Qed.

Lemma sends_if {A} (p : entry → bool) (b : bool) (c1 c2 : D A) :
  sends_only p c1 → sends_only p c2 → sends_only p (if b then c1 else c2).
Proof. by destruct b. Qed.

Lemma imap_login_sends (user : string) (password : json) :
  sends_only is_connection (_imap_login user password).
Proof.
  unfold _imap_login.
  apply sends_bind; [by apply sends_imap_call|intros _].
  apply sends_bind; [apply sends_set_conn|intros _].
  destruct password; try apply sends_raise.
  apply sends_bind; [by apply sends_imap_call|intros _].
  apply sends_bind; [by apply sends_imap_call|intros _].
  apply sends_ret.
Qed.

Lemma imap_oauth2_sends (user : string) (token : json) :
  sends_only is_connection (_imap_oauth2 user token).
Proof.
  unfold _imap_oauth2.
  apply sends_bind; [by apply sends_imap_call|intros _].
  apply sends_bind; [apply sends_set_conn|intros _].
  apply sends_bind; [by apply sends_imap_call|intros _].
  apply sends_bind; [by apply sends_imap_call|intros _].
  apply sends_ret.
Qed.

Lemma connect_with_saved_sends : sends_only is_connection _connect_with_saved.
Proof.
  intros self w. unfold _connect_with_saved. cbv zeta.
  destruct (TokenManager.eq_str _ "basic"); [apply imap_login_sends|].
  destruct (TokenManager.eq_str _ "oauth2").
  - refine (sends_bind is_connection _ _ _ _ self w);
      [apply sends_tm_get_access_token|intros token].
    apply sends_if; [apply sends_raise|apply imap_oauth2_sends].
  - exists []. by rewrite app_nil_r.
Qed.

Lemma ensure_connected_sends : sends_only is_connection _ensure_connected.
Proof.
  unfold _ensure_connected.
  apply sends_bind.
  - apply sends_try_except; [|apply sends_ret].
    intros self w. destruct (conn self).
    + refine (sends_bind is_connection _ _ _ _ self w).
      * apply sends_if; [|apply sends_ret].
        apply sends_bind; [apply sends_tm_is_token_expired|intros expired].
        apply sends_if; [apply sends_raise|apply sends_ret].
      * intros _. apply sends_bind; [by apply sends_imap_call|intros _].
        apply sends_ret.
    + exists []. by rewrite app_nil_r.
  - intros returned. destruct returned; [apply sends_ret|].
    apply sends_bind; [apply sends_set_conn|intros _].
    apply connect_with_saved_sends.
Qed.

(** The shape of the log of [_with_retry fn]: connection commands, a run
    of [fn], and after a dropped connection more connection commands and a
    second run of [fn]. [I] is an invariant of the archive folder and [P]
    relates the outcome of a run of [fn] to what it logged. *)
Lemma with_retry_log {A} (fn : D A) (I : email_dashboard → Prop)
  (P : result A → list entry → Prop) :
  (∀ s s', _archive_folder s = _archive_folder s' → I s → I s') →
  (∀ s v, I s →
     ∃ o, calls (snd (fn s v)) = (calls v ++ o)%list
          ∧ P (fst (fst (fn s v))) o
          ∧ I (snd (fst (fn s v)))) →
  ∀ self w, I self →
  ∃ c1 o1 c2 o2,
    calls (snd (_with_retry fn self w)) = (calls w ++ c1 ++ o1 ++ c2 ++ o2)%list
    ∧ forallb is_connection c1 = true
    ∧ forallb is_connection c2 = true
    ∧ I (snd (fst (_with_retry fn self w)))
    ∧ ((o1 = [] ∧ o2 = [] ∧ ∃ e, fst (fst (_with_retry fn self w)) = Err e)
       ∨ (P (fst (fst (_with_retry fn self w))) o1 ∧ c2 = [] ∧ o2 = [])
       ∨ ((o1 = [] ∨ ∃ e, dropped e = true ∧ P (Err e) o1)
          ∧ ((o2 = [] ∧ ∃ e, fst (fst (_with_retry fn self w)) = Err e)
             ∨ P (fst (fst (_with_retry fn self w))) o2))).
Proof.
  intros HI Hfn self w Hself.
  assert (Hhandler : ∀ s v, I s →
    ∃ c2 o2,
      calls (snd (bind (set_conn false)
                    (fun _ => bind _ensure_connected (fun _ => fn)) s v))
      = (calls v ++ c2 ++ o2)%list
      ∧ forallb is_connection c2 = true
      ∧ I (snd (fst (bind (set_conn false)
                       (fun _ => bind _ensure_connected (fun _ => fn)) s v)))
      ∧ ((o2 = [] ∧ ∃ e, fst (fst (bind (set_conn false)
                       (fun _ => bind _ensure_connected (fun _ => fn)) s v))
                         = Err e)
         ∨ P (fst (fst (bind (set_conn false)
                       (fun _ => bind _ensure_connected (fun _ => fn)) s v)))
             o2)).
  { intros s v Hs.
    set (s0 := {| tm := tm s; conn := false;
                  _archive_folder := _archive_folder s |}).
    assert (Hs0 : I s0) by (by apply (HI s)).
    change (bind (set_conn false)
              (fun _ => bind _ensure_connected (fun _ => fn)) s v)
      with (bind _ensure_connected (fun _ => fn) s0 v).
    unfold bind.
    destruct (ensure_connected_sends s0 v) as (c2 & E2 & F2 & A2).
    destruct (_ensure_connected s0 v) as [[[[]|e] s1] v1]; cbn [fst snd] in *.
    - assert (Hs1 : I s1) by (by apply (HI s0)).
      destruct (Hfn s1 v1 Hs1) as (o2 & E3 & P3 & I3).
      exists c2, o2. rewrite E3, E2, <- app_assoc.
      repeat split; try done. by right.
    - exists c2, []. rewrite E2, app_nil_r.
      repeat split; try done; [by apply (HI s0)|].
      left. split; [done|]. by exists e. }
  remember (_with_retry fn self w) as run eqn:Hrun.
  unfold _with_retry, try_except in Hrun. unfold bind at 1 in Hrun.
  destruct (ensure_connected_sends self w) as (c1 & E1 & F1 & A1).
  destruct (_ensure_connected self w) as [[[[]|e] s1] w1]; cbn [fst snd] in *.
  - assert (Hs1 : I s1) by (by apply (HI self)).
    destruct (Hfn s1 w1 Hs1) as (o1 & Eo & Po & Io).
    destruct (fn s1 w1) as [[[a|e] s2] w2]; cbn [fst snd] in *.
    + subst run. cbn [fst snd].
      exists c1, o1, [], []. rewrite Eo, E1, !app_nil_r, <- app_assoc.
      repeat split; try done. right; left. done.
    + destruct (dropped e) eqn:Hd.
      * destruct (Hhandler s2 w2 Io) as (c2 & o2 & E2 & F2 & I2 & R2).
        subst run.
        exists c1, o1, c2, o2. rewrite E2, Eo, E1, <- !app_assoc.
        repeat split; try done. right; right. split; [|done].
        right. by exists e.
      * subst run. cbn [fst snd].
        exists c1, o1, [], []. rewrite Eo, E1, !app_nil_r, <- app_assoc.
        repeat split; try done. right; left. done.
  - assert (Hs1 : I s1) by (by apply (HI self)).
    destruct (dropped e) eqn:Hd.
    + destruct (Hhandler s1 w1 Hs1) as (c2 & o2 & E2 & F2 & I2 & R2).
      subst run.
      exists c1, [], c2, o2. rewrite E2, E1, <- !app_assoc. cbn [app].
      repeat split; try done. right; right. split; [by left|done].
    + subst run. cbn [fst snd].
      exists c1, [], [], []. rewrite E1, !app_nil_r.
      repeat split; try done. left. repeat split; try done. by exists e.
Qed.

Lemma forallb_weaken {A} (p q : A → bool) (l : list A) :
  (∀ x, p x = true → q x = true) → forallb p l = true → forallb q l = true.
Proof.
  intros Hpq Hl. apply forallb_forall. intros x Hx.
  apply Hpq. by apply (proj1 (forallb_forall _ _) Hl).
Qed.

Lemma forallb_app_intro {A} (p : A → bool) (l1 l2 : list A) :
  forallb p l1 = true → forallb p l2 = true → forallb p (l1 ++ l2) = true.
Proof. intros H1 H2. by rewrite forallb_app, H1, H2. Qed.

Lemma filter_none {A} (p q : A → bool) (l : list A) :
  (∀ x, p x = true → q x = false) → forallb p l = true → List.filter q l = [].
Proof.
  intros Hpq. induction l as [|x l IH]; [done|].
  cbn [forallb List.filter]. intros [Hx Hl]%andb_true_iff.
  rewrite (Hpq x Hx). by apply IH.
Qed.

Lemma connection_not_uid (name : string) (args : list string) (e : entry) :
  is_connection e = true → is_uid name args e = false.
Proof. destruct e as [[] r]; done. Qed.

(** One run of the operation of [mark_as_read]. *)
Lemma mark_op_log (uid : string) (s : email_dashboard) (v : world) :
  let fn := bind (on_conn (Uid "STORE" [uid; "+FLAGS"; "(\Seen)"]))
              (fun r => ret (String.eqb (fst r) "OK")) in
  ∃ o, calls (snd (fn s v)) = (calls v ++ o)%list
       ∧ ((o = [] ∧ ∃ e, fst (fst (fn s v)) = Err e)
          ∨ ∃ m, o = [m] ∧ is_mark uid m = true
                 ∧ (∀ b, fst (fst (fn s v)) = Ok b →
                         returned m = true ∧ b = answered_ok m)
                 ∧ (∀ e, fst (fst (fn s v)) = Err e → snd m = Fails e)).
Proof.
  cbv zeta. unfold bind, on_conn. destruct (conn s).
  - unfold imap_call.
    set (reply := match imap v with [] => Fails (IMAP4_abort "socket error: EOF") | r :: _ => r end).
    exists [(Uid "STORE" [uid; "+FLAGS"; "(\Seen)"], reply)].
    assert (Hm : is_mark uid (Uid "STORE" [uid; "+FLAGS"; "(\Seen)"], reply)
                 = true).
    { unfold is_mark, is_uid. cbn [fst]. by rewrite bool_decide_true. }
    destruct reply as [status data|e]; cbn [fst snd ret].
    + split; [done|]. right. eexists. split; [done|]. split; [exact Hm|].
      split; [|done]. intros b [= <-]. done.
    + split; [done|]. right. eexists. split; [done|]. split; [exact Hm|].
      split; [done|]. by intros e' [= <-].
  - exists []. rewrite app_nil_r. split; [done|]. left. split; [done|].
    by eexists.
Qed.

(** X25. [mark_as_read] sends the [STORE +FLAGS (\Seen)] command for the
    message at most twice, and besides it only connection commands (connect,
    log in, select, no-op). It sends it a second time only when the first
    one failed with [IMAP4.abort] or [OSError]; an answer, whatever its
    status, or an [IMAP4.error] is final. When it returns, the value says
    whether the last such command was answered [OK]. *)
Theorem mark_as_read_retries_once (uid : string) (self : email_dashboard)
  (w : world) :
  let run := mark_as_read uid self w in
  ∃ new,
    calls (snd run) = (calls w ++ new)%list
    ∧ forallb (fun e => is_connection e || is_mark uid e)%bool new = true
    ∧ (List.length (List.filter (is_mark uid) new) ≤ 2)%nat
    ∧ (∀ e1 e2, List.filter (is_mark uid) new = [e1; e2] →
                failed_dropped e1 = true)
    ∧ (∀ b, fst (fst run) = Ok b →
            ∃ e, last (List.filter (is_mark uid) new) = Some e
                 ∧ returned e = true ∧ b = answered_ok e).
Proof.
  cbv zeta. unfold mark_as_read.
  set (fn := bind (on_conn (Uid "STORE" [uid; "+FLAGS"; "(\Seen)"]))
               (fun r => ret (String.eqb (fst r) "OK"))).
  destruct (with_retry_log fn (fun _ => True)
              (fun r o =>
                 (o = [] ∧ ∃ e, r = Err e)
                 ∨ ∃ m, o = [m] ∧ is_mark uid m = true
                        ∧ (∀ b, r = Ok b → returned m = true ∧ b = answered_ok m)
                        ∧ (∀ e, r = Err e → snd m = Fails e)))
    with (self := self) (w := w)
    as (c1 & o1 & c2 & o2 & E & F1 & F2 & _ & Hcases); [done| |done|].
  { intros s v _. destruct (mark_op_log uid s v) as (o & Eo & Po).
    exists o. by repeat split. }
  set (r := fst (fst (_with_retry fn self w))) in *.
  assert (Hc : ∀ c, forallb is_connection c = true →
            forallb (fun e => is_connection e || is_mark uid e)%bool c = true
            ∧ List.filter (is_mark uid) c = []).
  { intros c Fc. split.
    - apply (forallb_weaken is_connection); [|done].
      intros x Hx. by rewrite Hx.
    - apply (filter_none is_connection); [|done].
      intros x Hx. by apply connection_not_uid. }
  destruct (Hc c1 F1) as [G1 N1]. destruct (Hc c2 F2) as [G2 N2].
  assert (Ho : ∀ r' o,
            ((o = [] ∧ ∃ e, r' = Err e)
             ∨ ∃ m, o = [m] ∧ is_mark uid m = true
                    ∧ (∀ b, r' = Ok b → returned m = true ∧ b = answered_ok m)
                    ∧ (∀ e, r' = Err e → snd m = Fails e)) →
            forallb (fun e => is_connection e || is_mark uid e)%bool o = true
            ∧ List.filter (is_mark uid) o = o ∧ (List.length o ≤ 1)%nat).
  { intros r' o [[-> _]|(m & -> & Hm & _)]; [cbn; repeat split; lia|].
    cbn [forallb List.filter]. rewrite Hm, orb_true_r.
    cbn; repeat split; lia. }
  exists (c1 ++ o1 ++ c2 ++ o2)%list. split; [exact E|].
  rewrite !List.filter_app, N1, N2. cbn [app].
  destruct Hcases as [(-> & -> & e & He)|[(Po & -> & ->)|[H1 H2]]].
  - cbn [app]. rewrite !app_nil_r.
    split; [by apply forallb_app_intro|]. cbn [List.filter List.length].
    split; [lia|]. split; [done|]. intros b Hb. rewrite He in Hb. done.
  - destruct (Ho _ _ Po) as (Go & No & Lo). rewrite !app_nil_r.
    split; [by apply forallb_app_intro|]. rewrite No.
    split; [lia|]. split.
    + intros e1 e2 Habs. rewrite Habs in Lo. cbn in Lo. lia.
    + intros b Hb. destruct Po as [[_ [e He]]|(m & -> & Hm & Hok & _)].
      * rewrite He in Hb. done.
      * exists m. split; [done|]. by apply Hok.
  - assert (H1' : forallb (fun e => is_connection e || is_mark uid e)%bool o1
                  = true
                  ∧ List.filter (is_mark uid) o1 = o1
                  ∧ (o1 = [] ∨ ∃ m, o1 = [m] ∧ failed_dropped m = true)).
    { destruct H1 as [->|(e & Hd & Po)]; [by repeat split; try left|].
      destruct (Ho _ _ Po) as (Go & No & _). split; [done|]. split; [done|].
      destruct Po as [[-> _]|(m & -> & _ & _ & Hf)]; [by left|].
      right. exists m. split; [done|]. unfold failed_dropped.
      by rewrite (Hf e eq_refl). }
    destruct H1' as (Go1 & No1 & Hfirst).
    assert (H2' : forallb (fun e => is_connection e || is_mark uid e)%bool o2
                  = true
                  ∧ List.filter (is_mark uid) o2 = o2
                  ∧ ((o2 = [] ∧ ∃ e, r = Err e)
                     ∨ ∃ m, o2 = [m]
                            ∧ (∀ b, r = Ok b →
                                    returned m = true ∧ b = answered_ok m))).
    { destruct H2 as [[-> He]|Po]; [by repeat split; try left|].
      destruct (Ho _ _ Po) as (Go & No & _). split; [done|]. split; [done|].
      destruct Po as [[-> He]|(m & -> & _ & Hok & _)]; [by left|].
      right. by exists m. }
    destruct H2' as (Go2 & No2 & Hsecond).
    split; [by repeat apply forallb_app_intro|]. rewrite No1, No2.
    destruct Hfirst as [->|(m1 & -> & Hm1)];
      destruct Hsecond as [[-> [e He]]|(m2 & -> & Hok)]; cbn [app List.length].
    + split; [lia|]. split; [done|]. intros b Hb. rewrite He in Hb. done.
    + split; [lia|]. split; [done|]. intros b Hb. exists m2.
      split; [done|]. by apply Hok.
    + split; [lia|]. split; [done|]. intros b Hb. rewrite He in Hb. done.
    + split; [lia|]. split; [by intros e1 e2 [= <- <-]|]. intros b Hb.
      exists m2. split; [done|]. by apply Hok.
Qed.

Lemma on_conn_cases (c : command) (s : email_dashboard) (v : world) :
  (conn s = false ∧ on_conn c s v = (Err (Python AttributeError), s, v))
  ∨ (conn s = true
     ∧ ∃ reply v',
       on_conn c s v =
         (match reply with
          | Answer status data => Ok (status, data)
          | Fails e => Err e
          end, s, v')
       ∧ calls v' = (calls v ++ [(c, reply)])%list).
Proof.
  unfold on_conn. destruct (conn s); [right; split; [done|]|by left].
  unfold imap_call.
  set (reply := match imap v with [] => Fails (IMAP4_abort "socket error: EOF") | r :: _ => r end).
  exists reply,
    {| tmw := tmw v; http := http v; imap := tail (imap v);
       calls := (calls v ++ [(c, reply)])%list |}.
  split; [|reflexivity]. by destruct reply.
Qed.

Lemma deletes_follow_copy_app (uid : string) (l1 l2 : list entry) :
  ∀ prev,
    deletes_follow_copy uid prev l1 = true →
    deletes_follow_copy uid None l2 = true →
    deletes_follow_copy uid prev (l1 ++ l2) = true.
Proof.
  assert (Hweak : ∀ prev, deletes_follow_copy uid None l2 = true →
                          deletes_follow_copy uid prev l2 = true).
  { intros prev. destruct l2 as [|e l2]; [done|].
    cbn [deletes_follow_copy].
    destruct (is_delete uid e); [done|]. by destruct (is_expunge e). }
  induction l1 as [|e l1 IH]; intros prev H1 H2; [by apply Hweak|].
  cbn [app deletes_follow_copy] in *.
  apply andb_true_iff in H1 as [He H1]. rewrite He. by apply IH.
Qed.

Lemma deletes_follow_copy_quiet (uid : string) (l : list entry) :
  ∀ prev, forallb (fun e => is_connection e || is_list e)%bool l = true →
          deletes_follow_copy uid prev l = true.
Proof.
  induction l as [|e l IH]; intros prev Hl; [done|].
  cbn [forallb deletes_follow_copy] in *.
  apply andb_true_iff in Hl as [He Hl]. rewrite (IH _ Hl), andb_true_r.
  by destruct e as [[] r].
Qed.

Lemma in_targets (uid f : string) (l : list entry) :
  In f (targets uid l) ↔
  ∃ e, In e l ∧ (target_of "MOVE" uid e = Some f
                 ∨ target_of "COPY" uid e = Some f).
Proof.
  unfold targets. rewrite in_app_iff, <- !list_elem_of_In, !list_elem_of_omap.
  split.
  - intros [(e & He & Ht)|(e & He & Ht)]; exists e;
      rewrite <- list_elem_of_In; auto.
  - intros (e & He & [Ht|Ht]); [left|right]; exists e;
      by rewrite list_elem_of_In.
Qed.

Lemma targets_app (uid f : string) (l1 l2 : list entry) :
  In f (targets uid (l1 ++ l2)) ↔
  In f (targets uid l1) ∨ In f (targets uid l2).
Proof.
  rewrite !in_targets. split.
  - intros (e & [He|He]%in_app_or & Ht); [left|right]; by exists e.
  - intros [(e & He & Ht)|(e & He & Ht)]; exists e;
      (split; [apply in_or_app; auto|done]).
Qed.

Lemma targets_quiet (uid f : string) (l : list entry) :
  forallb (fun e => is_connection e || is_list e)%bool l = true →
  ¬ In f (targets uid l).
Proof.
  intros Hl (e & He & Ht)%in_targets.
  pose proof (proj1 (forallb_forall _ _) Hl e He) as Hc.
  destruct e as [[] r]; cbn in Hc, Ht; try done; by destruct Ht.
Qed.

Lemma archiving_quiet (uid : string) (l : list entry) :
  forallb (fun e => is_connection e || is_list e)%bool l = true →
  forallb (archiving uid) l = true.
Proof.
  apply forallb_weaken. intros x Hx. unfold archiving. by rewrite Hx.
Qed.

Lemma quiet_connection (l : list entry) :
  forallb is_connection l = true →
  forallb (fun e => is_connection e || is_list e)%bool l = true.
Proof. apply forallb_weaken. intros x Hx. by rewrite Hx. Qed.

Lemma candidate_not_empty (c : string) :
  In c candidates → String.eqb c "" = false.
Proof. intros [<-|[<-|[<-|[]]]]; done. Qed.

Lemma choose_archive_candidate (folder_names : list string) :
  In (choose_archive folder_names) candidates.
Proof.
  unfold choose_archive, candidates. cbn [find].
  repeat (destruct (existsb _ folder_names); [cbn; auto|]).
  cbn; auto.
Qed.

Lemma is_move_intro (uid folder : string) (r : imap_reply) :
  is_move uid (Uid "MOVE" [uid; folder], r) = true.
Proof.
  unfold is_move, target_of. cbn [fst].
  change (String.eqb "MOVE" "MOVE") with true. by rewrite String.eqb_refl.
Qed.

Lemma is_copy_intro (uid folder : string) (r : imap_reply) :
  is_copy uid (Uid "COPY" [uid; folder], r) = true.
Proof.
  unfold is_copy, target_of. cbn [fst].
  change (String.eqb "COPY" "COPY") with true. by rewrite String.eqb_refl.
Qed.

Lemma is_delete_intro (uid : string) (r : imap_reply) :
  is_delete uid (Uid "STORE" [uid; "+FLAGS"; "(\Deleted)"], r) = true.
Proof.
  unfold is_delete, is_uid. cbn [fst].
  change (String.eqb "STORE" "STORE") with true. by rewrite bool_decide_true.
Qed.

Lemma deletes_follow_copy_fallback (uid : string) (prev : option entry)
  (copy store expunge : entry) :
  is_delete uid copy = false →
  is_expunge copy = false →
  (is_copy uid copy && answered_ok copy)%bool = true →
  is_delete uid store = true →
  returned store = true →
  is_delete uid expunge = false →
  is_expunge expunge = true →
  deletes_follow_copy uid prev [copy; store; expunge] = true.
Proof.
  intros H1 H2 H3 H4 H5 H6 H7. cbn [deletes_follow_copy].
  by rewrite H1, H2, H3, H4, H5, H6, H7.
Qed.

(** One run of the operation of [move_to_archive], after the folder is
    known. *)
Lemma move_body_log (uid archive : string) (s : email_dashboard) (v : world) :
  let body :=
    bind
      (try_except
         (bind (on_conn (Uid "MOVE" [uid; archive])) (fun r =>
          ret (String.eqb (fst r) "OK")))
         handled_on_move (ret false))
      (fun moved =>
         if moved : bool then ret true
         else
           bind (on_conn (Uid "COPY" [uid; archive])) (fun r =>
           if negb (String.eqb (fst r) "OK") then ret false
           else
             bind (on_conn (Uid "STORE" [uid; "+FLAGS"; "(\Deleted)"])) (fun _ =>
             bind (on_conn Expunge) (fun _ => ret true)))) in
  ∃ o, calls (snd (body s v)) = (calls v ++ o)%list
       ∧ forallb (archiving uid) o = true
       ∧ deletes_follow_copy uid None o = true
       ∧ (∀ f, In f (targets uid o) → f = archive)
       ∧ (fst (fst (body s v)) = Ok true → archived uid o = true)
       ∧ _archive_folder (snd (fst (body s v))) = _archive_folder s.
Proof.
  cbv zeta.
  pose proof (is_move_intro uid archive) as Hmove.
  pose proof (is_copy_intro uid archive) as Hcopy.
  pose proof (is_delete_intro uid) as Hdel.
  assert (Hmt : ∀ r, target_of "MOVE" uid (Uid "MOVE" [uid; archive], r)
                     = Some archive).
  { intros r. unfold target_of. cbn [fst].
    change (String.eqb "MOVE" "MOVE") with true. by rewrite String.eqb_refl. }
  assert (Hct : ∀ r, target_of "COPY" uid (Uid "COPY" [uid; archive], r)
                     = Some archive).
  { intros r. unfold target_of. cbn [fst].
    change (String.eqb "COPY" "COPY") with true. by rewrite String.eqb_refl. }
  assert (Hm_nd : ∀ r, is_delete uid (Uid "MOVE" [uid; archive], r) = false)
    by done.
  assert (Hc_nd : ∀ r, is_delete uid (Uid "COPY" [uid; archive], r) = false)
    by done.
  assert (Targets : ∀ o f,
            (∀ e, In e o → e.1 = Uid "MOVE" [uid; archive]
                           ∨ e.1 = Uid "COPY" [uid; archive]
                           ∨ e.1 = Uid "STORE" [uid; "+FLAGS"; "(\Deleted)"]
                           ∨ e.1 = Expunge) →
            In f (targets uid o) → f = archive).
  { intros o f Ho (e & He & Ht)%in_targets.
    destruct e as [c r]. destruct (Ho _ He) as [E|[E|[E|E]]]; cbn [fst] in E;
      subst c.
    - rewrite Hmt in Ht. unfold target_of in Ht. cbn in Ht.
      destruct Ht as [[= <-]|?]; done.
    - rewrite Hct in Ht. unfold target_of in Ht. cbn in Ht.
      destruct Ht as [?|[= <-]]; done.
    - by destruct Ht.
    - by destruct Ht. }
  remember (bind _ _ s v) as run eqn:Hrun.
  unfold bind at 1 in Hrun. unfold try_except in Hrun.
  unfold bind at 1 in Hrun.
  destruct (on_conn_cases (Uid "MOVE" [uid; archive]) s v)
    as [[Hconn E1]|(_ & r1 & v1 & E1 & L1)]; rewrite E1 in Hrun.
  { cbn [handled_on_move is_imap_error] in Hrun. subst run. exists [].
    rewrite app_nil_r. by repeat split. }
  set (m1 := (Uid "MOVE" [uid; archive], r1)) in *.
  assert (Hcontinue : ∀ run',
    run' =
      bind (on_conn (Uid "COPY" [uid; archive])) (fun r =>
        if negb (String.eqb (fst r) "OK") then ret false
        else
          bind (on_conn (Uid "STORE" [uid; "+FLAGS"; "(\Deleted)"])) (fun _ =>
          bind (on_conn Expunge) (fun _ => ret true))) s v1 →
    ∃ o, calls (snd run') = (calls v ++ m1 :: o)%list
         ∧ forallb (archiving uid) o = true
         ∧ deletes_follow_copy uid (Some m1) o = true
         ∧ (∀ e, In e o → e.1 = Uid "MOVE" [uid; archive]
                           ∨ e.1 = Uid "COPY" [uid; archive]
                           ∨ e.1 = Uid "STORE" [uid; "+FLAGS"; "(\Deleted)"]
                           ∨ e.1 = Expunge)
         ∧ (fst (fst run') = Ok true → archived uid o = true)
         ∧ _archive_folder (snd (fst run')) = _archive_folder s).
  { intros run' Hrun'. unfold bind at 1 in Hrun'.
    destruct (on_conn_cases (Uid "COPY" [uid; archive]) s v1)
      as [[Hconn E2]|(_ & r2 & v2 & E2 & L2)]; rewrite E2 in Hrun'.
    { subst run'. exists []. cbn [fst snd]. rewrite L1. by repeat split. }
    set (m2 := (Uid "COPY" [uid; archive], r2)) in *.
    assert (Hone : forallb (archiving uid) [m2] = true
                   ∧ deletes_follow_copy uid (Some m1) [m2] = true
                   ∧ (∀ e, In e [m2] →
                        e.1 = Uid "MOVE" [uid; archive]
                        ∨ e.1 = Uid "COPY" [uid; archive]
                        ∨ e.1 = Uid "STORE" [uid; "+FLAGS"; "(\Deleted)"]
                        ∨ e.1 = Expunge)).
    { unfold archiving. cbn [forallb deletes_follow_copy].
      subst m2. rewrite Hcopy, Hc_nd, !orb_true_r. cbn [is_expunge fst].
      repeat split; try done. intros e [<-|[]]; auto. }
    destruct Hone as (Hone1 & Hone2 & Hone3).
    destruct r2 as [st2 d2|e2].
    2:{ subst run'. exists [m2]. cbn [fst snd].
        rewrite L2, L1, <- app_assoc. by repeat split. }
    cbn [fst] in Hrun'.
    destruct (String.eqb st2 "OK") eqn:Hok2; cbn [negb] in Hrun'.
    2:{ subst run'. exists [m2]. cbn [fst snd ret].
        rewrite L2, L1, <- app_assoc. by repeat split. }
    unfold bind at 1 in Hrun'.
    destruct (on_conn_cases (Uid "STORE" [uid; "+FLAGS"; "(\Deleted)"]) s v2)
      as [[Hconn E3]|(_ & r3 & v3 & E3 & L3)]; rewrite E3 in Hrun'.
    { subst run'. exists [m2]. cbn [fst snd].
      rewrite L2, L1, <- app_assoc. by repeat split. }
    set (m3 := (Uid "STORE" [uid; "+FLAGS"; "(\Deleted)"], r3)) in *.
    assert (Hcopied : (is_copy uid m2 && answered_ok m2)%bool = true).
    { subst m2. rewrite Hcopy. unfold answered_ok. cbn [snd]. by rewrite Hok2. }
    assert (Htwo : forallb (archiving uid) [m2; m3] = true
                   ∧ deletes_follow_copy uid (Some m1) [m2; m3] = true
                   ∧ (∀ e, In e [m2; m3] →
                        e.1 = Uid "MOVE" [uid; archive]
                        ∨ e.1 = Uid "COPY" [uid; archive]
                        ∨ e.1 = Uid "STORE" [uid; "+FLAGS"; "(\Deleted)"]
                        ∨ e.1 = Expunge)).
    { unfold archiving. cbn [forallb deletes_follow_copy].
      rewrite Hcopied. subst m2 m3.
      rewrite Hcopy, Hc_nd, Hdel, !orb_true_r. cbn [is_expunge fst].
      repeat split; try done. intros e [<-|[<-|[]]]; auto. }
    destruct Htwo as (Htwo1 & Htwo2 & Htwo3).
    destruct r3 as [st3 d3|e3].
    2:{ subst run'. exists [m2; m3]. cbn [fst snd].
        rewrite L3, L2, L1, <- !app_assoc. by repeat split. }
    unfold bind at 1 in Hrun'.
    destruct (on_conn_cases Expunge s v3)
      as [[Hconn E4]|(_ & r4 & v4 & E4 & L4)]; rewrite E4 in Hrun'.
    { subst run'. exists [m2; m3]. cbn [fst snd].
      rewrite L3, L2, L1, <- !app_assoc. by repeat split. }
    exists [m2; m3; (Expunge, r4)].
    assert (Hlog : calls v4 = (calls v ++ m1 :: [m2; m3; (Expunge, r4)])%list).
    { rewrite L4, L3, L2, L1, <- !app_assoc. done. }
    assert (Hall : forallb (archiving uid) [m2; m3; (Expunge, r4)] = true).
    { unfold archiving. cbn [forallb]. subst m2 m3.
      rewrite Hcopy, Hdel, !orb_true_r. cbn [is_expunge fst].
      by rewrite ?orb_true_r. }
    assert (Hord : deletes_follow_copy uid (Some m1) [m2; m3; (Expunge, r4)]
                   = true).
    { apply deletes_follow_copy_fallback;
        [subst m2; apply Hc_nd|done|done|subst m3; apply Hdel|done|done|done]. }
    assert (Harch : archived uid [m2; m3; (Expunge, r4)] = true).
    { destruct (andb_prop _ _ Hcopied) as [Hc1 Hc2].
      unfold archived. cbn [existsb]. by rewrite Hc1, Hc2, orb_true_r. }
    assert (Hin : ∀ e, In e [m2; m3; (Expunge, r4)] →
              e.1 = Uid "MOVE" [uid; archive]
              ∨ e.1 = Uid "COPY" [uid; archive]
              ∨ e.1 = Uid "STORE" [uid; "+FLAGS"; "(\Deleted)"]
              ∨ e.1 = Expunge).
    { intros e [<-|[<-|[<-|[]]]]; auto. }
    destruct r4 as [st4 d4|e4]; subst run'; cbn [fst snd ret];
      by repeat split. }
  assert (Hwrap :
    (∃ o, calls (snd run) = (calls v ++ m1 :: o)%list
          ∧ forallb (archiving uid) o = true
          ∧ deletes_follow_copy uid (Some m1) o = true
          ∧ (∀ e, In e o → e.1 = Uid "MOVE" [uid; archive]
                            ∨ e.1 = Uid "COPY" [uid; archive]
                            ∨ e.1 = Uid "STORE" [uid; "+FLAGS"; "(\Deleted)"]
                            ∨ e.1 = Expunge)
          ∧ (fst (fst run) = Ok true → archived uid o = true)
          ∧ _archive_folder (snd (fst run)) = _archive_folder s) →
    ∃ o, calls (snd run) = (calls v ++ o)%list
         ∧ forallb (archiving uid) o = true
         ∧ deletes_follow_copy uid None o = true
         ∧ (∀ f, In f (targets uid o) → f = archive)
         ∧ (fst (fst run) = Ok true → archived uid o = true)
         ∧ _archive_folder (snd (fst run)) = _archive_folder s).
  { intros (o & E & Ha & Hd & Hin & Hr & Hf). exists (m1 :: o).
    split; [done|]. split.
    { cbn [forallb]. rewrite Ha. unfold archiving. subst m1.
      by rewrite Hmove, !orb_true_r. }
    split.
    { cbn [deletes_follow_copy]. rewrite Hd. subst m1. by rewrite Hm_nd. }
    split.
    { intros f. apply Targets. intros e [<-|He]; [auto|by apply Hin]. }
    split; [|done].
    intros Hok. unfold archived. cbn [existsb]. fold (archived uid o).
    by rewrite (Hr Hok), orb_true_r. }
  assert (Hsingle : forallb (archiving uid) [m1] = true
                    ∧ deletes_follow_copy uid None [m1] = true
                    ∧ (∀ f, In f (targets uid [m1]) → f = archive)).
  { split.
    { cbn [forallb]. unfold archiving. subst m1.
      by rewrite Hmove, !orb_true_r. }
    split.
    { cbn [deletes_follow_copy]. subst m1. by rewrite Hm_nd. }
    intros f. apply Targets. intros e [<-|[]]. auto. }
  destruct Hsingle as (Hs1 & Hs2 & Hs3).
  destruct r1 as [st1 d1|e1].
  - cbn [ret fst] in Hrun. destruct (String.eqb st1 "OK") eqn:Hok1.
    + subst run. exists [m1]. cbn [fst snd ret]. split; [done|].
      assert (Ha : archived uid [m1] = true).
      { unfold archived. cbn [existsb]. subst m1. rewrite Hmove.
        unfold answered_ok. cbn [snd]. by rewrite Hok1. }
      by repeat split.
    + by apply Hwrap, Hcontinue.
  - destruct (handled_on_move e1).
    + cbn [ret] in Hrun. by apply Hwrap, Hcontinue.
    + subst run. exists [m1]. cbn [fst snd]. by repeat split.
Qed.

(** [_discover_archive_folder] in a state whose cached folder is the one
    [orig] of an earlier state or a candidate. *)
Lemma discover_log (orig : option string) (s : email_dashboard) (v : world) :
  (_archive_folder s = orig
   ∨ ∃ c, In c candidates ∧ _archive_folder s = Some c) →
  ∃ o, calls (snd (_discover_archive_folder s v)) = (calls v ++ o)%list
       ∧ forallb (fun e => is_connection e || is_list e)%bool o = true
       ∧ (_archive_folder (snd (fst (_discover_archive_folder s v))) = orig
          ∨ ∃ c, In c candidates
                 ∧ _archive_folder (snd (fst (_discover_archive_folder s v)))
                   = Some c)
       ∧ (∀ name, fst (fst (_discover_archive_folder s v)) = Ok name →
                  In name candidates ∨ orig = Some name).
Proof.
  intros HJ.
  assert (Hlist :
    let relist :=
      bind (on_conn ListFolders) (fun r =>
        let name' :=
          if String.eqb (fst r) "OK"
          then choose_archive (flat_map folder_names_of (snd r))
          else "Archive" in
        bind (set_archive_folder name') (fun _ => ret name')) in
    ∀ run, run = relist s v →
    ∃ o, calls (snd run) = (calls v ++ o)%list
         ∧ forallb (fun e => is_connection e || is_list e)%bool o = true
         ∧ (_archive_folder (snd (fst run)) = orig
            ∨ ∃ c, In c candidates ∧ _archive_folder (snd (fst run)) = Some c)
         ∧ (∀ name, fst (fst run) = Ok name →
                    In name candidates ∨ orig = Some name)).
  { cbv zeta. intros run Hrun. unfold bind at 1 in Hrun.
    destruct (on_conn_cases ListFolders s v)
      as [[Hconn E1]|(_ & r1 & v1 & E1 & L1)]; rewrite E1 in Hrun.
    { subst run. exists []. rewrite app_nil_r. by repeat split. }
    exists [(ListFolders, r1)].
    destruct r1 as [st d|e]; subst run; cbn [fst snd bind set_archive_folder ret].
    - split; [done|]. split; [done|].
      assert (Hc : In (if String.eqb st "OK"
                       then choose_archive (flat_map folder_names_of d)
                       else "Archive") candidates).
      { destruct (String.eqb st "OK"); [apply choose_archive_candidate|].
        by left. }
      split; [right; by eexists|]. intros name [= <-]. by left.
    - by repeat split. }
  cbv zeta in Hlist. unfold _discover_archive_folder.
  destruct (_archive_folder s) as [name|] eqn:Hf.
  - destruct (String.eqb name "") eqn:Hname.
    + by apply Hlist.
    + exists []. rewrite app_nil_r. cbn [fst snd]. split; [done|].
      split; [done|]. split; [by rewrite Hf|].
      intros name' [= <-]. destruct HJ as [<-|(c & Hc & [= ->])]; auto.
  - by apply Hlist.
Qed.

(** X26. [move_to_archive] never deletes a message it has not copied. For
    the message it is given it sends, besides connection commands and the
    folder listing, only [MOVE], [COPY], [STORE +FLAGS (\Deleted)] and
    [EXPUNGE]; the message is flagged [\Deleted] only right after a [COPY]
    of it answered [OK], and [EXPUNGE] is sent only right after that
    flagging returned, also when the connection drops and the operation is
    run again. Every [MOVE] and [COPY] goes to the cached archive folder or
    to one of [Archive], [Archived], [archive]. It returns [True] only when
    a [MOVE] or a [COPY] of the message answered [OK]. *)
Theorem move_to_archive_deletes_after_copy (uid : string)
  (self : email_dashboard) (w : world) :
  let run := move_to_archive uid self w in
  ∃ new,
    calls (snd run) = (calls w ++ new)%list
    ∧ forallb (archiving uid) new = true
    ∧ deletes_follow_copy uid None new = true
    ∧ (∀ f, In f (targets uid new) →
            In f candidates ∨ _archive_folder self = Some f)
    ∧ (fst (fst run) = Ok true → archived uid new = true).
Proof.
  cbv zeta. unfold move_to_archive.
  set (orig := _archive_folder self).
  destruct (with_retry_log (move_op uid)
              (fun s => _archive_folder s = orig
                        ∨ ∃ c, In c candidates ∧ _archive_folder s = Some c)
              (fun r o =>
                 forallb (archiving uid) o = true
                 ∧ deletes_follow_copy uid None o = true
                 ∧ (∀ f, In f (targets uid o) →
                         In f candidates ∨ orig = Some f)
                 ∧ (r = Ok true → archived uid o = true)))
    with (self := self) (w := w)
    as (c1 & o1 & c2 & o2 & E & F1 & F2 & _ & Hcases).
  { intros s s' Hs. by rewrite Hs. }
  { intros s v Hs. remember (move_op uid s v) as run eqn:Hrun.
    unfold move_op in Hrun. unfold bind at 1 in Hrun.
    destruct (discover_log orig s v Hs) as (od & Ed & Fd & Jd & Hname).
    destruct (_discover_archive_folder s v) as [[[archive|e] s1] v1];
      cbn [fst snd] in *.
    - destruct (move_body_log uid archive s1 v1)
        as (ob & Eb & Fb & Ob & Tb & Rb & Ab).
      cbv zeta in Eb, Rb, Ab. rewrite <- Hrun in Eb, Rb, Ab.
      exists (od ++ ob)%list. split; [by rewrite Eb, Ed, app_assoc|].
      split; [|by rewrite Ab].
      split; [apply forallb_app_intro; [by apply archiving_quiet|done]|].
      split.
      { apply deletes_follow_copy_app; [|done].
        by apply deletes_follow_copy_quiet. }
      split.
      { intros f [Hf|Hf]%targets_app; [by destruct (targets_quiet _ _ _ Fd Hf)|].
        rewrite (Tb f Hf). by apply Hname. }
      intros Hok. unfold archived. rewrite existsb_app.
      fold (archived uid ob). by rewrite (Rb Hok), orb_true_r.
    - subst run. exists od. cbn [fst snd]. split; [done|].
      split; [|done].
      split; [by apply archiving_quiet|].
      split; [by apply deletes_follow_copy_quiet|].
      split; [|done].
      intros f Hf. by destruct (targets_quiet _ _ _ Fd Hf). }
  { by left. }
  set (r := fst (fst (_with_retry (move_op uid) self w))) in *.
  pose proof (quiet_connection c1 F1) as Q1.
  pose proof (quiet_connection c2 F2) as Q2.
  assert (Hnil : forallb (archiving uid) [] = true
                 ∧ deletes_follow_copy uid None [] = true
                 ∧ (∀ f, In f (targets uid []) →
                         In f candidates ∨ orig = Some f)) by done.
  assert (Hshape :
    (forallb (archiving uid) o1 = true
     ∧ deletes_follow_copy uid None o1 = true
     ∧ (∀ f, In f (targets uid o1) → In f candidates ∨ orig = Some f))
    ∧ (forallb (archiving uid) o2 = true
       ∧ deletes_follow_copy uid None o2 = true
       ∧ (∀ f, In f (targets uid o2) → In f candidates ∨ orig = Some f))
    ∧ (r = Ok true → archived uid o1 = true ∨ archived uid o2 = true)).
  { destruct Hcases as [(-> & -> & e & He)|[(Po & -> & ->)|[H1 H2]]].
    - split; [done|]. split; [done|]. intros Hr. rewrite He in Hr. done.
    - destruct Po as (Pa & Pb & Pc & Pd). split; [done|]. split; [done|].
      intros Hr. left. by apply Pd.
    - split.
      { destruct H1 as [->|(e & _ & Pa & Pb & Pc & _)]; done. }
      destruct H2 as [[-> [e He]]|(Pa & Pb & Pc & Pd)].
      + split; [done|]. intros Hr. rewrite He in Hr. done.
      + split; [done|]. intros Hr. right. by apply Pd. }
  destruct Hshape as ((A1 & B1 & T1) & (A2 & B2 & T2) & Hr).
  exists (c1 ++ o1 ++ c2 ++ o2)%list. split; [exact E|]. split.
  { repeat apply forallb_app_intro; try done; by apply archiving_quiet. }
  split.
  { repeat apply deletes_follow_copy_app; try done;
      by apply deletes_follow_copy_quiet. }
  split.
  { intros f [Hf|[Hf|[Hf|Hf]%targets_app]%targets_app]%targets_app.
    - by destruct (targets_quiet _ _ _ Q1 Hf).
    - by apply T1.
    - by destruct (targets_quiet _ _ _ Q2 Hf).
    - by apply T2. }
  intros Hok. unfold archived. rewrite !existsb_app.
  fold (archived uid o1). fold (archived uid o2).
  destruct (Hr Hok) as [->| ->]; by rewrite ?orb_true_r.
Qed.

Lemma choose_archive_listed (folder_names : list string) :
  choose_archive folder_names ≠ "Archive" →
  In (choose_archive folder_names) folder_names
  ∧ ¬ In "Archive" folder_names.
Proof.
  unfold choose_archive, candidates. cbn [find].
  destruct (existsb (String.eqb "Archive") folder_names) eqn:H1; [done|].
  assert (Hno : ¬ In "Archive" folder_names).
  { intros Hin. assert (existsb (String.eqb "Archive") folder_names = true).
    { apply existsb_exists. exists "Archive". by rewrite String.eqb_refl. }
    congruence. }
  destruct (existsb (String.eqb "Archived") folder_names) eqn:H2.
  { intros _. apply existsb_exists in H2 as (x & Hx & ->%String.eqb_eq).
    done. }
  destruct (existsb (String.eqb "archive") folder_names) eqn:H3; [|done].
  intros _. apply existsb_exists in H3 as (x & Hx & ->%String.eqb_eq).
  done.
Qed.

(** X27. The archive folder is looked up once. A cached, non-empty name is
    returned without any command. Otherwise, on a connection,
    [_discover_archive_folder] sends exactly one [LIST]; when that is
    answered, whatever the status, it returns one of [Archive], [Archived],
    [archive], caches it, and every later call returns it without a
    command. The name is [Archive] unless the answer is [OK] and lists the
    returned name but not [Archive]. When [LIST] raises, nothing is cached;
    without a connection it raises [AttributeError]. *)
Theorem archive_folder_is_cached (self : email_dashboard) (w : world) :
  let run := _discover_archive_folder self w in
  (∀ name, _archive_folder self = Some name → name ≠ "" →
           run = (Ok name, self, w))
  ∧ (_archive_folder self = None ∨ _archive_folder self = Some "" →
     (conn self = false → run = (Err (Python AttributeError), self, w))
     ∧ (conn self = true →
        ∃ reply,
          calls (snd run) = (calls w ++ [(ListFolders, reply)])%list
          ∧ match reply with
            | Fails e => run.1 = (Err e, self)
            | Answer status data =>
                ∃ name,
                  fst (fst run) = Ok name
                  ∧ In name candidates
                  ∧ _archive_folder (snd (fst run)) = Some name
                  ∧ (name ≠ "Archive" →
                     status = "OK"
                     ∧ In name (flat_map folder_names_of data)
                     ∧ ¬ In "Archive" (flat_map folder_names_of data))
                  ∧ (∀ v, _discover_archive_folder (snd (fst run)) v
                          = (Ok name, snd (fst run), v))
            end)).
Proof.
  cbv zeta. split.
  - intros name Hf Hname. unfold _discover_archive_folder. rewrite Hf.
    destruct (String.eqb_spec name ""); done.
  - intros Hempty.
    assert (Hrun : _discover_archive_folder self w =
              bind (on_conn ListFolders) (fun r =>
                let name' :=
                  if String.eqb (fst r) "OK"
                  then choose_archive (flat_map folder_names_of (snd r))
                  else "Archive" in
                bind (set_archive_folder name') (fun _ => ret name')) self w).
    { unfold _discover_archive_folder. by destruct Hempty as [-> | ->]. }
    rewrite Hrun. clear Hrun.
    remember (bind _ _ self w) as run eqn:R. unfold bind at 1 in R.
    destruct (on_conn_cases ListFolders self w)
      as [[Hconn E]|(Hconn & reply & v' & E & L)]; rewrite E in R.
    { split; intros Hc; [done|congruence]. }
    split; [intros Hc; congruence|intros _].
    exists reply. destruct reply as [status data|e]; subst run;
      cbn [fst snd bind set_archive_folder ret]; [|done].
    split; [done|].
    set (name := if String.eqb status "OK"
                 then choose_archive (flat_map folder_names_of data)
                 else "Archive").
    assert (Hc : In name candidates).
    { subst name. destruct (String.eqb status "OK");
        [apply choose_archive_candidate|by left]. }
    exists name. split; [done|]. split; [done|]. split; [done|]. split.
    + subst name. destruct (String.eqb_spec status "OK") as [->|]; [|done].
      intros Hn. split; [done|]. by apply choose_archive_listed.
    + intros v. unfold _discover_archive_folder. cbn [_archive_folder].
      by rewrite (candidate_not_empty name Hc).
Qed.

Lemma auth_type_oauth2 (t : TokenManager.token_manager) :
  TokenManager.eq_str (TokenManager.auth_type t) "oauth2" = true →
  TokenManager.auth_type t = JStr "oauth2".
Proof.
  destruct (TokenManager.auth_type t) as [| | |x| |]; try done.
  cbn [TokenManager.eq_str]. by intros ->%String.eqb_eq.
Qed.

(** What [_connect_with_saved] does with an OAuth2 credential whose token
    has expired and cannot be refreshed. *)
Lemma connect_with_saved_refused (self : email_dashboard) (w : world)
  (expires_at : Z) :
  TokenManager.eq_str (TokenManager.auth_type (tm self)) "oauth2" = true →
  TokenManager.as_num
    (dict_get (TokenManager._creds (tm self)) "expires_at" (JNum 0))
  = Some expires_at →
  (expires_at - TokenManager.TOKEN_EXPIRY_MARGIN
   ≤ TokenManager.clock (tmw w))%Z →
  TokenManager.request_failed (http w) = true →
  ∃ w',
    _connect_with_saved self w
    = (Err (IMAP4_error "Token expired and refresh failed"), self, w')
    ∧ calls w' = calls w ∧ imap w' = imap w
    ∧ TokenManager.file (tmw w') = TokenManager.file (tmw w).
Proof.
  intros Hauth Hexp Hlate Hfail.
  unfold _connect_with_saved. cbv zeta.
  rewrite (auth_type_oauth2 _ Hauth). cbn [TokenManager.eq_str].
  change (String.eqb "oauth2" "basic") with false.
  change (String.eqb "oauth2" "oauth2") with true. cbv iota.
  unfold bind, tm_get_access_token, tm_run.
  unfold TokenManager.get_access_token. rewrite Hauth, Hexp. cbn [negb].
  replace (TokenManager.clock (tmw w)
           <? expires_at - TokenManager.TOKEN_EXPIRY_MARGIN)%Z with false
    by (symmetry; apply Z.ltb_ge; lia).
  destruct (refresh_token_failed (tm self) (http w) (tmw w) Hfail)
    as (Hv & Hs & Hf).
  destruct (TokenManager._refresh_token (tm self) (http w) (tmw w))
    as [v s' w' sc']. cbn [TokenManager.value TokenManager.self_after
                           TokenManager.world_after
                           TokenManager.script_after] in *.
  subst v s'. cbn [truthy negb raise].
  exists {| tmw := w'; http := sc'; imap := imap w; calls := calls w |}.
  split; [by destruct self|by repeat split].
Qed.

(** X28. An expired OAuth2 token stops every operation before it reaches
    the server. With an OAuth2 credential whose token is within 300 seconds
    of its expiry and a refresh request that fails, [_with_retry] raises
    [IMAP4.error] without running the operation: no IMAP command is sent,
    not even [NOOP] on a live connection, the connection object is dropped,
    and credentials and credential file stay as they were. With a token
    that is still valid and a live connection that answers [NOOP],
    [_ensure_connected] sends that [NOOP] and nothing else, and makes no
    HTTP request. *)
Theorem expired_token_stops_operation {A} (fn : D A)
  (self : email_dashboard) (w : world) (expires_at : Z) :
  TokenManager.eq_str (TokenManager.auth_type (tm self)) "oauth2" = true →
  TokenManager.as_num
    (dict_get (TokenManager._creds (tm self)) "expires_at" (JNum 0))
  = Some expires_at →
  ((expires_at - TokenManager.TOKEN_EXPIRY_MARGIN
    ≤ TokenManager.clock (tmw w))%Z →
   TokenManager.request_failed (http w) = true →
   let run := _with_retry fn self w in
   fst (fst run) = Err (IMAP4_error "Token expired and refresh failed")
   ∧ calls (snd run) = calls w
   ∧ imap (snd run) = imap w
   ∧ conn (snd (fst run)) = false
   ∧ tm (snd (fst run)) = tm self
   ∧ TokenManager.file (tmw (snd run)) = TokenManager.file (tmw w))
  ∧ ((TokenManager.clock (tmw w)
      < expires_at - TokenManager.TOKEN_EXPIRY_MARGIN)%Z →
     conn self = true →
     ∀ status data rest,
       imap w = Answer status data :: rest →
       _ensure_connected self w
       = (Ok tt, self,
          {| tmw := tmw w; http := http w; imap := rest;
             calls := (calls w ++ [(Noop, Answer status data)])%list |})).
Proof.
  intros Hauth Hexp. split.
  - intros Hlate Hfail. cbv zeta.
    set (self0 := {| tm := tm self; conn := false;
                     _archive_folder := _archive_folder self |}).
    destruct (connect_with_saved_refused self0 w expires_at Hauth Hexp
                Hlate Hfail) as (w' & Hc & Hcalls & Himap & Hfile).
    assert (Hens : _ensure_connected self w
              = (Err (IMAP4_error "Token expired and refresh failed"),
                 self0, w')).
    { unfold _ensure_connected. unfold bind at 1. unfold try_except.
      destruct (conn self) eqn:Hconn.
      - unfold bind at 1. rewrite Hauth. unfold bind at 1.
        unfold tm_is_token_expired, TokenManager.is_token_expired.
        rewrite Hauth, Hexp. cbn [negb].
        replace (expires_at - TokenManager.TOKEN_EXPIRY_MARGIN
                 <=? TokenManager.clock (tmw w))%Z with true
          by (symmetry; apply Z.leb_le; lia).
        cbn [raise caught_on_check ret]. unfold bind at 1.
        cbn [set_conn]. exact Hc.
      - cbn [ret]. unfold bind at 1. cbn [set_conn]. exact Hc. }
    assert (Hrun : _with_retry fn self w
              = (Err (IMAP4_error "Token expired and refresh failed"),
                 self0, w')).
    { unfold _with_retry, try_except. unfold bind at 1. by rewrite Hens. }
    rewrite Hrun. cbn [fst snd]. by repeat split.
  - intros Hfresh Hconn status data rest Himap.
    unfold _ensure_connected. unfold bind at 1. unfold try_except.
    rewrite Hconn. unfold bind at 1. rewrite Hauth. unfold bind at 1.
    unfold tm_is_token_expired, TokenManager.is_token_expired.
    rewrite Hauth, Hexp. cbn [negb].
    replace (expires_at - TokenManager.TOKEN_EXPIRY_MARGIN
             <=? TokenManager.clock (tmw w))%Z with false
      by (symmetry; apply Z.leb_gt; lia).
    cbn [ret]. unfold bind at 1. unfold imap_call. rewrite Himap.
    reflexivity.
Qed.

End DashboardLaws.

(* ===================================================================== *)
(** * Properties of signing in to the mailbox                             *)
(* ===================================================================== *)

Section ConnectLaws.
Import EmailDashboard DashboardViews.













Lemma load_clear (t : TokenManager.token_manager) (f : TokenManager.cred_file) :
  TokenManager._load (TokenManager.email_address t)
    (snd (TokenManager.clear t f)) = ∅
  ∧ (∀ other, other ≠ TokenManager.email_address t →
       TokenManager._load other (snd (TokenManager.clear t f))
       = TokenManager._load other f).
Proof.
  unfold TokenManager.clear. destruct f as [| |data]; cbn [snd]; try done.
  case_bool_decide as Hempty; cbn [snd TokenManager._load]; unfold dict_get.
  - split; [done|]. intros other Hne.
    rewrite <- (lookup_delete_ne data (TokenManager.email_address t) other)
      by done.
    by rewrite Hempty.
  - rewrite lookup_delete_eq. split; [done|]. intros other Hne.
    by rewrite lookup_delete_ne.
Qed.

(** X30. Saved credentials that the server rejects are forgotten before
    anything else happens. When [_connect_with_saved] raises [IMAP4.error],
    [connect] empties the instance's credentials and removes the account
    from the file, other accounts untouched, and then goes on exactly as a
    [connect] without saved credentials would: the outcome is that of
    [connect] from the cleared state. Any other exception is passed on with
    credentials and file as [_connect_with_saved] left them, and when the
    saved credentials work, [connect] makes no further request and reads
    nothing from the terminal. *)
Theorem connect_forgets_rejected_credentials (io : stdin)
  (self : email_dashboard) (w : world) :
  TokenManager.has_saved_creds (tm self) = true →
  let saved := _connect_with_saved self w in
  let s1 := snd (fst saved) in
  let w1 := snd saved in
  let cleared := TokenManager.clear (tm s1) (TokenManager.file (tmw w1)) in
  let s2 := {| tm := fst cleared; conn := conn s1;
               _archive_folder := _archive_folder s1 |} in
  let w2 := {| tmw := TokenManager.with_file (tmw w1) (snd cleared);
               http := http w1; imap := imap w1; calls := calls w1 |} in
  (∀ e, fst (fst saved) = Err e → is_imap_error e = true →
     connect io self w = connect io s2 w2
     ∧ TokenManager.has_saved_creds (tm s2) = false
     ∧ TokenManager._load (TokenManager.email_address (tm s1))
         (TokenManager.file (tmw w2)) = ∅
     ∧ (∀ other, other ≠ TokenManager.email_address (tm s1) →
          TokenManager._load other (TokenManager.file (tmw w2))
          = TokenManager._load other (TokenManager.file (tmw w1))))
  ∧ (∀ e, fst (fst saved) = Err e → is_imap_error e = false →
       connect io self w = saved)
  ∧ (fst (fst saved) = Ok tt → connect io self w = saved).
Proof.
  intros Hsaved. cbv zeta.
  assert (Hconnect : ∀ s v, TokenManager.has_saved_creds (tm s) = false →
            connect io s v =
            (let typed := strip is_py_space (choice io) in
             let chosen := if String.eqb typed "" then "2" else typed in
             if (isatty io && String.eqb chosen "1")%bool
             then _connect_basic_interactive io
             else _connect_oauth2) s v).
  { intros s v Hs. unfold connect. unfold bind at 1. by rewrite Hs. }
  remember (connect io self w) as run eqn:R.
  unfold connect in R. unfold bind at 1 in R. rewrite Hsaved in R.
  unfold try_catch in R. unfold bind at 1 in R.
  destruct (_connect_with_saved self w) as [[[[]|e] s1] w1]; cbn [fst snd].
  - split; [by intros e [=]|]. split; [by intros e [=]|]. by intros _.
  - split; [|split; [|by intros [=]]].
    + intros e' [= <-] He. rewrite He in R. unfold bind at 1 in R.
      unfold tm_clear, tm_store in R.
      assert (Hcleared : TokenManager.has_saved_creds
                (TokenManager.clear (tm s1) (TokenManager.file (tmw w1))).1
              = false).
      { unfold TokenManager.clear. by destruct (TokenManager.file (tmw w1));
          [| |case_bool_decide]. }
      split.
      { rewrite Hconnect by exact Hcleared. exact R. }
      split; [exact Hcleared|].
      cbn [tmw TokenManager.with_file TokenManager.file].
      apply load_clear.
    + intros e' [= <-] He. by rewrite He in R.
Qed.

End ConnectLaws.

(* ===================================================================== *)
(** * Further concrete runs                                               *)
(* ===================================================================== *)

Section FurtherRuns.
Import Samples.

(** A refresh that is granted: the new token is returned and expires 3600
    seconds after the answer. *)
Lemma refresh_success_updates_run :
  TokenManager.value
    (TokenManager._refresh_token (manager 1300) [granted] at_1000)
  = Ret (JStr "fresh")
  ∧ TokenManager._creds
      (TokenManager.self_after
         (TokenManager._refresh_token (manager 1300) [granted] at_1000))
    !! "expires_at" = Some (JNum 4601).
Proof.
  pose proof (refresh_success_updates (manager 1300) granted [] at_1000 200
                (<["access_token" := JStr "fresh"]> ∅) (JStr "fresh") 3600
                eq_refl eq_refl eq_refl eq_refl eq_refl) as H.
  cbv zeta in H. destruct H as (_ & _ & H).
  change (float_add (TokenManager.clock at_1000 + TokenManager.latency granted)
            3600) with (Some 4601%Z) in H.
  destruct H as (H1 & _ & _ & H2 & _).
  split; [exact H1|exact H2].
Defined.

(** The token of that refresh is then served from the cache. *)
Lemma refreshed_token_is_cached_run :
  TokenManager.value
    (TokenManager.get_access_token
       (TokenManager.self_after
          (TokenManager._refresh_token (manager 1300) [granted] at_1000))
       [] at_1000)
  = Ret (JStr "fresh").
Proof.
  destruct (refreshed_token_is_cached (manager 1300) granted [] [] at_1000
              at_1000 200 (<["access_token" := JStr "fresh"]> ∅)
              (JStr "fresh") 3600 4601 eq_refl eq_refl eq_refl eq_refl
              eq_refl eq_refl eq_refl eq_refl)
    as (H & _).
  by rewrite H.
Defined.




(** What is extracted from the page with two sibling forms. *)
Lemma feed_extracts_run :
  ∃ p,
    FormParser.feed FormParser.init two_forms = Ret p
    ∧ FormParser.action p =
        FormViews.last_post_action two_forms
          (FormParser.action FormParser.init)
    ∧ FormParser.fields p !! "" = None.
Proof.
  destruct (FormParser.feed FormParser.init two_forms) as [p|e] eqn:E;
    [|by vm_compute in E].
  exists p. split; [done|].
  destruct (feed_extracts two_forms FormParser.init p E)
    as (Haction & _ & _ & _ & Hempty).
  split; [exact Haction|by apply Hempty].
Defined.

(** A login request answered by the platform itself stops the flow. *)
Lemma login_page_rejected_run :
  fst (SSO.refresh_token json_loads urljoin html_starttags decode_replace
         "ab12345@qmul.ac.uk" "secret"
         {| SSO.script := [Some dashboard]; SSO.sent := [] |})
  = Raise (SystemExit ProtocolMismatch).
Proof.
  destruct (login_page_rejected json_loads urljoin html_starttags
              decode_replace "ab12345@qmul.ac.uk" "secret"
              {| SSO.script := [Some dashboard]; SSO.sent := [] |}
              dashboard [] eq_refl) as (H & _).
  by rewrite (H eq_refl).
Defined.

(** A rejected password stops the flow after the third request. *)
Lemma auth_error_stops_flow_run :
  fst (SSO.refresh_token json_loads urljoin html_starttags decode_replace
         "ab12345@qmul.ac.uk" "secret"
         {| SSO.script := [Some login_page; Some managed_account;
                           Some wrong_password];
            SSO.sent := [] |})
  = Raise (SystemExit AuthFailed).
Proof.
  destruct (auth_error_stops_flow json_loads urljoin html_starttags
              decode_replace "ab12345@qmul.ac.uk" "secret"
              {| SSO.script := [Some login_page; Some managed_account;
                                Some wrong_password];
                 SSO.sent := [] |}
              login_page managed_account wrong_password []
              (<["sFT" := JStr "flow"]> (<["urlPost" := JStr "/login"]> ∅))
              (<["FlowToken" := JStr "flow2"]> ∅) "/login" eq_refl)
    as (H & _).
  - split; [reflexivity|]. split; [by eexists|]. split; [by eexists|].
    split; [reflexivity|]. split; [reflexivity|]. by exists ∅.
  - reflexivity.
  - by rewrite H.
Defined.

(** The "stay signed in" prompt with its configuration (written with
    no-break spaces around the equals sign): the choice is posted to the
    configuration's URL with its context and flow token, and the flow goes
    on with the answer. The prompt without a configuration posts nothing. *)
Lemma stay_signed_in_posts_choice_run :
  SSO.stay_signed_in json_loads urljoin stay_signed_in_page
    {| SSO.script := [Some saml_form_page]; SSO.sent := [] |}
  = (Ret (SSO.text saml_form_page, SSO.url saml_form_page),
     {| SSO.script := [];
        SSO.sent :=
          [SSO.http_post "https://login.microsoftonline.com/kmsi"
             (SSO.FormData
                (SSO.kmsi_form (JStr "ctx3") (JStr "flow3") (JStr ""))) true] |})
  ∧ SSO.stay_signed_in json_loads urljoin stay_signed_in_prompt fresh
    = (Ret (SSO.text stay_signed_in_prompt, SSO.url stay_signed_in_prompt),
       fresh).
Proof.
  destruct (stay_signed_in_posts_choice json_loads urljoin
              stay_signed_in_page
              {| SSO.script := [Some saml_form_page]; SSO.sent := [] |}
              eq_refl) as (Hposted & _).
  destruct (Hposted kmsi_config_text kmsi_config "/kmsi" saml_form_page []
              eq_refl eq_refl eq_refl eq_refl) as (Hrun & _).
  destruct (stay_signed_in_posts_choice json_loads urljoin
              stay_signed_in_prompt fresh eq_refl) as (_ & Hnone).
  split; [exact Hrun|exact (Hnone eq_refl)].
Defined.

(** A launch request answered with a page instead of a redirect. *)
Lemma launch_rejects_answer_run :
  fst (SSO.launch decode_replace
         {| SSO.script := [Some dashboard]; SSO.sent := [] |})
  = Raise (SystemExit UnexpectedResponse).
Proof.
  destruct (launch_rejects_answer decode_replace
              {| SSO.script := [Some dashboard]; SSO.sent := [] |}
              dashboard [] eq_refl) as (H & _).
  rewrite H; [reflexivity|discriminate..].
Defined.

(** The launch redirect that carries ["P:::T"] without its padding. *)
Lemma launch_returns_token_run :
  fst (SSO.launch decode_replace
         {| SSO.script := [Some launch_redirect]; SSO.sent := [] |})
  = Ret "T".
Proof.
  rewrite (launch_returns_token decode_replace
             {| SSO.script := [Some launch_redirect]; SSO.sent := [] |}
             launch_redirect [] "moodlemobile://token=UDo6OlQ" "UDo6OlQ"
             "P" "T" "" 1 eq_refl (or_intror (or_intror eq_refl)) eq_refl
             eq_refl ltac:(lia) eq_refl eq_refl (or_introl eq_refl) eq_refl
             eq_refl).
  reflexivity.
Defined.

(** Logging in to a site that hands out a token. *)
Lemma get_token_logs_in_run :
  fst (MoodleClient.get_token (fun _ => true) (fun _ => ValueError)
         (Some "ab12345") None "" "secret" (moodle [token_answer]))
  = MoodleClient.Ok (JStr "tok").
Proof.
  destruct (get_token_logs_in (fun _ => true) (fun _ => ValueError)
              (Some "ab12345") None "" "secret" (moodle [token_answer])
              token_answer [] 200
              (<["token" := JStr "tok"]> ∅) eq_refl eq_refl eq_refl eq_refl)
    as (_ & _ & _ & H).
  destruct (H (JStr "tok") eq_refl) as (Hrun & _). exact Hrun.
Defined.

(** The user identifier of that site is asked for once. *)
Lemma user_id_is_fetched_once_run :
  let known :=
    {| MoodleClient.token := JStr "tok"; MoodleClient._user_id := JNum 7;
       MoodleClient._fullname := JStr "A B" |} in
  MoodleClient.get_user_id known (moodle [])
  = (MoodleClient.Ok (JNum 7), known, moodle []).
Proof.
  cbv zeta.
  destruct (user_id_is_fetched_once (MoodleClient.init (JStr "tok"))
              {| MoodleClient.token := JStr "tok";
                 MoodleClient._user_id := JNum 7;
                 MoodleClient._fullname := JStr "A B" |}
              (moodle [site_info])
              (snd (MoodleClient.get_user_id (MoodleClient.init (JStr "tok"))
                      (moodle [site_info])))
              (JNum 7) eq_refl eq_refl ltac:(discriminate))
    as (_ & _ & H & _).
  exact (H (moodle [])).
Defined.

(** One message in a terminal of 80 columns. *)
Lemma table_fits_terminal_run :
  (15 ≤ Cli.from_w 80 one_message ≤ 30)%Z
  ∧ (7 ≤ Cli.subj_w 80 one_message)%Z.
Proof.
  destruct (table_fits_terminal (fun _ => None) 80 one_message eq_refl)
    as (H & _ & _ & Hwide).
  split; [exact H|]. apply Hwide. by vm_compute.
Defined.

(** Marking a message as read with an expired token that cannot be
    refreshed. *)
Lemma expired_token_stops_operation_run :
  fst (fst (EmailDashboard.mark_as_read "42"
              (EmailDashboard.init (manager 1300)) expired_mailbox))
  = EmailDashboard.Err
      (EmailDashboard.IMAP4_error "Token expired and refresh failed").
Proof.
  destruct (expired_token_stops_operation
              (EmailDashboard.bind
                 (EmailDashboard.on_conn
                    (EmailDashboard.Uid "STORE" ["42"; "+FLAGS"; "(\Seen)"]))
                 (fun r => EmailDashboard.ret (String.eqb (fst r) "OK")))
              (EmailDashboard.init (manager 1300)) expired_mailbox 1300
              eq_refl eq_refl) as (H & _).
  destruct (H ltac:(by vm_compute) eq_refl) as (Hrun & _). exact Hrun.
Defined.

(** Signing in with those credentials and no terminal: they are forgotten
    and the sign-in goes on as one without saved credentials. *)
Lemma connect_forgets_rejected_credentials_run :
  let saved :=
    EmailDashboard._connect_with_saved (EmailDashboard.init (manager 1300))
      expired_mailbox in
  let cleared :=
    TokenManager.clear (EmailDashboard.tm (snd (fst saved)))
      (TokenManager.file (EmailDashboard.tmw (snd saved))) in
  EmailDashboard.connect no_terminal (EmailDashboard.init (manager 1300))
    expired_mailbox
  = EmailDashboard.connect no_terminal
      {| EmailDashboard.tm := fst cleared;
         EmailDashboard.conn := EmailDashboard.conn (snd (fst saved));
         EmailDashboard._archive_folder :=
           EmailDashboard._archive_folder (snd (fst saved)) |}
      {| EmailDashboard.tmw :=
           TokenManager.with_file (EmailDashboard.tmw (snd saved))
             (snd cleared);
         EmailDashboard.http := EmailDashboard.http (snd saved);
         EmailDashboard.imap := EmailDashboard.imap (snd saved);
         EmailDashboard.calls := EmailDashboard.calls (snd saved) |}.
Proof.
  cbv zeta.
  destruct (connect_forgets_rejected_credentials no_terminal
              (EmailDashboard.init (manager 1300)) expired_mailbox eq_refl)
    as (H & _).
  destruct (H (EmailDashboard.IMAP4_error "Token expired and refresh failed")
              eq_refl eq_refl) as (Hrun & _).
  exact Hrun.
Defined.

End FurtherRuns.
